(** * Columbus IPC driver: shared-RAM page allocator, channel table and
      transfer protocol (IPC-driver/columbus_ipc.c)

    A shallow embedding of the driver core.  C [int]s and [u32]s are [Z];
    the two ownership status registers keep their bit layout; the channel
    tables are lists indexed by slot number.  The log calls inside the
    functions ([dev_dbg], [dev_err], the dump a failed send asks for) and
    the mutexes are left out: every function below is one uninterrupted
    call. *)

From Stdlib Require Import ZArith List Lia Bool.
From Stdlib Require String DecimalString.
From stdpp Require Import base list.
Import ListNotations.
Open Scope Z_scope.

(** ** Constants of columbus_ipc.c and misc/columbus_ipc.h *)

Definition IPC_IRQ_CHANNEL_NUM : Z := 8.
Definition A7_RF_IPC_CHANNEL_NUM : Z := 16.
Definition A7_PLC_IPC_CHANNEL_NUM : Z := 16.
Definition SHARED_RAM_PAGE_NUM : Z := 32.
Definition IPC_CHANNEL_USED : Z := 1.
Definition IPC_CHANNEL_UNUSED : Z := 0.
Definition COLUMBUS_IPC_SRAM_SIZE : Z := 0x8000.
Definition COLUMBUS_IPC_PAGE_SIZE : Z := 0x400.
Definition COLUMBUS_SRAM_RF_VIEW : Z := 0x72600000.
Definition COLUMBUS_SRAM_PLC_VIEW : Z := 0x61600000.
Definition COLUMBUS_IPC_REQ_MAGIC_1 : Z := 0x49504331.
Definition COLUMBUS_IPC_REQ_MAGIC_2 : Z := 0x49504332.

Definition IPC_PARTNER_RF_DSP : Z := 0.
Definition IPC_PARTNER_PLC_DSP : Z := 1.
Definition IPC_SEND_OPERATION : Z := 0.
Definition IPC_RECEIVE_OPERATION : Z := 1.
Definition IPC_COMMUNICATION_INT : Z := 0.
Definition IPC_COMMUNICATION_POLL : Z := 1.
Definition COLUMBUS_IPC_INVALID : Z := -1.

Definition NULL : Z := 0.
Definition ENOSPC : Z := 28.
Definition ENOMEM : Z := 12.

(** ** Machine integers *)

Definition u32 (z : Z) : Z := z mod 2 ^ 32.
Definition u64 (z : Z) : Z := z mod 2 ^ 64.

(** ** Outcomes

    [Bug] is a fired [IPC_BUG] (the DEBUG build maps it to [BUG_ON]).
    [Stray] is an access outside the objects this file models (a register
    other than the ones named, a table index out of bounds, a shift by a
    negative amount): the source does not determine what happens next.
    [Blocked] is a wait that the supplied partner inputs never end. *)

Inductive outcome (A : Type) : Type :=
| Done (a : A)
| Bug
| Stray
| Blocked.

Arguments Done {A} a.
Arguments Bug {A}.
Arguments Stray {A}.
Arguments Blocked {A}.

Definition obind {A B : Type} (m : outcome A) (k : A -> outcome B) : outcome B :=
  match m with
  | Done a => k a
  | Bug => Bug
  | Stray => Stray
  | Blocked => Blocked
  end.

Notation "x <- m ;;; k" := (obind m (fun x => k))
  (at level 100, m at next level, right associativity).
Notation "m ;;; k" := (obind m (fun _ => k))
  (at level 100, right associativity).

(** ** The page ownership map *)

Inductive ownership : Type :=
| ownership_free
| ownership_a7
| ownership_rf
| ownership_plc.

(** The C cast [(enum ownership)(x & 0x3)]. *)
Definition ownership_of_bits (z : Z) : ownership :=
  if z =? 0 then ownership_free
  else if z =? 1 then ownership_a7
  else if z =? 2 then ownership_rf
  else ownership_plc.

Definition ownership_to_Z (o : ownership) : Z :=
  match o with
  | ownership_free => 0
  | ownership_a7 => 1
  | ownership_rf => 2
  | ownership_plc => 3
  end.

Definition ownership_eqb (a b : ownership) : bool :=
  ownership_to_Z a =? ownership_to_Z b.

(** The two status registers SRMSEL0 (pages 0-15) and SRMSEL1 (pages
    16-31), two bits per page. *)
Record sram_regs : Type := mk_sram_regs {
  SRMSEL0 : Z;
  SRMSEL1 : Z
}.

(** What is fixed outside columbus_ipc.c: the build flavour, the constants
    of columbus_ipc_internal.h (that header is not in the tree, so they are
    parameters), the addresses [probe] stores in [columbus_ipc], and the
    ownership controller's reaction to a write of [word] to the request
    register A7SRPnnREQ of page [n]. *)
Class Platform : Type := {
  DEBUG : bool;
  A7_REQ_KEY : Z;
  IPC_DATA_READ : Z;
  IPC_END_MSG : Z;
  sram : Z;
  sram_phy : Z;
  sram_ctrl : sram_regs -> Z -> Z -> sram_regs
}.

Section Driver.
Context {P : Platform}.

(** [IPC_BUG(cond)]: [BUG_ON] under DEBUG, otherwise the condition is
    evaluated and dropped. *)
Definition IPC_BUG (cond : bool) : outcome unit :=
  if DEBUG && cond then Bug else Done tt.

(** [ioread32(columbus_ipc.io_base + SRMSEL0 + 4 * srmsel)]. *)
Definition ioread32_srmsel (io : sram_regs) (srmsel : Z) : outcome Z :=
  if srmsel =? 0 then Done (u32 (SRMSEL0 io))
  else if srmsel =? 1 then Done (u32 (SRMSEL1 io))
  else Stray.

Definition get_sram_page_ownership (io : sram_regs) (page_num : Z)
  : outcome ownership :=
  IPC_BUG (page_num <? 0) ;;;
  IPC_BUG (page_num >=? SHARED_RAM_PAGE_NUM) ;;;
  let srmsel := Z.quot page_num 16 in
  let bit_position := Z.rem page_num 16 in
  status <- ioread32_srmsel io srmsel ;;;
  if bit_position <? 0 then Stray
  else Done (ownership_of_bits
               (Z.land (Z.shiftr status (Z.shiftl bit_position 1)) 0x3)).

(** [iowrite32(word, columbus_ipc.io_base + A7SRP00REQ + page_num * 4)]. *)
Definition iowrite32_req (io : sram_regs) (word page_num : Z) : sram_regs :=
  sram_ctrl io page_num word.

(** return 1, means successfully; otherwise return 0. *)
Definition grab_one_sram_page (io : sram_regs) (page_num : Z)
  : outcome (Z * sram_regs) :=
  status <- get_sram_page_ownership io page_num ;;;
  if negb (ownership_eqb status ownership_free) then Done (0, io)
  else
    let request_ownership :=
      u32 (Z.lor (Z.shiftl A7_REQ_KEY 4) (ownership_to_Z ownership_a7)) in
    let io := iowrite32_req io request_ownership page_num in
    status <- get_sram_page_ownership io page_num ;;;
    if negb (ownership_eqb status ownership_a7) then Done (0, io)
    else Done (1, io).

Definition release_one_sram_page (io : sram_regs) (page_num : Z)
  : outcome sram_regs :=
  status <- get_sram_page_ownership io page_num ;;;
  IPC_BUG (negb (ownership_eqb status ownership_a7)) ;;;
  let request_ownership :=
    u32 (Z.lor (Z.shiftl A7_REQ_KEY 4) (ownership_to_Z ownership_free)) in
  let io := iowrite32_req io request_ownership page_num in
  status <- get_sram_page_ownership io page_num ;;;
  IPC_BUG (negb (ownership_eqb status ownership_free)) ;;;
  Done io.

(** The [for (i = 0, count = 0, start = -1; i < 32; i++)] loop of
    [find_consecutive_free_sram_pages]; [todo] is [32 - i].  The result is
    [(count, start)] when the loop is left. *)
Fixpoint find_loop (todo : nat) (sram_ownership_status npages i count start : Z)
  : Z * Z :=
  match todo with
  | O => (count, start)
  | S todo' =>
      let page_status :=
        ownership_of_bits
          (Z.land (Z.shiftr sram_ownership_status (i * 2)) 0x3) in
      if ownership_eqb page_status ownership_free then
        let count := count + 1 in
        let start := if start =? -1 then i else start in
        if count >=? npages then (count, start)
        else find_loop todo' sram_ownership_status npages (i + 1) count start
      else
        find_loop todo' sram_ownership_status npages (i + 1) 0 (-1)
  end.

(** If successfully, return 1 and *page_num is the start page number,
    otherwise return 0.  The second component is [*page_num] after the
    call; [page_num] is its value before. *)
Definition find_consecutive_free_sram_pages (io : sram_regs)
    (npages page_num : Z) : outcome (Z * Z) :=
  let srmsel0 := u32 (SRMSEL0 io) in
  let srmsel1 := u32 (SRMSEL1 io) in
  let sram_ownership_status := srmsel1 in
  let sram_ownership_status := u64 (Z.shiftl sram_ownership_status 32) in
  let sram_ownership_status := Z.lor sram_ownership_status srmsel0 in
  let '(count, start) := find_loop 32 sram_ownership_status npages 0 0 (-1) in
  if count =? npages then
    IPC_BUG (start =? -1) ;;;
    IPC_BUG (start >? 32 - count) ;;;
    Done (1, start)
  else Done (0, page_num).

(** The [for (i = 0; i < npages; i++)] loop of [try_to_grab_sram_pages];
    [todo] is [npages - i].  The result is [i] when the loop is left. *)
Fixpoint grab_loop (todo : nat) (io : sram_regs) (page_num i : Z)
  : outcome (Z * sram_regs) :=
  match todo with
  | O => Done (i, io)
  | S todo' =>
      r <- grab_one_sram_page io (page_num + i) ;;;
      let '(grab, io) := r in
      if grab =? 0 then Done (i, io)
      else grab_loop todo' io page_num (i + 1)
  end.

(** return the start page number of the allocated shared ram;
    return -1, fail *)
Definition try_to_grab_sram_pages (io : sram_regs) (page_num npages : Z)
  : outcome (Z * sram_regs) :=
  let start_page := -1 in
  page_num <-
    (if page_num =? -1 then
       r <- find_consecutive_free_sram_pages io npages start_page ;;;
       let '(find_result, start_page) := r in
       if find_result =? 0 then Done None else Done (Some start_page)
     else Done (Some page_num)) ;;;
  match page_num with
  | None => Done (-1, io)
  | Some page_num =>
      r <- grab_loop (Z.to_nat npages) io page_num 0 ;;;
      let '(i, io) := r in
      if i =? npages then Done (page_num, io) else Done (-1, io)
  end.

Fixpoint release_loop (todo : nat) (io : sram_regs) (page_num i : Z)
  : outcome sram_regs :=
  match todo with
  | O => Done io
  | S todo' =>
      io <- release_one_sram_page io (page_num + i) ;;;
      release_loop todo' io page_num (i + 1)
  end.

Definition free_sram_pages (io : sram_regs) (page_num npages : Z)
  : outcome sram_regs :=
  release_loop (Z.to_nat npages) io page_num 0.

(** [npages = size / COLUMBUS_IPC_PAGE_SIZE; if (size % ...) npages++;] *)
Definition size2npages (size : Z) : Z :=
  let npages := Z.quot size COLUMBUS_IPC_PAGE_SIZE in
  if Z.rem size COLUMBUS_IPC_PAGE_SIZE =? 0 then npages else npages + 1.

(** if addr is not NULL, the function will try to allocate size shared ram
    from the assigned address; otherwise it will allocate buffer at will.
    Pointers are 32-bit addresses. *)
Definition ipc_sram_alloc (io : sram_regs) (addr size : Z)
  : outcome (Z * sram_regs) :=
  let page_num := -1 in
  let ret_addr := NULL in
  if size <=? 0 then Done (NULL, io)
  else if size >? COLUMBUS_IPC_SRAM_SIZE then Done (NULL, io)
  else if negb (Z.land (u32 addr) (COLUMBUS_IPC_PAGE_SIZE - 1) =? 0)
  then Done (NULL, io)
  else
    let npages := size2npages size in
    page_num <-
      (if negb (addr =? NULL) then
         if (addr <? sram) || (addr >=? sram + COLUMBUS_IPC_SRAM_SIZE)
         then Done None
         else
           IPC_BUG (negb (Z.rem (addr - sram) COLUMBUS_IPC_PAGE_SIZE =? 0)) ;;;
           Done (Some (Z.quot (addr - sram) COLUMBUS_IPC_PAGE_SIZE))
       else Done (Some page_num)) ;;;
    match page_num with
    | None => Done (NULL, io)
    | Some page_num =>
        r <- try_to_grab_sram_pages io page_num npages ;;;
        let '(page_num, io) := r in
        if negb (page_num =? -1)
        then Done (u32 (sram + page_num * COLUMBUS_IPC_PAGE_SIZE), io)
        else Done (ret_addr, io)
    end.

Definition ipc_sram_free (io : sram_regs) (addr size : Z)
  : outcome sram_regs :=
  IPC_BUG (size <=? 0) ;;;
  IPC_BUG (size >? COLUMBUS_IPC_SRAM_SIZE) ;;;
  IPC_BUG (addr =? NULL) ;;;
  IPC_BUG (negb (Z.land (u32 addr) (COLUMBUS_IPC_PAGE_SIZE - 1) =? 0)) ;;;
  IPC_BUG ((addr <? sram) || (addr >=? sram + COLUMBUS_IPC_SRAM_SIZE)) ;;;
  let page_num := Z.quot (addr - sram) COLUMBUS_IPC_PAGE_SIZE in
  IPC_BUG (negb (Z.rem (addr - sram) COLUMBUS_IPC_PAGE_SIZE =? 0)) ;;;
  let npages := size2npages size in
  free_sram_pages io page_num npages.

(** ** The channel tables *)

Record ipc_channel : Type := mk_ipc_channel {
  magic_1 : Z;
  used : Z;
  partner : Z;
  operation : Z;
  mode : Z;
  magic_2 : Z
}.

(** [ipc_rf_channel[]] or [ipc_plc_channel[]]. *)
Inductive channel_table : Type :=
| rf_table
| plc_table.

Definition channel_table_eqb (a b : channel_table) : bool :=
  match a, b with
  | rf_table, rf_table => true
  | plc_table, plc_table => true
  | _, _ => false
  end.

(** A [channel_handle] is a pointer to a slot of one of the two tables. *)
Record channel_handle : Type := mk_handle {
  h_table : channel_table;
  h_slot : Z
}.

Record channel_tables : Type := mk_tables {
  ipc_rf_channel : list ipc_channel;
  ipc_plc_channel : list ipc_channel
}.

Definition table_of (t : channel_tables) (which : channel_table)
  : list ipc_channel :=
  match which with
  | rf_table => ipc_rf_channel t
  | plc_table => ipc_plc_channel t
  end.

Definition set_table (t : channel_tables) (which : channel_table)
    (channels : list ipc_channel) : channel_tables :=
  match which with
  | rf_table => mk_tables channels (ipc_plc_channel t)
  | plc_table => mk_tables (ipc_rf_channel t) channels
  end.

(** [channels[i]] as an rvalue. *)
Definition slot_read (channels : list ipc_channel) (i : Z)
  : outcome ipc_channel :=
  if i <? 0 then Stray
  else match channels !! Z.to_nat i with
       | Some c => Done c
       | None => Stray
       end.

Definition set_used (c : ipc_channel) (v : Z) : ipc_channel :=
  mk_ipc_channel (magic_1 c) v (partner c) (operation c) (mode c) (magic_2 c).

(** The [for (i = 0; i < max_channel; i++)] scan of [get_free_channel];
    [todo] is [max_channel - i]. *)
Fixpoint scan_loop (todo : nat) (channels : list ipc_channel) (i : Z)
  : outcome (option Z * list ipc_channel) :=
  match todo with
  | O => Done (None, channels)
  | S todo' =>
      c <- slot_read channels i ;;;
      if used c =? IPC_CHANNEL_UNUSED then
        Done (Some i, <[Z.to_nat i := set_used c IPC_CHANNEL_USED]> channels)
      else scan_loop todo' channels (i + 1)
  end.

(** if appointed_channel is COLUMBUS_IPC_INVALID, the function will return
    a free channel at will.  [channels] is the table the pointer argument
    designates, so the assertion that it is one of the two tables holds by
    typing; the result is the slot returned ([None] for NULL) and the
    table afterwards. *)
Definition get_free_channel (channels : list ipc_channel)
    (max_channel appointed_channel : Z)
  : outcome (option Z * list ipc_channel) :=
  IPC_BUG (max_channel >? A7_RF_IPC_CHANNEL_NUM) ;;;
  IPC_BUG (negb (appointed_channel =? COLUMBUS_IPC_INVALID)
           && (appointed_channel >=? max_channel)) ;;;
  IPC_BUG (appointed_channel <? COLUMBUS_IPC_INVALID) ;;;
  if negb (appointed_channel =? COLUMBUS_IPC_INVALID) then
    c <- slot_read channels appointed_channel ;;;
    if used c =? IPC_CHANNEL_UNUSED then
      Done (Some appointed_channel,
            <[Z.to_nat appointed_channel := set_used c IPC_CHANNEL_USED]>
              channels)
    else Done (None, channels)
  else
    scan_loop (Z.to_nat max_channel) channels 0.

Definition set_ipc_channel (channel : ipc_channel)
    (partner operation mode : Z) : ipc_channel :=
  mk_ipc_channel COLUMBUS_IPC_REQ_MAGIC_1 (used channel) partner operation
                 mode COLUMBUS_IPC_REQ_MAGIC_2.

(** Make all fields in struct ipc_channel are invalid. *)
Definition clear_ipc_channel (channel : ipc_channel) : ipc_channel :=
  mk_ipc_channel (u32 COLUMBUS_IPC_INVALID) IPC_CHANNEL_UNUSED
                 COLUMBUS_IPC_INVALID COLUMBUS_IPC_INVALID
                 COLUMBUS_IPC_INVALID (u32 COLUMBUS_IPC_INVALID).

Definition get_channels (partner : Z) : outcome channel_table :=
  if partner =? IPC_PARTNER_RF_DSP then Done rf_table
  else
    IPC_BUG (negb (partner =? IPC_PARTNER_PLC_DSP)) ;;;
    Done plc_table.

Definition get_max_channel (operation mode : Z) : outcome Z :=
  if mode =? IPC_COMMUNICATION_INT then Done IPC_IRQ_CHANNEL_NUM
  else
    IPC_BUG (negb (mode =? IPC_COMMUNICATION_POLL)) ;;;
    Done A7_RF_IPC_CHANNEL_NUM.

(** return the unused channel; [None] is the NULL handle. *)
Definition columbus_ipc_get_channel (t : channel_tables)
    (partner operation mode appointed_channel : Z)
  : outcome (option channel_handle * channel_tables) :=
  IPC_BUG (negb (partner =? IPC_PARTNER_RF_DSP)
           && negb (partner =? IPC_PARTNER_PLC_DSP)) ;;;
  IPC_BUG (negb (operation =? IPC_SEND_OPERATION)
           && negb (operation =? IPC_RECEIVE_OPERATION)) ;;;
  IPC_BUG (negb (mode =? IPC_COMMUNICATION_INT)
           && negb (mode =? IPC_COMMUNICATION_POLL)) ;;;
  channels <- get_channels partner ;;;
  max_channel <- get_max_channel operation mode ;;;
  r <- get_free_channel (table_of t channels) max_channel appointed_channel ;;;
  let '(channel, tbl) := r in
  match channel with
  | Some i =>
      c <- slot_read tbl i ;;;
      Done (Some (mk_handle channels i),
            set_table t channels
              (<[Z.to_nat i := set_ipc_channel c partner operation mode]> tbl))
  | None => Done (None, set_table t channels tbl)
  end.

(** [*channel_2] for a handle. *)
Definition deref (t : channel_tables) (channel : channel_handle)
  : outcome ipc_channel :=
  slot_read (table_of t (h_table channel)) (h_slot channel).

Definition columbus_ipc_put_channel (t : channel_tables)
    (channel : channel_handle) : outcome channel_tables :=
  channel_2 <- deref t channel ;;;
  IPC_BUG (negb (magic_1 channel_2 =? COLUMBUS_IPC_REQ_MAGIC_1)) ;;;
  IPC_BUG (negb (magic_2 channel_2 =? COLUMBUS_IPC_REQ_MAGIC_2)) ;;;
  IPC_BUG (negb (used channel_2 =? IPC_CHANNEL_USED)) ;;;
  IPC_BUG (negb (partner channel_2 =? IPC_PARTNER_RF_DSP)
           && negb (partner channel_2 =? IPC_PARTNER_PLC_DSP)) ;;;
  IPC_BUG (negb (operation channel_2 =? IPC_SEND_OPERATION)
           && negb (operation channel_2 =? IPC_RECEIVE_OPERATION)) ;;;
  IPC_BUG (negb (mode channel_2 =? IPC_COMMUNICATION_INT)
           && negb (mode channel_2 =? IPC_COMMUNICATION_POLL)) ;;;
  get_max_channel (operation channel_2) (mode channel_2) ;;;
  Done (set_table t (h_table channel)
          (<[Z.to_nat (h_slot channel) := clear_ipc_channel channel_2]>
             (table_of t (h_table channel)))).

(** [channel_2 - channels]; comparing or subtracting pointers into
    different tables is outside C. *)
Definition channel2num (t : channel_tables) (channel : channel_handle)
  : outcome Z :=
  channel_2 <- deref t channel ;;;
  channels <- get_channels (partner channel_2) ;;;
  if negb (channel_table_eqb channels (h_table channel)) then Stray
  else
    IPC_BUG (h_slot channel <? 0) ;;;
    max_channel <- get_max_channel (operation channel_2) (mode channel_2) ;;;
    IPC_BUG (h_slot channel >=? max_channel) ;;;
    let num := h_slot channel in
    IPC_BUG ((num <? 0) || (num >=? max_channel)) ;;;
    Done num.

(** ** The transfer protocol *)

(** The mailbox registers of columbus_ipc_internal.h that the protocol
    writes, by name.  The registers it only reads (the flag, status and
    inbound header registers) are driven by the partner: their values are
    arguments of the functions that read them. *)
Inductive reg : Type :=
| A7TORFIPCSET | A7TOPLCIPCSET
| RFTOA7IPCACK | PLCTOA7IPCACK
| A7TORFIPCCOMM | A7TORFIPCADDR | A7TORFIPCDATA0 | A7TORFIPCDATA1
| A7TOPLCIPCCOMM | A7TOPLCIPCADDR | A7TOPLCIPCDATA0 | A7TOPLCIPCDATA1.

(** What the driver does to its surroundings, in program order. *)
Inductive event : Type :=
| Iowrite32 (value : Z) (r : reg)
| Enable_irq (line : Z)
| Disable_irq (line : Z).

Record machine : Type := mk_machine {
  io : sram_regs;
  tables : channel_tables;
  (** [columbus_ipc.ipc_irq[n].irq_done.done], one counter per line *)
  irq_done : list Z;
  (** the byte at each virtual address *)
  shared_ram : Z -> Z;
  log : list event
}.

Definition with_io (m : machine) (r : sram_regs) : machine :=
  mk_machine r (tables m) (irq_done m) (shared_ram m) (log m).
Definition with_irq_done (m : machine) (d : list Z) : machine :=
  mk_machine (io m) (tables m) d (shared_ram m) (log m).
Definition with_shared_ram (m : machine) (f : Z -> Z) : machine :=
  mk_machine (io m) (tables m) (irq_done m) f (log m).
Definition emit (m : machine) (e : event) : machine :=
  mk_machine (io m) (tables m) (irq_done m) (shared_ram m) (log m ++ [e]).

Definition iowrite32 (m : machine) (value : Z) (r : reg) : machine :=
  emit m (Iowrite32 (u32 value) r).

(** Conversion of a [size_t] or [u32] to [int]. *)
Definition to_int (z : Z) : Z :=
  let w := u32 z in if w <? 2 ^ 31 then w else w - 2 ^ 32.

Definition notify_partner (m : machine) (channel : channel_handle)
  : outcome (Z * machine) :=
  channel_num <- channel2num (tables m) channel ;;;
  channel_2 <- deref (tables m) channel ;;;
  let channel_set := Z.shiftl 0x01 channel_num in
  if partner channel_2 =? IPC_PARTNER_RF_DSP
  then Done (0, iowrite32 m channel_set A7TORFIPCSET)
  else Done (0, iowrite32 m channel_set A7TOPLCIPCSET).

Definition ack_partner (m : machine) (channel : channel_handle)
  : outcome (Z * machine) :=
  channel_num <- channel2num (tables m) channel ;;;
  channel_2 <- deref (tables m) channel ;;;
  let channel_ack := Z.shiftl 0x01 channel_num in
  if partner channel_2 =? IPC_PARTNER_RF_DSP
  then Done (0, iowrite32 m channel_ack RFTOA7IPCACK)
  else Done (0, iowrite32 m channel_ack PLCTOA7IPCACK).

(** page_num is shared ram's page number *)
Definition pagenum2pageaddr (page_num : Z) : Z :=
  if page_num =? -1 then NULL
  else u32 (sram + page_num * COLUMBUS_IPC_PAGE_SIZE).

(** The page_addr must be the virtual address of the shared ram. *)
Definition pageaddr2pagenum (page_addr : Z) : outcome Z :=
  IPC_BUG (negb (Z.rem (u32 page_addr) COLUMBUS_IPC_PAGE_SIZE =? 0)) ;;;
  IPC_BUG (page_addr <? sram) ;;;
  IPC_BUG (page_addr >=? sram + COLUMBUS_IPC_SRAM_SIZE) ;;;
  Done (Z.quot (page_addr - sram) COLUMBUS_IPC_PAGE_SIZE).

Definition is_valid_address (t : channel_tables) (channel : channel_handle)
    (address : Z) : outcome Z :=
  channel_2 <- deref t channel ;;;
  if partner channel_2 =? IPC_PARTNER_RF_DSP then
    if (address >=? COLUMBUS_SRAM_RF_VIEW)
       && (address <? COLUMBUS_SRAM_RF_VIEW + COLUMBUS_IPC_SRAM_SIZE)
    then IPC_BUG (negb (Z.rem address COLUMBUS_IPC_PAGE_SIZE =? 0)) ;;; Done 1
    else Done 0
  else
    if (address >=? COLUMBUS_SRAM_PLC_VIEW)
       && (address <? COLUMBUS_SRAM_PLC_VIEW + COLUMBUS_IPC_SRAM_SIZE)
    then IPC_BUG (negb (Z.rem address COLUMBUS_IPC_PAGE_SIZE =? 0)) ;;; Done 1
    else Done 0.

(** The address is from DSP side, need to convert address from A7 side. *)
Definition address_from_a7_view (t : channel_tables)
    (channel : channel_handle) (address : Z) : outcome Z :=
  channel_2 <- deref t channel ;;;
  let offset :=
    if partner channel_2 =? IPC_PARTNER_RF_DSP
    then u32 (address - COLUMBUS_SRAM_RF_VIEW)
    else u32 (address - COLUMBUS_SRAM_PLC_VIEW) in
  Done (u32 (sram_phy + offset)).

(** get the virtual address of sram *)
Definition phy2vir (address : Z) : outcome Z :=
  IPC_BUG ((address <? sram_phy)
           || (address >=? sram_phy + COLUMBUS_IPC_SRAM_SIZE)) ;;;
  Done (u32 (sram + (address - sram_phy))).

Definition memset (mem : Z -> Z) (dst c n : Z) : Z -> Z :=
  fun a => if (dst <=? a) && (a <? dst + n) then c else mem a.

(** [memcpy(dst, src, n)] from a caller's buffer into memory. *)
Definition memcpy_in (mem : Z -> Z) (dst : Z) (src : list Z) (n : Z)
  : Z -> Z :=
  fun a => if (dst <=? a) && (a <? dst + n)
           then nth (Z.to_nat (a - dst)) src 0 else mem a.

(** The [while (ipc_flag)] loop of [columbus_ipc_send_message].
    [flag_reads] are the values the successive [ioread32]s of the flag
    register return; the result is how many of them were consumed when the
    loop is left. *)
Fixpoint send_wait_loop (flag_reads : list Z) (ipc_flag : Z) : outcome nat :=
  if ipc_flag =? 0 then Done O
  else match flag_reads with
       | [] => Blocked
       | v :: flag_reads' =>
           let ipc_flag := u32 v in
           n <- send_wait_loop flag_reads' ipc_flag ;;;
           Done (S n)
       end.

Definition columbus_ipc_send_message (m : machine) (channel : channel_handle)
    (message : list Z) (len : Z) (page_num : Z) (flag_reads : list Z)
  : outcome (Z * machine) :=
  channel_num <- channel2num (tables m) channel ;;;
  channel_2 <- deref (tables m) channel ;;;
  if len =? 0 then Done (0, m)
  else
    r <- ipc_sram_alloc (io m) (pagenum2pageaddr page_num) (to_int len) ;;;
    let '(sram_addr, regs) := r in
    let m := with_io m regs in
    if sram_addr =? NULL then Done (- ENOSPC, m)
    else
      page_num <- pageaddr2pagenum sram_addr ;;;
      let m := with_shared_ram m (memset (shared_ram m) sram_addr 0 len) in
      (if Z.of_nat (length message) <? len then Stray else Done tt) ;;;
      let m :=
        with_shared_ram m (memcpy_in (shared_ram m) sram_addr message len) in
      let rf := partner channel_2 =? IPC_PARTNER_RF_DSP in
      let m := iowrite32 m IPC_DATA_READ
                 (if rf then A7TORFIPCCOMM else A7TOPLCIPCCOMM) in
      let m := iowrite32 m (sram_phy + page_num * COLUMBUS_IPC_PAGE_SIZE)
                 (if rf then A7TORFIPCADDR else A7TOPLCIPCADDR) in
      let m := iowrite32 m len
                 (if rf then A7TORFIPCDATA0 else A7TOPLCIPCDATA0) in
      let m := iowrite32 m (Z.lor page_num (Z.shiftl IPC_END_MSG 16))
                 (if rf then A7TORFIPCDATA1 else A7TOPLCIPCDATA1) in
      let ack_offset := if rf then RFTOA7IPCACK else PLCTOA7IPCACK in
      r <- notify_partner m channel ;;;
      let m := snd r in
      let ipc_flag := u32 (Z.shiftl 1 channel_num) in
      send_wait_loop flag_reads ipc_flag ;;;
      let m := iowrite32 m (Z.shiftl 1 channel_num) ack_offset in
      regs <- ipc_sram_free (io m) (pagenum2pageaddr page_num) (to_int len) ;;;
      Done (to_int len, with_io m regs).

(** DSP partner (RF / LPC) will trigger the ARM A7's interrupt.
    [private] is the line number registered by [probe]: 0-7 is for RF DSP,
    8-15 is for PLC DSP. *)
Definition columbus_ipc_irq_handler (m : machine) (private : Z)
  : outcome machine :=
  let int_channel_num := private in
  IPC_BUG (int_channel_num <? 0) ;;;
  IPC_BUG (int_channel_num >=? IPC_IRQ_CHANNEL_NUM + IPC_IRQ_CHANNEL_NUM) ;;;
  r <- (if int_channel_num <? IPC_IRQ_CHANNEL_NUM then
          let channel_num := int_channel_num in
          channel <- slot_read (ipc_rf_channel (tables m)) channel_num ;;;
          IPC_BUG (negb (partner channel =? IPC_PARTNER_RF_DSP)) ;;;
          Done (channel_num, channel, RFTOA7IPCACK)
        else
          let channel_num := int_channel_num - IPC_IRQ_CHANNEL_NUM in
          channel <- slot_read (ipc_plc_channel (tables m)) channel_num ;;;
          IPC_BUG (negb (partner channel =? IPC_PARTNER_PLC_DSP)) ;;;
          Done (channel_num, channel, PLCTOA7IPCACK)) ;;;
  let '(channel_num, channel, ack_offset) := r in
  IPC_BUG (negb (used channel =? IPC_CHANNEL_USED)) ;;;
  IPC_BUG (negb (mode channel =? IPC_COMMUNICATION_INT)) ;;;
  (if operation channel =? IPC_SEND_OPERATION then Done tt
   else IPC_BUG (negb (operation channel =? IPC_RECEIVE_OPERATION))) ;;;
  (* done = &(columbus_ipc.ipc_irq[int_channel_num].irq_done);
     complete(done); *)
  done <- (if int_channel_num <? 0 then Stray
           else match irq_done m !! Z.to_nat int_channel_num with
                | Some d => Done d
                | None => Stray
                end) ;;;
  let m := with_irq_done m
             (<[Z.to_nat int_channel_num := done + 1]> (irq_done m)) in
  (* clear the interrupt. *)
  let m := iowrite32 m (Z.shiftl 1 channel_num) ack_offset in
  Done m.

(** What the partner and the kernel feed one [columbus_ipc_receive_message]
    call: whether the channel's interrupt arrives while the caller waits,
    the successive values of the status register, the four inbound header
    registers, and whether [kmalloc] finds memory. *)
Record receive_input : Type := mk_receive_input {
  irq_arrives : bool;
  sts_reads : list Z;
  in_command : Z;
  in_address : Z;
  in_data0 : Z;
  in_data1 : Z;
  kmalloc_ok : bool
}.

(** What [*message] points to afterwards: a [kmalloc]ed buffer, each cell
    either written ([Some b]) or still uninitialized ([None]), or, when no
    buffer was allocated, the indeterminate initial value of [msg_buf]. *)
Inductive message_ptr : Type :=
| Buffer (cells : list (option Z))
| Indeterminate.

(** The return value with [*message] and [*len]; [None] where the call left
    them unassigned. *)
Record received : Type := mk_received {
  ret : Z;
  out : option (message_ptr * Z)
}.

(** The [do ... while ((ipc_status & (1 << channel_num)) == 0)] loop. *)
Fixpoint receive_poll_loop (sts_reads : list Z) (channel_num : Z)
  : outcome nat :=
  match sts_reads with
  | [] => Blocked
  | v :: sts_reads' =>
      let ipc_status := u32 v in
      if Z.land ipc_status (Z.shiftl 1 channel_num) =? 0 then
        n <- receive_poll_loop sts_reads' channel_num ;;;
        Done (S n)
      else Done 1%nat
  end.

(** [wait_for_completion(sync)] once nothing more can complete [sync]. *)
Definition wait_for_completion (m : machine) (line : Z) : outcome machine :=
  if line <? 0 then Stray
  else match irq_done m !! Z.to_nat line with
       | Some d =>
           if d =? 0 then Blocked
           else Done (with_irq_done m (<[Z.to_nat line := d - 1]> (irq_done m)))
       | None => Stray
       end.

(** [memcpy(msg_buf, msg, n)] out of memory into a fresh buffer. *)
Definition memcpy_out (mem : Z -> Z) (src n : Z) : list (option Z) :=
  map (fun k => Some (mem (src + Z.of_nat k))) (seq 0 (Z.to_nat n)).

(** The [n] bytes at [a] lie inside the window [probe] mapped at
    [columbus_ipc.sram]; no byte is no access.  A [memcpy] that reads
    elsewhere reads through a wild pointer. *)
Definition in_sram (a n : Z) : bool :=
  (n <=? 0) || ((sram <=? a) && (a + n <=? sram + COLUMBUS_IPC_SRAM_SIZE)).

(** The wait of [columbus_ipc_receive_message]: on the completion of the
    channel's interrupt line, or by polling the status register. *)
Definition receive_wait (m : machine) (channel_2 : ipc_channel)
    (channel_num : Z) (env : receive_input) : outcome machine :=
  let offset := 0 in
  if mode channel_2 =? IPC_COMMUNICATION_INT then
    let offset :=
      if partner channel_2 =? IPC_PARTNER_PLC_DSP
      then offset + IPC_IRQ_CHANNEL_NUM else offset in
    let line := channel_num + offset in
    (* init_completion(sync) *)
    (if (line <? 0) || (Z.of_nat (length (irq_done m)) <=? line)
     then Stray else Done tt) ;;;
    let m := with_irq_done m (<[Z.to_nat line := 0]> (irq_done m)) in
    let m := emit m (Enable_irq line) in
    (* wait the dsp partner send message to a7. *)
    m <- (if irq_arrives env then columbus_ipc_irq_handler m line
          else Done m) ;;;
    m <- wait_for_completion m line ;;;
    Done (emit m (Disable_irq line))
  else
    IPC_BUG (negb (mode channel_2 =? IPC_COMMUNICATION_POLL)) ;;;
    receive_poll_loop (sts_reads env) channel_num ;;;
    Done m.

(** The rest of [columbus_ipc_receive_message], from
    [/* retrieve the message */] on. *)
Definition receive_retrieve (m : machine) (channel : channel_handle)
    (env : receive_input) : outcome (received * machine) :=
  let command := u32 (in_command env) in
  let address := u32 (in_address env) in
  let data0 := u32 (in_data0 env) in
  let data1 := u32 (in_data1 env) in
  if command =? u32 IPC_DATA_READ then
    valid <- is_valid_address (tables m) channel address ;;;
    IPC_BUG (valid =? 0) ;;;
    msg_addr_from_a7_view <- address_from_a7_view (tables m) channel address ;;;
    msg <- phy2vir msg_addr_from_a7_view ;;;
    IPC_BUG (data0 >? COLUMBUS_IPC_SRAM_SIZE) ;;;
    (* Note: DON'T FORGET FREE THE FOLLOWING MEMORY !!! *)
    if negb (kmalloc_ok env) then Done (mk_received (- ENOMEM) None, m)
    else
      let msg_buf := repeat None (Z.to_nat data0) in
      msg_buf <-
        (if Z.shiftr data1 16 =? u32 IPC_END_MSG then
           (* memcpy(msg_buf, msg, data0) *)
           if in_sram msg data0
           then Done (memcpy_out (shared_ram m) msg data0)
           else Stray
         else Done msg_buf) ;;;
      Done (mk_received (to_int data0) (Some (Buffer msg_buf, data0)), m)
  else
    Done (mk_received (to_int data0) (Some (Indeterminate, data0)), m).

Definition columbus_ipc_receive_message (m : machine)
    (channel : channel_handle) (env : receive_input)
  : outcome (received * machine) :=
  channel_num <- channel2num (tables m) channel ;;;
  channel_2 <- deref (tables m) channel ;;;
  (* Firstly, ARM need ack RFTOA7IPCACK or PLCTOA7IPCACK *)
  let m :=
    if partner channel_2 =? IPC_PARTNER_RF_DSP
    then iowrite32 m (Z.shiftl 1 channel_num) RFTOA7IPCACK
    else iowrite32 m (Z.shiftl 1 channel_num) PLCTOA7IPCACK in
  m <- receive_wait m channel_2 channel_num env ;;;
  receive_retrieve m channel env.

End Driver.

(** ** The driver's own unit tests (COLUMBUS_IPC_UNITTEST) *)

Section Unittest.
Context {P : Platform}.

(** [IPC_UNITTEST_ASSERT(condition)]: [if (!condition) IPC_BUG(1);] *)
Definition IPC_UNITTEST_ASSERT (condition : bool) : outcome unit :=
  if negb condition then IPC_BUG true else Done tt.

(** [for (i = from; i < from + todo; i++) body(i);] over the ownership
    registers. *)
Fixpoint for_each_page (todo : nat) (i : Z)
    (body : Z -> sram_regs -> outcome sram_regs) (io : sram_regs)
  : outcome sram_regs :=
  match todo with
  | O => Done io
  | S todo' =>
      io <- body i io ;;;
      for_each_page todo' (i + 1) body io
  end.

Definition unittest_make_sram_free (io : sram_regs) : outcome sram_regs :=
  for_each_page 32 0
    (fun page_num io =>
       status <- get_sram_page_ownership io page_num ;;;
       if ownership_eqb status ownership_a7
       then release_one_sram_page io page_num
       else Done io) io.

Definition unittest_check_sram_free (io : sram_regs) : outcome sram_regs :=
  for_each_page 32 0
    (fun page_num io =>
       status <- get_sram_page_ownership io page_num ;;;
       IPC_UNITTEST_ASSERT (ownership_eqb status ownership_free) ;;;
       Done io) io.

(** [result = find_consecutive_free_sram_pages(n, &start_page);] followed
    by the two assertions on [result] and, on success, on [start_page]. *)
Definition unittest_find (io : sram_regs) (npages start_page : Z)
    (result_expected : Z) (start_expected : option Z) : outcome Z :=
  r <- find_consecutive_free_sram_pages io npages start_page ;;;
  let '(result, start_page) := r in
  IPC_UNITTEST_ASSERT (result =? result_expected) ;;;
  match start_expected with
  | Some s => IPC_UNITTEST_ASSERT (start_page =? s)
  | None => Done tt
  end ;;;
  Done start_page.

(** [IPC_UNITTEST_ASSERT((try_to_grab_sram_pages(page_num, npages) == v))] *)
Definition unittest_try (io : sram_regs) (page_num npages v : Z)
  : outcome sram_regs :=
  r <- try_to_grab_sram_pages io page_num npages ;;;
  IPC_UNITTEST_ASSERT (fst r =? v) ;;;
  Done (snd r).

(** [page = ipc_sram_alloc(addr, size); IPC_UNITTEST_ASSERT((page == v));] *)
Definition unittest_alloc (io : sram_regs) (addr size v : Z)
  : outcome sram_regs :=
  r <- ipc_sram_alloc io addr size ;;;
  IPC_UNITTEST_ASSERT (fst r =? v) ;;;
  Done (snd r).

(** [status = get_sram_page_ownership(p); IPC_UNITTEST_ASSERT((status == o));] *)
Definition unittest_status (io : sram_regs) (p : Z) (o : ownership)
  : outcome unit :=
  status <- get_sram_page_ownership io p ;;;
  IPC_UNITTEST_ASSERT (ownership_eqb status o).

(** [start_page] is the indeterminate initial value of the local. *)
Definition unittest_sram_operation (io : sram_regs) (start_page : Z)
  : outcome sram_regs :=
  let page_num (i : Z) := existsb (Z.eqb i) [2; 6; 11; 17; 24] in
  io <- unittest_check_sram_free io ;;;
  io <- for_each_page 32 0
          (fun i io =>
             r <- grab_one_sram_page io i ;;;
             IPC_UNITTEST_ASSERT (fst r =? 1) ;;; Done (snd r)) io ;;;
  io <- for_each_page 32 0
          (fun i io => unittest_status io i ownership_a7 ;;; Done io) io ;;;
  io <- for_each_page 32 0 (fun i io => release_one_sram_page io i) io ;;;
  io <- unittest_check_sram_free io ;;;
  io <- for_each_page 32 0
          (fun i io =>
             if page_num i then
               r <- grab_one_sram_page io i ;;;
               IPC_UNITTEST_ASSERT (fst r =? 1) ;;; Done (snd r)
             else Done io) io ;;;
  start_page <- unittest_find io 2 start_page 1 (Some 0) ;;;
  start_page <- unittest_find io 3 start_page 1 (Some 3) ;;;
  start_page <- unittest_find io 4 start_page 1 (Some 7) ;;;
  start_page <- unittest_find io 5 start_page 1 (Some 12) ;;;
  start_page <- unittest_find io 6 start_page 1 (Some 18) ;;;
  start_page <- unittest_find io 7 start_page 1 (Some 25) ;;;
  io <- free_sram_pages io 2 1 ;;;
  let page_num (i : Z) := existsb (Z.eqb i) [6; 11; 17; 24] in
  start_page <- unittest_find io 6 start_page 1 (Some 0) ;;;
  io <- free_sram_pages io 24 1 ;;;
  let page_num (i : Z) := existsb (Z.eqb i) [6; 11; 17] in
  start_page <- unittest_find io 14 start_page 1 (Some 18) ;;;
  start_page <- unittest_find io 15 start_page 0 None ;;;
  (* free all occupied sram *)
  io <- for_each_page 32 0
          (fun i io =>
             if page_num i then release_one_sram_page io i else Done io) io ;;;
  start_page <- unittest_find io 32 start_page 1 (Some 0) ;;;
  io <- unittest_try io (-1) 32 0 ;;;
  io <- free_sram_pages io 0 32 ;;;
  r <- grab_one_sram_page io 0 ;;;
  IPC_UNITTEST_ASSERT (fst r =? 1) ;;;
  let io := snd r in
  io <- unittest_try io (-1) 32 (-1) ;;;
  io <- unittest_try io 0 1 (-1) ;;;
  io <- unittest_try io 0 3 (-1) ;;;
  io <- unittest_try io 1 3 1 ;;;
  io <- unittest_make_sram_free io ;;;
  r <- ipc_sram_alloc io NULL 1000 ;;;
  let '(page, io) := r in
  IPC_UNITTEST_ASSERT (sram =? page) ;;;
  unittest_status io 0 ownership_a7 ;;;
  unittest_status io 1 ownership_free ;;;
  io <- ipc_sram_free io page 1000 ;;;
  unittest_status io 0 ownership_free ;;;
  io <- unittest_alloc io (pagenum2pageaddr 3) 1000
          (sram + COLUMBUS_IPC_PAGE_SIZE * 3) ;;;
  io <- unittest_alloc io (pagenum2pageaddr 2) 2000 NULL ;;;
  io <- unittest_alloc io NULL 2000 sram ;;;
  r <- ipc_sram_alloc io (pagenum2pageaddr 16) 7000 ;;;
  let '(page2, io) := r in
  IPC_UNITTEST_ASSERT (page2 =? sram + COLUMBUS_IPC_PAGE_SIZE * 16) ;;;
  io <- ipc_sram_free io page2 7000 ;;;
  io <- unittest_alloc io (pagenum2pageaddr 16) 1000
          (sram + COLUMBUS_IPC_PAGE_SIZE * 16) ;;;
  unittest_make_sram_free io.

(** [channel2num] of a handle that may be NULL. *)
Definition unittest_channel2num (t : channel_tables)
    (channel : option channel_handle) : outcome Z :=
  match channel with
  | Some h => channel2num t h
  | None => Stray
  end.

Definition unittest_put (t : channel_tables) (channel : option channel_handle)
  : outcome channel_tables :=
  match channel with
  | Some h => columbus_ipc_put_channel t h
  | None => Stray
  end.

(** [for (i = ...; i < ...; i++) { backup[i] = columbus_ipc_get_channel(...);
    IPC_UNITTEST_ASSERT((channel2num(backup[i]) == i)); }]; the result lists
    [backup[]] in index order. *)
Fixpoint unittest_fill (todo : nat) (i : Z) (t : channel_tables)
    (partner operation mode : Z)
  : outcome (list (option channel_handle) * channel_tables) :=
  match todo with
  | O => Done ([], t)
  | S todo' =>
      r <- columbus_ipc_get_channel t partner operation mode
             COLUMBUS_IPC_INVALID ;;;
      let '(backup_i, t) := r in
      num <- unittest_channel2num t backup_i ;;;
      IPC_UNITTEST_ASSERT (num =? i) ;;;
      r <- unittest_fill todo' (i + 1) t partner operation mode ;;;
      let '(backup, t) := r in
      Done (backup_i :: backup, t)
  end.

Fixpoint unittest_put_all (backup : list (option channel_handle))
    (t : channel_tables) : outcome channel_tables :=
  match backup with
  | [] => Done t
  | backup_i :: backup' =>
      t <- unittest_put t backup_i ;;;
      unittest_put_all backup' t
  end.

Definition is_handle (channel : option channel_handle) : bool :=
  match channel with Some _ => true | None => false end.

Definition unittest_channel_operation (t : channel_tables)
  : outcome channel_tables :=
  r <- columbus_ipc_get_channel t IPC_PARTNER_RF_DSP IPC_SEND_OPERATION
         IPC_COMMUNICATION_POLL COLUMBUS_IPC_INVALID ;;;
  let '(channel, t) := r in
  IPC_UNITTEST_ASSERT (is_handle channel) ;;;
  channel_num <- unittest_channel2num t channel ;;;
  r <- columbus_ipc_get_channel t IPC_PARTNER_RF_DSP IPC_SEND_OPERATION
         IPC_COMMUNICATION_POLL channel_num ;;;
  let '(channel2, t) := r in
  IPC_UNITTEST_ASSERT (negb (is_handle channel2)) ;;;
  t <- unittest_put t channel ;;;
  r <- columbus_ipc_get_channel t IPC_PARTNER_RF_DSP IPC_SEND_OPERATION
         IPC_COMMUNICATION_POLL channel_num ;;;
  let '(channel2, t) := r in
  IPC_UNITTEST_ASSERT (is_handle channel2) ;;;
  num <- unittest_channel2num t channel2 ;;;
  IPC_UNITTEST_ASSERT (num =? channel_num) ;;;
  t <- unittest_put t channel2 ;;;
  r <- unittest_fill (Z.to_nat IPC_IRQ_CHANNEL_NUM) 0 t IPC_PARTNER_RF_DSP
         IPC_RECEIVE_OPERATION IPC_COMMUNICATION_INT ;;;
  let '(backup, t) := r in
  r <- columbus_ipc_get_channel t IPC_PARTNER_RF_DSP IPC_RECEIVE_OPERATION
         IPC_COMMUNICATION_INT COLUMBUS_IPC_INVALID ;;;
  let '(channel, t) := r in
  IPC_UNITTEST_ASSERT (negb (is_handle channel)) ;;;
  r <- columbus_ipc_get_channel t IPC_PARTNER_RF_DSP IPC_RECEIVE_OPERATION
         IPC_COMMUNICATION_POLL COLUMBUS_IPC_INVALID ;;;
  let '(channel, t) := r in
  IPC_UNITTEST_ASSERT (is_handle channel) ;;;
  t <- unittest_put t channel ;;;
  t <- unittest_put_all backup t ;;;
  r <- unittest_fill (Z.to_nat A7_RF_IPC_CHANNEL_NUM) 0 t IPC_PARTNER_RF_DSP
         IPC_RECEIVE_OPERATION IPC_COMMUNICATION_POLL ;;;
  let '(backup, t) := r in
  r <- columbus_ipc_get_channel t IPC_PARTNER_RF_DSP IPC_RECEIVE_OPERATION
         IPC_COMMUNICATION_POLL COLUMBUS_IPC_INVALID ;;;
  let '(channel, t) := r in
  IPC_UNITTEST_ASSERT (negb (is_handle channel)) ;;;
  r <- columbus_ipc_get_channel t IPC_PARTNER_RF_DSP IPC_RECEIVE_OPERATION
         IPC_COMMUNICATION_INT COLUMBUS_IPC_INVALID ;;;
  let '(channel, t) := r in
  IPC_UNITTEST_ASSERT (negb (is_handle channel)) ;;;
  unittest_put_all backup t.

End Unittest.

(** ** The ownership dump (DEBUG builds) *)

Module Status.
Import String.
Local Open Scope string_scope.
(** [static char *status[4]] of [ipc_dump_shared_ram_ownership]. *)
Definition status : list string := ["free"; "a7"; "rf-dsp"; "plc-dsp"].
(** The two fixed texts the dump logs. *)
Definition rule : string :=
  "------------------------------------------------".
Definition title : string := "Shared RAM ownership:".
End Status.

(** One [dev_info] call of the dump: a fixed text, the two raw registers
    ([%08X\t%08X]), or a page with its status name ([page %2d: %s]). *)
Inductive dump_line : Type :=
| dump_text (text : String.string)
| dump_registers (srmsel0 srmsel1 : Z)
| dump_page (page : Z) (status : String.string).

Section Dump.
Context {P : Platform}.

(** The lines [ipc_dump_shared_ram_ownership] logs, in the order of its
    [dev_info] calls; the function is empty without DEBUG. *)
Definition ipc_dump_shared_ram_ownership (io : sram_regs)
  : list dump_line :=
  if DEBUG then
    let srmsel0 := u32 (SRMSEL0 io) in
    let srmsel1 := u32 (SRMSEL1 io) in
    [dump_text Status.rule;
     dump_text Status.title;
     dump_registers srmsel0 srmsel1]
    ++
    map (fun i =>
           let ownership := Z.land (Z.shiftr srmsel0 (i * 2)) 0x3 in
           dump_page i (nth (Z.to_nat ownership) Status.status
                            String.EmptyString))
        (map Z.of_nat (seq 0 16))
    ++
    map (fun i =>
           let ownership := Z.land (Z.shiftr srmsel1 (i * 2)) 0x3 in
           dump_page (i + 16) (nth (Z.to_nat ownership) Status.status
                                   String.EmptyString))
        (map Z.of_nat (seq 0 16))
    ++
    [dump_text Status.rule]
  else [].

End Dump.

(** ** The sysfs front end *)

Definition EINVAL : Z := 22.

(** The globals behind the attribute files. *)
Record sysfs_state : Type := mk_sysfs_state {
  current_partner : Z;
  current_operation : Z;
  current_mode : Z;
  current_channel : Z;
  current_page : Z
}.

(** Their static initializers. *)
Definition sysfs_initial : sysfs_state :=
  mk_sysfs_state COLUMBUS_IPC_INVALID COLUMBUS_IPC_INVALID
                 COLUMBUS_IPC_INVALID COLUMBUS_IPC_INVALID
                 COLUMBUS_IPC_INVALID.

(** [sprintf(buf, "%d", v)]: the text left in [buf]; the return value is
    its length. *)
Definition sprintf_d (v : Z) : String.string :=
  DecimalString.NilZero.string_of_int (Z.to_int v).
Definition strlen (s : String.string) : Z := Z.of_nat (String.length s).

Definition with_tables (m : machine) (t : channel_tables) : machine :=
  mk_machine (io m) t (irq_done m) (shared_ram m) (log m).

Section Sysfs.
Context {P : Platform}.

(** In the store functions [kstrtoint] stands for the outcome of
    [kstrtoint(buf, 10, &v)]: [Some v] when it returns 0, [None] when it
    fails.  The result is the return value and the globals afterwards. *)
Definition columbus_ipc_partner_write (s : sysfs_state)
    (kstrtoint : option Z) (len : Z) : Z * sysfs_state :=
  match kstrtoint with
  | None => (- EINVAL, s)
  | Some partner =>
      if negb (partner =? IPC_PARTNER_RF_DSP)
         && negb (partner =? IPC_PARTNER_PLC_DSP)
      then (- EINVAL, s)
      else (to_int len,
            mk_sysfs_state partner (current_operation s) (current_mode s)
                           (current_channel s) (current_page s))
  end.

Definition columbus_ipc_operation_write (s : sysfs_state)
    (kstrtoint : option Z) (len : Z) : Z * sysfs_state :=
  match kstrtoint with
  | None => (- EINVAL, s)
  | Some operation =>
      if negb (operation =? IPC_SEND_OPERATION)
         && negb (operation =? IPC_RECEIVE_OPERATION)
      then (- EINVAL, s)
      else (to_int len,
            mk_sysfs_state (current_partner s) operation (current_mode s)
                           (current_channel s) (current_page s))
  end.

Definition columbus_ipc_mode_write (s : sysfs_state)
    (kstrtoint : option Z) (len : Z) : Z * sysfs_state :=
  match kstrtoint with
  | None => (- EINVAL, s)
  | Some mode =>
      if negb (mode =? IPC_COMMUNICATION_INT)
         && negb (mode =? IPC_COMMUNICATION_POLL)
      then (- EINVAL, s)
      else (to_int len,
            mk_sysfs_state (current_partner s) (current_operation s) mode
                           (current_channel s) (current_page s))
  end.

Definition columbus_ipc_channel_write (s : sysfs_state)
    (kstrtoint : option Z) (len : Z) : Z * sysfs_state :=
  match kstrtoint with
  | None => (- EINVAL, s)
  | Some channel =>
      if current_mode s =? COLUMBUS_IPC_INVALID then (- EINVAL, s)
      else if (current_mode s =? IPC_COMMUNICATION_POLL)
              && (channel >=? A7_RF_IPC_CHANNEL_NUM)
      then (- EINVAL, s)
      else if (current_mode s =? IPC_COMMUNICATION_INT)
              && (channel >=? IPC_IRQ_CHANNEL_NUM)
      then (- EINVAL, s)
      else (to_int len,
            mk_sysfs_state (current_partner s) (current_operation s)
                           (current_mode s) channel (current_page s))
  end.

Definition page_store (s : sysfs_state) (kstrtoint : option Z) (len : Z)
  : Z * sysfs_state :=
  match kstrtoint with
  | None => (- EINVAL, s)
  | Some page =>
      (to_int len,
       mk_sysfs_state (current_partner s) (current_operation s)
                      (current_mode s) (current_channel s) page)
  end.

(** The show functions return the return value and the text in [buf]. *)
Definition columbus_ipc_partner_read (s : sysfs_state)
  : outcome (Z * String.string) :=
  if (current_partner s =? IPC_PARTNER_RF_DSP)
     || (current_partner s =? IPC_PARTNER_PLC_DSP)
  then
    let buf := sprintf_d (current_partner s) in
    Done (strlen buf, buf)
  else
    let buf := sprintf_d COLUMBUS_IPC_INVALID in
    IPC_BUG (negb (current_partner s =? COLUMBUS_IPC_INVALID)) ;;;
    Done (strlen buf, buf).

Definition columbus_ipc_operation_read (s : sysfs_state)
  : outcome (Z * String.string) :=
  if (current_operation s =? IPC_SEND_OPERATION)
     || (current_operation s =? IPC_RECEIVE_OPERATION)
  then
    let buf := sprintf_d (current_operation s) in
    Done (strlen buf, buf)
  else
    let buf := sprintf_d COLUMBUS_IPC_INVALID in
    IPC_BUG (negb (current_operation s =? COLUMBUS_IPC_INVALID)) ;;;
    Done (strlen buf, buf).

Definition columbus_ipc_mode_read (s : sysfs_state)
  : outcome (Z * String.string) :=
  if (current_mode s =? IPC_COMMUNICATION_INT)
     || (current_mode s =? IPC_COMMUNICATION_POLL)
  then
    let buf := sprintf_d (current_mode s) in
    Done (strlen buf, buf)
  else
    let buf := sprintf_d COLUMBUS_IPC_INVALID in
    IPC_BUG (negb (current_mode s =? COLUMBUS_IPC_INVALID)) ;;;
    Done (strlen buf, buf).

Definition columbus_ipc_channel_read (s : sysfs_state)
  : outcome (Z * String.string) :=
  if (current_channel s >=? 0)
     && (current_channel s <? A7_RF_IPC_CHANNEL_NUM)
  then
    let buf := sprintf_d (current_channel s) in
    Done (strlen buf, buf)
  else
    IPC_BUG (negb (current_channel s =? COLUMBUS_IPC_INVALID)) ;;;
    let buf := sprintf_d (current_channel s) in
    Done (strlen buf, buf).

(** [src] holds [src_size] bytes to send; [flag_reads] is what the partner
    makes the flag register read while the send waits. *)
Definition columbus_ipc_message_write (m : machine) (s : sysfs_state)
    (src : list Z) (src_size : Z) (flag_reads : list Z)
  : outcome (Z * machine) :=
  r <- columbus_ipc_get_channel (tables m) (current_partner s)
         (current_operation s) (current_mode s) (current_channel s) ;;;
  let '(handle, t) := r in
  let m := with_tables m t in
  match handle with
  | None => Done (- EINVAL, m)
  | Some handle =>
      r <- columbus_ipc_send_message m handle src src_size (current_page s)
             flag_reads ;;;
      let '(retval, m) := r in
      t <- columbus_ipc_put_channel (tables m) handle ;;;
      Done (retval, with_tables m t)
  end.

(** The result is the return value, what was stored into the caller's
    buffer [src] of [src_size] bytes ([None] when nothing was), and the
    machine afterwards.  The return value of
    [columbus_ipc_receive_message] is not looked at: using [msg] and [len]
    when the call left them unassigned, or copying from an indeterminate
    pointer or past the end of [src], is [Stray]. *)
Definition columbus_ipc_message_read (m : machine) (s : sysfs_state)
    (src_off src_size : Z) (env : receive_input)
  : outcome (Z * option (list (option Z)) * machine) :=
  if negb (src_off =? 0) then Done (0, None, m)
  else
    r <- columbus_ipc_get_channel (tables m) (current_partner s)
           (current_operation s) (current_mode s) (current_channel s) ;;;
    let '(handle, t) := r in
    let m := with_tables m t in
    match handle with
    | None => Done (- EINVAL, None, m)
    | Some handle =>
        r <- columbus_ipc_receive_message m handle env ;;;
        let '(received, m) := r in
        match out received with
        | None => Stray
        | Some (Indeterminate, _) => Stray
        | Some (Buffer msg, len) =>
            IPC_BUG (len >? src_size) ;;;
            (* memcpy(src, msg, len); kfree(msg); *)
            if len >? src_size then Stray
            else
              t <- columbus_ipc_put_channel (tables m) handle ;;;
              Done (to_int len, Some msg, with_tables m t)
        end
    end.

End Sysfs.

(** ** Vocabulary of the properties *)

(** The two-bit field of page [p], read straight off the registers. *)
Definition page_bits (io : sram_regs) (p : Z) : Z :=
  let status := u32 (if p <? 16 then SRMSEL0 io else SRMSEL1 io) in
  Z.land (Z.shiftr status (2 * (p mod 16))) 0x3.

Definition owner (io : sram_regs) (p : Z) : ownership :=
  ownership_of_bits (page_bits io p).

(** Pages [s .. s+n-1] exist and their fields all read free. *)
Definition free_span (io : sram_regs) (s n : Z) : Prop :=
  0 <= s /\ s + n <= 32 /\ forall j, s <= j < s + n -> owner io j = ownership_free.

(** Registers with the field of page [p] replaced by [v]. *)
Definition set_field (r bit_position v : Z) : Z :=
  Z.lor (Z.ldiff r (Z.shiftl 0x3 (2 * bit_position)))
        (Z.shiftl v (2 * bit_position)).

Definition set_page_field (io : sram_regs) (p v : Z) : sram_regs :=
  if p <? 16 then mk_sram_regs (set_field (SRMSEL0 io) p v) (SRMSEL1 io)
  else mk_sram_regs (SRMSEL0 io) (set_field (SRMSEL1 io) (p - 16) v).

(** All pages free except the listed ones, which the A7 owns. *)
Definition occupied (pages : list Z) : sram_regs :=
  fold_left (fun io p => set_page_field io p (ownership_to_Z ownership_a7))
            pages (mk_sram_regs 0 0).

(** Modelled from the spec: the ownership controller behind the per-page
    request registers, which is hardware and not part of the source.  A
    request word carries the target state in its low two bits.  A request
    for a free page, and the release of a page the A7 owns, change that
    page's field to the target and nothing else; any other request is
    ignored. *)
Definition granting_ctrl (io : sram_regs) (page_num word : Z) : sram_regs :=
  let target := Z.land word 0x3 in
  let current := owner io page_num in
  if (0 <=? page_num) && (page_num <? 32)
     && (ownership_eqb current ownership_free
         || (ownership_eqb current ownership_a7 && (target =? 0)))
  then set_page_field io page_num target
  else io.

(** A controller that never grants anything. *)
Definition deaf_ctrl (io : sram_regs) (page_num word : Z) : sram_regs := io.

(** A DEBUG and a production build on a board whose shared RAM is mapped at
    0xC8800000 (physical 0x40200000), with sample values for the constants
    of the missing header. *)
Definition bench_debug : Platform :=
  {| DEBUG := true; A7_REQ_KEY := 0xA; IPC_DATA_READ := 1;
     IPC_END_MSG := 0xFFFF; sram := 0xC8800000; sram_phy := 0x40200000;
     sram_ctrl := granting_ctrl |}.

Definition bench : Platform :=
  {| DEBUG := false; A7_REQ_KEY := 0xA; IPC_DATA_READ := 1;
     IPC_END_MSG := 0xFFFF; sram := 0xC8800000; sram_phy := 0x40200000;
     sram_ctrl := granting_ctrl |}.

Definition bench_deaf : Platform :=
  {| DEBUG := false; A7_REQ_KEY := 0xA; IPC_DATA_READ := 1;
     IPC_END_MSG := 0xFFFF; sram := 0xC8800000; sram_phy := 0x40200000;
     sram_ctrl := deaf_ctrl |}.

Section Vocabulary.
Context {P : Platform}.

Definition page_is (io : sram_regs) (p : Z) (o : ownership) : Prop :=
  get_sram_page_ownership io p = Done o.

(** Pages [s .. s+n-1] exist and are all free. *)
Definition free_run (io : sram_regs) (s n : Z) : Prop :=
  0 <= s /\ s + n <= SHARED_RAM_PAGE_NUM /\
  forall j, s <= j < s + n -> page_is io j ownership_free.

Definition lowest_free_run (io : sram_regs) (s n : Z) : Prop :=
  free_run io s n /\ forall s', free_run io s' n -> s <= s'.

(** The 32-entry ownership vector, as the driver reads it. *)
Definition ownership_vector (io : sram_regs) : list (outcome ownership) :=
  map (fun k => get_sram_page_ownership io (Z.of_nat k)) (seq 0 32).

(** The request words of [grab_one_sram_page] and [release_one_sram_page]. *)
Definition grab_word : Z :=
  u32 (Z.lor (Z.shiftl A7_REQ_KEY 4) (ownership_to_Z ownership_a7)).
Definition release_word : Z :=
  u32 (Z.lor (Z.shiftl A7_REQ_KEY 4) (ownership_to_Z ownership_free)).

(** [probe] mapped the 32K window at a page-aligned address inside the
    32-bit address space. *)
Definition sram_mapped : Prop :=
  0 < sram /\ sram + COLUMBUS_IPC_SRAM_SIZE <= 2 ^ 32
  /\ sram mod COLUMBUS_IPC_PAGE_SIZE = 0.

(** What the properties below ask of the controller. *)
Definition ctrl_local : Prop :=
  forall io p w q, 0 <= p < 32 -> 0 <= q < 32 -> q <> p ->
    owner (sram_ctrl io p w) q = owner io q.
Definition ctrl_grants : Prop :=
  forall io p, 0 <= p < 32 -> owner io p = ownership_free ->
    owner (sram_ctrl io p grab_word) p = ownership_a7.
Definition ctrl_releases : Prop :=
  forall io p, 0 <= p < 32 -> owner io p = ownership_a7 ->
    owner (sram_ctrl io p release_word) p = ownership_free.

(** The registers after a release request for each of the pages
    [pn .. pn+n-1], in ascending order. *)
Definition release_requests (io : sram_regs) (pn : Z) (n : nat) : sram_regs :=
  fold_left (fun io k => sram_ctrl io (pn + Z.of_nat k) release_word)
            (seq 0 n) io.

End Vocabulary.

(** *** Channel tables *)

(** The tables as the loader leaves them: static storage, all zero. *)
Definition zero_channel : ipc_channel := mk_ipc_channel 0 0 0 0 0 0.
Definition initial_tables : channel_tables :=
  mk_tables (repeat zero_channel 16) (repeat zero_channel 16).

Definition tables_wf (t : channel_tables) : Prop :=
  length (ipc_rf_channel t) = 16%nat /\ length (ipc_plc_channel t) = 16%nat.

(** Slot [i] exists and its [used] flag is, or is not, IPC_CHANNEL_UNUSED. *)
Definition slot_unused (channels : list ipc_channel) (i : Z) : Prop :=
  0 <= i /\ exists c, channels !! Z.to_nat i = Some c
                      /\ used c = IPC_CHANNEL_UNUSED.
Definition slot_occupied (channels : list ipc_channel) (i : Z) : Prop :=
  0 <= i /\ exists c, channels !! Z.to_nat i = Some c
                      /\ used c <> IPC_CHANNEL_UNUSED.

(** The table [get_channels] picks for a valid partner, and the number of
    slots [get_max_channel] opens to a valid mode. *)
Definition table_for (partner : Z) : channel_table :=
  if partner =? IPC_PARTNER_RF_DSP then rf_table else plc_table.
Definition slots_for (mode : Z) : Z :=
  if mode =? IPC_COMMUNICATION_INT then IPC_IRQ_CHANNEL_NUM
  else A7_RF_IPC_CHANNEL_NUM.

(** The slot a successful [columbus_ipc_get_channel] leaves behind. *)
Definition stamped (partner operation mode : Z) : ipc_channel :=
  mk_ipc_channel COLUMBUS_IPC_REQ_MAGIC_1 IPC_CHANNEL_USED partner operation
                 mode COLUMBUS_IPC_REQ_MAGIC_2.

Definition handle_eq_dec (a b : channel_handle) : {a = b} + {a <> b}.
Proof.
  destruct a as [ta sa], b as [tb sb].
  destruct (Z.eq_dec sa sb) as [-> | Hs]; [| right; congruence].
  destruct ta, tb; (left; reflexivity) || (right; congruence).
Defined.

Section Clients.
Context {P : Platform}.

(** The table states clients can bring about, with the handles they hold:
    handles are obtained from [columbus_ipc_get_channel] and given back,
    once, to [columbus_ipc_put_channel]. *)
Inductive reachable : channel_tables -> list channel_handle -> Prop :=
| reach_initial : reachable initial_tables []
| reach_get (t t' : channel_tables) (live : list channel_handle)
    (partner operation mode appointed_channel : Z) (h : channel_handle) :
    reachable t live ->
    columbus_ipc_get_channel t partner operation mode appointed_channel
    = Done (Some h, t') ->
    reachable t' (h :: live)
| reach_get_none (t t' : channel_tables) (live : list channel_handle)
    (partner operation mode appointed_channel : Z) :
    reachable t live ->
    columbus_ipc_get_channel t partner operation mode appointed_channel
    = Done (None, t') ->
    reachable t' live
| reach_put (t t' : channel_tables) (live : list channel_handle)
    (h : channel_handle) :
    reachable t live -> In h live ->
    columbus_ipc_put_channel t h = Done t' ->
    reachable t' (remove handle_eq_dec h live).

(** The same without the discipline: any call of either function that
    returns, with any arguments.  The list holds the handles handed out and
    not given back since, whoever gave them back. *)
Inductive driven : channel_tables -> list channel_handle -> Prop :=
| driven_initial : driven initial_tables []
| driven_get (t t' : channel_tables) (live : list channel_handle)
    (partner operation mode appointed_channel : Z) (h : channel_handle) :
    driven t live ->
    columbus_ipc_get_channel t partner operation mode appointed_channel
    = Done (Some h, t') ->
    driven t' (h :: live)
| driven_get_none (t t' : channel_tables) (live : list channel_handle)
    (partner operation mode appointed_channel : Z) :
    driven t live ->
    columbus_ipc_get_channel t partner operation mode appointed_channel
    = Done (None, t') ->
    driven t' live
| driven_put (t t' : channel_tables) (live : list channel_handle)
    (h : channel_handle) :
    driven t live ->
    columbus_ipc_put_channel t h = Done t' ->
    driven t' (remove handle_eq_dec h live).

(** [n] successive calls
    [columbus_ipc_get_channel(partner, operation, mode, COLUMBUS_IPC_INVALID)];
    the handles are listed in call order. *)
Fixpoint get_channels_in_a_row (n : nat) (t : channel_tables)
    (partner operation mode : Z)
  : outcome (list (option channel_handle) * channel_tables) :=
  match n with
  | O => Done ([], t)
  | S n' =>
      r <- columbus_ipc_get_channel t partner operation mode
             COLUMBUS_IPC_INVALID ;;;
      let '(h, t) := r in
      r <- get_channels_in_a_row n' t partner operation mode ;;;
      let '(hs, t) := r in
      Done (h :: hs, t)
  end.

End Clients.

(** *** Handles and the mailbox *)

Section Handles.
Context {P : Platform}.

(** A handle as [columbus_ipc_get_channel] hands it out and before it is
    put back: it points to a used slot stamped with the partner of its
    table, a direction and a wait mode, inside the range of that mode. *)
Definition handle_live (t : channel_tables) (h : channel_handle) : Prop :=
  exists c,
    deref t h = Done c
    /\ used c = IPC_CHANNEL_USED
    /\ (partner c = IPC_PARTNER_RF_DSP \/ partner c = IPC_PARTNER_PLC_DSP)
    /\ h_table h = table_for (partner c)
    /\ (operation c = IPC_SEND_OPERATION \/ operation c = IPC_RECEIVE_OPERATION)
    /\ (mode c = IPC_COMMUNICATION_INT \/ mode c = IPC_COMMUNICATION_POLL)
    /\ h_slot h < slots_for (mode c).

(** The inbound header passes the three assertions of the retrieval: the
    address lies page-aligned in the partner's view of the window and the
    length does not exceed the window. *)
Definition header_ok (c : ipc_channel) (env : receive_input) : Prop :=
  let view := if partner c =? IPC_PARTNER_RF_DSP
              then COLUMBUS_SRAM_RF_VIEW else COLUMBUS_SRAM_PLC_VIEW in
  view <= u32 (in_address env) < view + COLUMBUS_IPC_SRAM_SIZE
  /\ u32 (in_address env) mod COLUMBUS_IPC_PAGE_SIZE = 0
  /\ u32 (in_data0 env) <= COLUMBUS_IPC_SRAM_SIZE.

Definition phys_mapped : Prop :=
  0 <= sram_phy /\ sram_phy + COLUMBUS_IPC_SRAM_SIZE <= 2 ^ 32.

(** The address [receive_retrieve] copies from. *)
Definition message_source (c : ipc_channel) (env : receive_input) : Z :=
  let view := if partner c =? IPC_PARTNER_RF_DSP
              then COLUMBUS_SRAM_RF_VIEW else COLUMBUS_SRAM_PLC_VIEW in
  u32 (sram + (u32 (sram_phy + u32 (u32 (in_address env) - view)) - sram_phy)).

(** Interrupt line [line] belongs to slot [line_channel line] of table
    [line_table line] and is acknowledged on [line_ack line]: 0-7 is for RF
    DSP, 8-15 is for PLC DSP. *)
Definition line_table (line : Z) : channel_table :=
  if line <? IPC_IRQ_CHANNEL_NUM then rf_table else plc_table.
Definition line_channel (line : Z) : Z :=
  if line <? IPC_IRQ_CHANNEL_NUM then line else line - IPC_IRQ_CHANNEL_NUM.
Definition line_ack (line : Z) : reg :=
  if line <? IPC_IRQ_CHANNEL_NUM then RFTOA7IPCACK else PLCTOA7IPCACK.

(** The slot behind [line] is [c], in use in interrupt mode by the partner
    of its table: what the handler asserts under DEBUG. *)
Definition line_armed (t : channel_tables) (line : Z) (c : ipc_channel)
  : Prop :=
  slot_read (table_of t (line_table line)) (line_channel line) = Done c
  /\ used c = IPC_CHANNEL_USED
  /\ mode c = IPC_COMMUNICATION_INT
  /\ partner c = (if line <? IPC_IRQ_CHANNEL_NUM
                  then IPC_PARTNER_RF_DSP else IPC_PARTNER_PLC_DSP)
  /\ (operation c = IPC_SEND_OPERATION \/ operation c = IPC_RECEIVE_OPERATION).

(** The machine after the first step of [columbus_ipc_receive_message]. *)
Definition acked (m : machine) (c : ipc_channel) (channel_num : Z) : machine :=
  if partner c =? IPC_PARTNER_RF_DSP
  then iowrite32 m (Z.shiftl 1 channel_num) RFTOA7IPCACK
  else iowrite32 m (Z.shiftl 1 channel_num) PLCTOA7IPCACK.

(** The header carries the end-of-message marker. *)
Definition end_marked (env : receive_input) : Prop :=
  Z.shiftr (u32 (in_data1 env)) 16 = u32 IPC_END_MSG.

End Handles.

(** A machine with everything idle: all pages free, both tables empty, no
    completion pending, zeroed shared RAM, nothing logged. *)
Definition idle_machine : machine :=
  mk_machine (mk_sram_regs 0 0) initial_tables (repeat 0 16) (fun _ => 0) [].

(** The idle machine after a client acquired slot [i] of a table. *)
Definition machine_with (which : channel_table) (i : nat)
    (partner operation mode : Z) : machine :=
  mk_machine (mk_sram_regs 0 0)
             (set_table initial_tables which
                (<[i := stamped partner operation mode]>
                   (table_of initial_tables which)))
             (repeat 0 16) (fun _ => 0) [].

(** A poll-mode receive on RF slot 1: the status register shows the
    channel's bit at the second read; the header advertises 3 bytes in page
    1 of the RF view, with or without the marker in [data1]. *)
Definition sample_input (data1 : Z) : receive_input :=
  mk_receive_input false [0; 2] 1 (COLUMBUS_SRAM_RF_VIEW + 0x400) 3 data1 true.

Definition sample_receiver : machine :=
  with_shared_ram
    (machine_with rf_table 1 IPC_PARTNER_RF_DSP IPC_RECEIVE_OPERATION
                  IPC_COMMUNICATION_POLL)
    (fun a => a mod 251).

(** *** The front end and the dump *)

(** The name the dump prints for an owner. *)
Definition status_name (o : ownership) : String.string :=
  nth (Z.to_nat (ownership_to_Z o)) Status.status String.EmptyString.

(** One write to an attribute file, with what [kstrtoint] made of the
    text. *)
Inductive attr_write : Type :=
| write_partner (kstrtoint : option Z)
| write_operation (kstrtoint : option Z)
| write_mode (kstrtoint : option Z)
| write_channel (kstrtoint : option Z)
| write_page (kstrtoint : option Z).

Definition do_attr_write (s : sysfs_state) (w : attr_write) (len : Z)
  : Z * sysfs_state :=
  match w with
  | write_partner k => columbus_ipc_partner_write s k len
  | write_operation k => columbus_ipc_operation_write s k len
  | write_mode k => columbus_ipc_mode_write s k len
  | write_channel k => columbus_ipc_channel_write s k len
  | write_page k => page_store s k len
  end.

(** The globals after a series of writes, each of [len] bytes. *)
Definition after_writes (s : sysfs_state) (ws : list attr_write) (len : Z)
  : sysfs_state :=
  fold_left (fun s w => snd (do_attr_write s w len)) ws s.

(** * Properties *)

(** ** Decoding the status registers *)

Lemma u32_range (z : Z) : 0 <= u32 z < 2 ^ 32.
Proof. unfold u32. apply Z.mod_pos_bound. lia. Qed.

Lemma IPC_BUG_false {P : Platform} : IPC_BUG false = Done tt.
Proof. unfold IPC_BUG. now rewrite andb_false_r. Qed.

Lemma get_sram_page_ownership_owner {P : Platform} (io : sram_regs) (p : Z) :
  0 <= p < 32 -> get_sram_page_ownership io p = Done (owner io p).
Proof.
  intros Hp. unfold get_sram_page_ownership, SHARED_RAM_PAGE_NUM.
  replace (p <? 0) with false by lia.
  replace (p >=? 32) with false by lia.
  rewrite IPC_BUG_false. cbn [obind].
  rewrite Z.quot_div_nonneg, Z.rem_mod_nonneg by lia.
  assert (Hm : 0 <= p mod 16 < 16) by (apply Z.mod_pos_bound; lia).
  replace (p mod 16 <? 0) with false by lia.
  rewrite Z.shiftl_mul_pow2 by lia.
  replace (p mod 16 * 2 ^ 1) with (2 * (p mod 16)) by lia.
  unfold owner, page_bits, ioread32_srmsel.
  destruct (Z.ltb_spec p 16).
  - rewrite Z.div_small by lia. reflexivity.
  - replace (p / 16) with 1 by (apply Z.div_unique with (r := p - 16); lia).
    reflexivity.
Qed.

Lemma testbit_u32_high (z n : Z) : 32 <= n -> Z.testbit (u32 z) n = false.
Proof.
  intros Hn. unfold u32. rewrite Z.mod_pow2_bits_high; [reflexivity | lia].
Qed.

(** The 64-bit value built by [find_consecutive_free_sram_pages] holds the
    same two-bit fields as the two registers. *)
Lemma status64_field (io : sram_regs) (i : Z) :
  0 <= i < 32 ->
  Z.land (Z.shiftr (Z.lor (u64 (Z.shiftl (u32 (SRMSEL1 io)) 32))
                          (u32 (SRMSEL0 io))) (i * 2)) 0x3
  = page_bits io i.
Proof.
  intros Hi. unfold page_bits.
  apply Z.bits_inj'. intros b Hb.
  rewrite !Z.land_spec, !Z.shiftr_spec by lia.
  destruct (Z.ltb_spec b 2) as [Hb2 | Hb2].
  2:{ replace (Z.testbit 3 b) with false; [now rewrite !andb_false_r |].
      symmetry. apply (Z.bits_above_log2 3 b); [lia |]. cbn. lia. }
  f_equal.
  rewrite Z.lor_spec. unfold u64.
  rewrite Z.mod_pow2_bits_low by lia.
  rewrite Z.shiftl_spec by lia.
  destruct (Z.ltb_spec i 16) as [Hlt | Hge].
  - rewrite Z.mod_small by lia.
    rewrite (Z.testbit_neg_r _ (b + i * 2 - 32)) by lia.
    cbn [orb]. f_equal. lia.
  - rewrite (testbit_u32_high (SRMSEL0 io)) by lia.
    rewrite orb_false_r. f_equal.
    assert (Hm : i mod 16 = i - 16).
    { symmetry. apply Z.mod_unique with (q := 1); lia. }
    rewrite Hm. lia.
Qed.

(** ** Finding a run of free pages *)

Lemma ownership_eqb_eq (a b : ownership) : ownership_eqb a b = true <-> a = b.
Proof.
  unfold ownership_eqb. rewrite Z.eqb_eq.
  split; [| now intros ->]. destruct a, b; cbn; intros H; congruence.
Qed.

Lemma ownership_eqb_neq (a b : ownership) : ownership_eqb a b = false <-> a <> b.
Proof.
  rewrite <- ownership_eqb_eq. destruct (ownership_eqb a b); split; congruence.
Qed.

Lemma free_run_span {P : Platform} (io : sram_regs) (s n : Z) :
  free_run io s n <-> free_span io s n.
Proof.
  unfold free_run, free_span, page_is, SHARED_RAM_PAGE_NUM.
  split; intros (H0 & H1 & H2); repeat split; try lia; intros j Hj.
  - specialize (H2 j Hj). rewrite get_sram_page_ownership_owner in H2 by lia.
    congruence.
  - rewrite get_sram_page_ownership_owner by lia. now rewrite H2.
Qed.

Section FindLoop.
Variable io : sram_regs.
Variable st n : Z.
Hypothesis st_fields :
  forall i, 0 <= i < 32 -> Z.land (Z.shiftr st (i * 2)) 0x3 = page_bits io i.
Hypothesis n_pos : 1 <= n.

(** The invariant of the scan: [count] free pages end just before [i], and
    no run of [n] free pages starts before them. *)
Lemma find_loop_inv (todo : nat) :
  forall i count start,
    Z.of_nat todo = 32 - i -> 0 <= count < n -> count <= i ->
    start = (if count =? 0 then -1 else i - count) ->
    (forall j, i - count <= j < i -> owner io j = ownership_free) ->
    (forall s, s < i - count -> ~ free_span io s n) ->
    let '(count', start') := find_loop todo st n i count start in
    (count' = n /\ free_span io start' n /\
     forall s, s < start' -> ~ free_span io s n)
    \/ (count' < n /\ forall s, ~ free_span io s n).
Proof.
  induction todo as [| todo IH]; intros i count start Htodo Hc Hci Hstart Hfree Hnone.
  - cbn [find_loop]. right. split; [lia |].
    intros s. destruct (Z.ltb_spec s (i - count)) as [Hs | Hs].
    + now apply Hnone.
    + intros (_ & Hfit & _). lia.
  - cbn [find_loop].
    assert (Hi : 0 <= i < 32) by lia.
    rewrite st_fields by exact Hi. fold (owner io i).
    destruct (ownership_eqb (owner io i) ownership_free) eqn:Hpage.
    + apply ownership_eqb_eq in Hpage.
      assert (Hstart' : (if start =? -1 then i else start) = i + 1 - (count + 1)).
      { subst start. destruct (Z.eqb_spec count 0) as [-> | Hne].
        - cbn. lia.
        - replace (i - count =? -1) with false by lia. lia. }
      rewrite Hstart'.
      assert (Hfree' : forall j, i + 1 - (count + 1) <= j < i + 1 ->
                                 owner io j = ownership_free).
      { intros j Hj. destruct (Z.eq_dec j i) as [-> | Hji]; [exact Hpage |].
        apply Hfree. lia. }
      destruct (Z.geb_spec (count + 1) n) as [Hfull | Hshort].
      * left. split; [lia |]. split.
        -- repeat split; try lia. intros j Hj. apply Hfree'. lia.
        -- intros s Hs. apply Hnone. lia.
      * apply IH; try lia.
        -- replace (count + 1 =? 0) with false by lia. reflexivity.
        -- exact Hfree'.
        -- intros s Hs. apply Hnone. lia.
    + apply ownership_eqb_neq in Hpage.
      apply IH; try lia.
      * reflexivity.
      * intros s Hs. destruct (Z.ltb_spec s (i - count)) as [Hlt | Hge].
        -- now apply Hnone.
        -- intros (_ & _ & Hall). apply Hpage, Hall. lia.
Qed.

End FindLoop.

(** The search either returns the lowest start of a run of [n] free pages
    or reports that there is none, leaving [*page_num] alone. *)
Lemma find_consecutive_free_sram_pages_spec {P : Platform}
    (io : sram_regs) (n pn : Z) :
  1 <= n <= 32 ->
  (exists s, find_consecutive_free_sram_pages io n pn = Done (1, s)
             /\ lowest_free_run io s n)
  \/ (find_consecutive_free_sram_pages io n pn = Done (0, pn)
      /\ forall s, ~ free_run io s n).
Proof.
  intros Hn. unfold find_consecutive_free_sram_pages.
  pose proof (find_loop_inv io _ n (status64_field io) (proj1 Hn) 32 0 0 (-1)) as H.
  destruct (find_loop 32 _ n 0 0 (-1)) as [count start].
  destruct H as [(Hc & Hrun & Hlow) | (Hc & Hnone)];
    try lia; try reflexivity; try (intros; lia).
  - intros s Hs (H0 & _). lia.
  - left. exists start. subst count. rewrite Z.eqb_refl.
    destruct Hrun as (H0 & H1 & H2).
    replace (start =? -1) with false by lia.
    replace (start >? 32 - n) with false by lia.
    rewrite IPC_BUG_false. cbn [obind]. split; [reflexivity |].
    split.
    + apply free_run_span. repeat split; assumption.
    + intros s' Hs'. apply free_run_span in Hs'.
      destruct (Z.le_gt_cases start s') as [Hle | Hgt]; [exact Hle |].
      exfalso. apply (Hlow s'); [lia | exact Hs'].
  - right. replace (count =? n) with false by lia. split; [reflexivity |].
    intros s Hs. apply free_run_span in Hs. now apply (Hnone s).
Qed.

Lemma lowest_free_run_found {P : Platform}
    (io : sram_regs) (n pn s : Z) :
  1 <= n <= 32 -> lowest_free_run io s n ->
  find_consecutive_free_sram_pages io n pn = Done (1, s).
Proof.
  intros Hn Hlow.
  destruct (find_consecutive_free_sram_pages_spec io n pn Hn)
    as [(s' & Hs' & Hlow') | (_ & Hnone)].
  - rewrite Hs'. do 2 f_equal.
    destruct Hlow as [Hr Hm], Hlow' as [Hr' Hm'].
    specialize (Hm _ Hr'). specialize (Hm' _ Hr). lia.
  - exfalso. apply (Hnone s), Hlow.
Qed.

Example occupied_vector :
  map (owner (occupied [2; 6; 11; 17; 24])) (map Z.of_nat (seq 0 32))
  = map (fun p => if existsb (Z.eqb p) [2; 6; 11; 17; 24]
                  then ownership_a7 else ownership_free)
        (map Z.of_nat (seq 0 32)).
Proof. vm_compute. reflexivity. Qed.

(** C1.  For every content of the ownership registers and every [n] in
    [1, 32], [find_consecutive_free_sram_pages] returns 1 with the lowest
    start index of a run of [n] consecutive free pages when such a run
    exists, and returns 0 (leaving the out-parameter alone) exactly when
    none exists.  With pages 2, 6, 11, 17 and 24 occupied it finds start 18
    for 6 pages; with page 24 free again it finds start 18 for 14 pages and
    nothing for 15. *)
Theorem find_consecutive_free_returns_lowest_run {P : Platform}
    (io : sram_regs) (n pn : Z) :
  1 <= n <= 32 ->
  (forall s, find_consecutive_free_sram_pages io n pn = Done (1, s)
             <-> lowest_free_run io s n)
  /\ (find_consecutive_free_sram_pages io n pn = Done (0, pn)
      <-> forall s, ~ free_run io s n)
  /\ ((exists s, find_consecutive_free_sram_pages io n pn = Done (1, s))
      \/ find_consecutive_free_sram_pages io n pn = Done (0, pn))
  /\ find_consecutive_free_sram_pages (occupied [2; 6; 11; 17; 24]) 6 pn
     = Done (1, 18)
  /\ find_consecutive_free_sram_pages (occupied [2; 6; 11; 17]) 14 pn
     = Done (1, 18)
  /\ find_consecutive_free_sram_pages (occupied [2; 6; 11; 17]) 15 pn
     = Done (0, pn).
Proof.
  intros Hn.
  pose proof (find_consecutive_free_sram_pages_spec io n pn Hn) as Hspec.
  split; [| split; [| split]].
  - intros s. split.
    + intros Hret. destruct Hspec as [(s' & Hs' & Hlow) | (Hs' & _)].
      * rewrite Hs' in Hret. congruence.
      * rewrite Hs' in Hret. congruence.
    + intros Hlow. destruct Hspec as [(s' & Hs' & Hlow') | (_ & Hnone)].
      * rewrite Hs'. do 2 f_equal.
        destruct Hlow as [Hr Hm], Hlow' as [Hr' Hm'].
        specialize (Hm _ Hr'). specialize (Hm' _ Hr). lia.
      * exfalso. apply (Hnone s), Hlow.
  - split.
    + intros Hret. destruct Hspec as [(s' & Hs' & _) | (_ & Hnone)].
      * rewrite Hs' in Hret. congruence.
      * exact Hnone.
    + intros Hnone. destruct Hspec as [(s' & _ & (Hr & _)) | (Hs' & _)].
      * exfalso. apply (Hnone s'), Hr.
      * exact Hs'.
  - destruct Hspec as [(s' & Hs' & _) | (Hs' & _)]; [left; eauto | now right].
  - destruct P as [dbg ? ? ? ? ? ?].
    repeat split; destruct dbg; vm_compute; reflexivity.
Qed.

Lemma find_consecutive_free_returns_lowest_run_witness :
  1 <= 6 <= 32 /\
  @find_consecutive_free_sram_pages bench_debug
    (occupied [2; 6; 11; 17; 24]) 6 (-1) = Done (1, 18) /\
  @lowest_free_run bench_debug (occupied [2; 6; 11; 17; 24]) 18 6.
Proof.
  assert (H : 1 <= 6 <= 32) by lia.
  pose proof (@find_consecutive_free_returns_lowest_run bench_debug
                (occupied [2; 6; 11; 17; 24]) 6 (-1) H) as (Hiff & _ & _ & Hex & _).
  split; [exact H |]. split; [exact Hex |]. apply Hiff. exact Hex.
Defined.

(** ** Grabbing and releasing one page *)

Lemma IPC_BUG_Done {P : Platform} (cond : bool) :
  IPC_BUG cond = Done tt <-> DEBUG && cond = false.
Proof.
  unfold IPC_BUG. destruct (DEBUG && cond); split; congruence.
Qed.

Lemma IPC_BUG_cases {P : Platform} (cond : bool) :
  (IPC_BUG cond = Done tt /\ DEBUG && cond = false)
  \/ (IPC_BUG cond = Bug /\ DEBUG = true /\ cond = true).
Proof.
  unfold IPC_BUG. destruct DEBUG, cond; cbn; auto.
Qed.

Lemma grab_one_sram_page_eq {P : Platform} (io : sram_regs) (p : Z) :
  0 <= p < 32 ->
  grab_one_sram_page io p =
  if negb (ownership_eqb (owner io p) ownership_free) then Done (0, io)
  else if negb (ownership_eqb (owner (sram_ctrl io p grab_word) p) ownership_a7)
       then Done (0, sram_ctrl io p grab_word)
       else Done (1, sram_ctrl io p grab_word).
Proof.
  intros Hp. unfold grab_one_sram_page, iowrite32_req.
  rewrite get_sram_page_ownership_owner by exact Hp. cbn [obind].
  destruct (negb (ownership_eqb (owner io p) ownership_free)); [reflexivity |].
  fold grab_word.
  rewrite get_sram_page_ownership_owner by exact Hp. reflexivity.
Qed.

Lemma release_one_sram_page_eq {P : Platform} (io : sram_regs) (p : Z) :
  0 <= p < 32 ->
  release_one_sram_page io p =
  (IPC_BUG (negb (ownership_eqb (owner io p) ownership_a7)) ;;;
   IPC_BUG (negb (ownership_eqb (owner (sram_ctrl io p release_word) p)
                                ownership_free)) ;;;
   Done (sram_ctrl io p release_word)).
Proof.
  intros Hp. unfold release_one_sram_page, iowrite32_req.
  rewrite get_sram_page_ownership_owner by exact Hp. cbn [obind].
  fold release_word.
  destruct (IPC_BUG (negb (ownership_eqb (owner io p) ownership_a7)));
    cbn [obind]; try reflexivity.
  rewrite get_sram_page_ownership_owner by exact Hp. reflexivity.
Qed.

Lemma page_is_owner {P : Platform} (io : sram_regs) (p : Z) (o : ownership) :
  0 <= p < 32 -> (page_is io p o <-> owner io p = o).
Proof.
  intros Hp. unfold page_is. rewrite get_sram_page_ownership_owner by exact Hp.
  split; congruence.
Qed.

(** The accessor answers for the 32 pages only. *)
Lemma get_sram_page_ownership_in_range {P : Platform} (io : sram_regs)
    (p : Z) (o : ownership) :
  get_sram_page_ownership io p = Done o -> 0 <= p < 32.
Proof.
  unfold get_sram_page_ownership, ioread32_srmsel.
  do 2 (destruct (IPC_BUG _); cbn [obind]; try discriminate).
  destruct (Z.eqb_spec (Z.quot p 16) 0) as [Hq | Hq0]; cbn [obind].
  - destruct (Z.ltb_spec (Z.rem p 16) 0) as [| Hr]; [discriminate |].
    intros _. pose proof (Z.quot_rem' p 16) as Hqr.
    destruct (Z.le_gt_cases 0 p) as [Hp | Hp].
    + pose proof (Z.rem_bound_pos p 16 Hp ltac:(lia)). lia.
    + pose proof (Z.rem_bound_neg_pos p 16 ltac:(lia) ltac:(lia)). lia.
  - destruct (Z.eqb_spec (Z.quot p 16) 1) as [Hq1 | Hq1]; cbn [obind];
      [| discriminate].
    destruct (Z.ltb_spec (Z.rem p 16) 0) as [| Hr]; [discriminate |].
    intros _. pose proof (Z.quot_rem' p 16) as Hqr.
    destruct (Z.le_gt_cases 0 p) as [Hp | Hp].
    + pose proof (Z.rem_bound_pos p 16 Hp ltac:(lia)). lia.
    + pose proof (Z.rem_bound_neg_pos p 16 ltac:(lia) ltac:(lia)). lia.
Qed.

Lemma grab_one_sram_page_in_range {P : Platform} (io : sram_regs) (p : Z)
    (r : Z * sram_regs) :
  grab_one_sram_page io p = Done r -> 0 <= p < 32.
Proof.
  unfold grab_one_sram_page.
  destruct (get_sram_page_ownership io p) as [o | | |] eqn:Hget;
    cbn [obind]; try discriminate.
  intros _. exact (get_sram_page_ownership_in_range io p o Hget).
Qed.

(** A successful grab leaves the page with the A7, whatever the controller
    did: the readback is what decides. *)
Lemma grab_one_sram_page_success {P : Platform} (io io1 : sram_regs) (p : Z) :
  0 <= p < 32 ->
  grab_one_sram_page io p = Done (1, io1) ->
  owner io p = ownership_free /\ io1 = sram_ctrl io p grab_word
  /\ owner io1 p = ownership_a7.
Proof.
  intros Hp. rewrite grab_one_sram_page_eq by exact Hp.
  destruct (ownership_eqb (owner io p) ownership_free) eqn:Hfree; cbn [negb];
    [| discriminate].
  destruct (ownership_eqb (owner (sram_ctrl io p grab_word) p) ownership_a7)
    eqn:Ha7; cbn [negb]; [| discriminate].
  intros [= <-]. apply ownership_eqb_eq in Hfree, Ha7. auto.
Qed.

(** C2.  For a page [p] in [0, 32): when [grab_one_sram_page] returns 1 the
    page is owned by the A7 afterwards, and a [release_one_sram_page] that
    follows leaves it free (it completes and frees the page when the
    controller honours releases; under DEBUG it cannot return with the page
    in any other state, whatever the controller does).  The grab returns 0
    when the page was not free beforehand, and when the readback after the
    request does not show the A7 as owner. *)
Theorem grab_release_one_sram_page_ownership {P : Platform}
    (io : sram_regs) (p : Z) :
  0 <= p < 32 ->
  (forall io1, grab_one_sram_page io p = Done (1, io1) ->
     page_is io1 p ownership_a7
     /\ (ctrl_releases ->
         exists io2, release_one_sram_page io1 p = Done io2
                     /\ page_is io2 p ownership_free)
     /\ (DEBUG = true ->
         forall io2, release_one_sram_page io1 p = Done io2 ->
                     page_is io2 p ownership_free))
  /\ (~ page_is io p ownership_free -> grab_one_sram_page io p = Done (0, io))
  /\ (page_is io p ownership_free ->
      ~ page_is (iowrite32_req io grab_word p) p ownership_a7 ->
      grab_one_sram_page io p = Done (0, iowrite32_req io grab_word p))
  /\ (page_is io p ownership_free ->
      page_is (iowrite32_req io grab_word p) p ownership_a7 ->
      grab_one_sram_page io p = Done (1, iowrite32_req io grab_word p)).
Proof.
  intros Hp. split; [| split; [| split]].
  - intros io1 Hgrab.
    destruct (grab_one_sram_page_success io io1 p Hp Hgrab) as (_ & _ & Ha7).
    split; [now apply page_is_owner | split].
    + intros Hrel. exists (sram_ctrl io1 p release_word).
      rewrite release_one_sram_page_eq by exact Hp.
      rewrite Ha7. cbn [ownership_eqb ownership_to_Z Z.eqb Pos.eqb negb].
      rewrite IPC_BUG_false. cbn [obind].
      rewrite (Hrel io1 p Hp Ha7).
      cbn [ownership_eqb ownership_to_Z Z.eqb negb].
      rewrite IPC_BUG_false. cbn [obind]. split; [reflexivity |].
      apply page_is_owner; [exact Hp |]. exact (Hrel io1 p Hp Ha7).
    + intros Hdbg io2. rewrite release_one_sram_page_eq by exact Hp.
      destruct (IPC_BUG_cases (negb (ownership_eqb (owner io1 p) ownership_a7)))
        as [(-> & _) | (-> & _)]; cbn [obind]; [| discriminate].
      destruct (IPC_BUG_cases
                  (negb (ownership_eqb (owner (sram_ctrl io1 p release_word) p)
                                       ownership_free)))
        as [(-> & Hchk) | (-> & _)]; cbn [obind]; [| discriminate].
      intros [= <-]. apply page_is_owner; [exact Hp |].
      rewrite Hdbg in Hchk. cbn [andb] in Hchk.
      apply negb_false_iff, ownership_eqb_eq in Hchk. exact Hchk.
  - intros Hnot. rewrite grab_one_sram_page_eq by exact Hp.
    rewrite page_is_owner in Hnot by exact Hp.
    apply ownership_eqb_neq in Hnot. now rewrite Hnot.
  - unfold iowrite32_req. intros Hfree Hnot.
    rewrite grab_one_sram_page_eq by exact Hp.
    rewrite page_is_owner in Hfree, Hnot by exact Hp.
    apply ownership_eqb_eq in Hfree. apply ownership_eqb_neq in Hnot.
    now rewrite Hfree, Hnot.
  - unfold iowrite32_req. intros Hfree Ha7.
    rewrite grab_one_sram_page_eq by exact Hp.
    rewrite page_is_owner in Hfree, Ha7 by exact Hp.
    apply ownership_eqb_eq in Hfree, Ha7.
    now rewrite Hfree, Ha7.
Qed.

(** ** The modelled controller *)

Lemma testbit_small (v b : Z) : 0 <= v < 4 -> 2 <= b -> Z.testbit v b = false.
Proof.
  intros Hv Hb. destruct (Z.eq_dec v 0) as [-> | Hv0].
  - apply Z.bits_0.
  - apply Z.bits_above_log2; [lia |].
    apply Z.lt_le_trans with 2; [| exact Hb].
    apply Z.log2_lt_pow2; lia.
Qed.

Lemma testbit_3_low (b : Z) : 0 <= b < 2 -> Z.testbit 3 b = true.
Proof.
  intros Hb. assert (b = 0 \/ b = 1) as [-> | ->] by lia; reflexivity.
Qed.

Lemma testbit_set_field (r k v n : Z) :
  0 <= k -> 0 <= n ->
  Z.testbit (set_field r k v) n =
  (Z.testbit r n && negb (Z.testbit 3 (n - 2 * k))) || Z.testbit v (n - 2 * k).
Proof.
  intros Hk Hn. unfold set_field.
  rewrite Z.lor_spec, Z.ldiff_spec, !Z.shiftl_spec by lia. reflexivity.
Qed.

Lemma field_set_same (r k v : Z) :
  0 <= k < 16 -> 0 <= v < 4 ->
  Z.land (Z.shiftr (u32 (set_field r k v)) (2 * k)) 3 = v.
Proof.
  intros Hk Hv. apply Z.bits_inj'. intros b Hb.
  rewrite Z.land_spec, Z.shiftr_spec by lia.
  destruct (Z.ltb_spec b 2) as [Hlt | Hge].
  - rewrite testbit_3_low, andb_true_r by lia.
    unfold u32. rewrite Z.mod_pow2_bits_low by lia.
    rewrite testbit_set_field by lia.
    replace (b + 2 * k - 2 * k) with b by lia.
    rewrite testbit_3_low by lia. cbn [negb]. now rewrite andb_false_r.
  - rewrite (testbit_small 3 b), (testbit_small v b) by lia.
    apply andb_false_r.
Qed.

Lemma field_set_other (r k k' v : Z) :
  0 <= k < 16 -> 0 <= k' < 16 -> k' <> k -> 0 <= v < 4 ->
  Z.land (Z.shiftr (u32 (set_field r k v)) (2 * k')) 3
  = Z.land (Z.shiftr (u32 r) (2 * k')) 3.
Proof.
  intros Hk Hk' Hne Hv. apply Z.bits_inj'. intros b Hb.
  rewrite !Z.land_spec, !Z.shiftr_spec by lia.
  destruct (Z.ltb_spec b 2) as [Hlt | Hge].
  - f_equal. unfold u32. rewrite !Z.mod_pow2_bits_low by lia.
    rewrite testbit_set_field by lia.
    destruct (Z.ltb_spec k' k) as [Hlow | Hhigh].
    + rewrite !(Z.testbit_neg_r _ (b + 2 * k' - 2 * k)) by lia.
      cbn [negb]. now rewrite andb_true_r, orb_false_r.
    + rewrite (testbit_small 3), (testbit_small v) by lia.
      cbn [negb]. now rewrite andb_true_r, orb_false_r.
  - rewrite (testbit_small 3 b) by lia. now rewrite !andb_false_r.
Qed.

Lemma mod16_low (p : Z) : 0 <= p < 16 -> p mod 16 = p.
Proof. intros Hp. apply Z.mod_small. lia. Qed.

Lemma mod16_high (p : Z) : 16 <= p < 32 -> p mod 16 = p - 16.
Proof. intros Hp. symmetry. apply Z.mod_unique with (q := 1); lia. Qed.

Lemma page_bits_set_same (io : sram_regs) (p v : Z) :
  0 <= p < 32 -> 0 <= v < 4 -> page_bits (set_page_field io p v) p = v.
Proof.
  intros Hp Hv. unfold page_bits, set_page_field.
  destruct (Z.ltb_spec p 16) as [Hlt | Hge]; cbn [SRMSEL0 SRMSEL1].
  - rewrite mod16_low by lia. apply field_set_same; lia.
  - rewrite mod16_high by lia. apply field_set_same; lia.
Qed.

Lemma page_bits_set_other (io : sram_regs) (p q v : Z) :
  0 <= p < 32 -> 0 <= q < 32 -> q <> p -> 0 <= v < 4 ->
  page_bits (set_page_field io p v) q = page_bits io q.
Proof.
  intros Hp Hq Hne Hv. unfold page_bits, set_page_field.
  destruct (Z.ltb_spec p 16) as [Hlt | Hge];
    destruct (Z.ltb_spec q 16) as [Hqlt | Hqge]; cbn [SRMSEL0 SRMSEL1];
    try reflexivity.
  - rewrite (mod16_low q) by lia. apply field_set_other; lia.
  - rewrite (mod16_high q) by lia. apply field_set_other; lia.
Qed.

Lemma land_3_range (w : Z) : 0 <= Z.land w 3 < 4.
Proof.
  change 3 with (Z.ones 2). rewrite Z.land_ones by lia.
  apply Z.mod_pos_bound. lia.
Qed.

Lemma granting_ctrl_local (io : sram_regs) (p w q : Z) :
  0 <= p < 32 -> 0 <= q < 32 -> q <> p ->
  owner (granting_ctrl io p w) q = owner io q.
Proof.
  intros Hp Hq Hne. unfold granting_ctrl.
  destruct (_ && _); [| reflexivity].
  unfold owner. rewrite page_bits_set_other; auto using land_3_range.
Qed.

Lemma land_key_word (k o : Z) :
  0 <= o < 4 -> Z.land (u32 (Z.lor (Z.shiftl k 4) o)) 3 = o.
Proof.
  intros Ho. apply Z.bits_inj'. intros b Hb.
  rewrite Z.land_spec.
  destruct (Z.ltb_spec b 2) as [Hlt | Hge].
  - rewrite testbit_3_low, andb_true_r by lia.
    unfold u32. rewrite Z.mod_pow2_bits_low by lia.
    rewrite Z.lor_spec, Z.shiftl_spec by lia.
    now rewrite (Z.testbit_neg_r _ (b - 4)) by lia.
  - rewrite (testbit_small 3 b), (testbit_small o b) by lia.
    apply andb_false_r.
Qed.

Lemma granting_ctrl_grants (key : Z) (io : sram_regs) (p : Z) :
  0 <= p < 32 -> owner io p = ownership_free ->
  owner (granting_ctrl io p (u32 (Z.lor (Z.shiftl key 4) 1))) p = ownership_a7.
Proof.
  intros Hp Hfree. unfold granting_ctrl. rewrite Hfree.
  replace (0 <=? p) with true by lia. replace (p <? 32) with true by lia.
  cbn [andb orb ownership_eqb ownership_to_Z Z.eqb].
  rewrite land_key_word by lia.
  unfold owner. rewrite page_bits_set_same by lia. reflexivity.
Qed.

Lemma granting_ctrl_releases (key : Z) (io : sram_regs) (p : Z) :
  0 <= p < 32 -> owner io p = ownership_a7 ->
  owner (granting_ctrl io p (u32 (Z.lor (Z.shiftl key 4) 0))) p = ownership_free.
Proof.
  intros Hp Ha7. unfold granting_ctrl. rewrite Ha7.
  replace (0 <=? p) with true by lia. replace (p <? 32) with true by lia.
  rewrite land_key_word by lia.
  cbn [andb orb ownership_eqb ownership_to_Z Z.eqb Pos.eqb].
  unfold owner. rewrite page_bits_set_same by lia. reflexivity.
Qed.

Lemma bench_ctrl_local (dbg : bool) (key rd em s sp : Z) :
  @ctrl_local (Build_Platform dbg key rd em s sp granting_ctrl).
Proof. intros io p w q. apply granting_ctrl_local. Qed.

Lemma bench_ctrl_grants (dbg : bool) (key rd em s sp : Z) :
  @ctrl_grants (Build_Platform dbg key rd em s sp granting_ctrl).
Proof. intros io p. apply granting_ctrl_grants. Qed.

Lemma bench_ctrl_releases (dbg : bool) (key rd em s sp : Z) :
  @ctrl_releases (Build_Platform dbg key rd em s sp granting_ctrl).
Proof. intros io p. apply granting_ctrl_releases. Qed.

Lemma grab_release_one_sram_page_ownership_witness :
  0 <= 3 < 32 /\
  @grab_one_sram_page bench_debug (occupied [2; 6]) 3
  = Done (1, occupied [2; 6; 3]) /\
  @page_is bench_debug (occupied [2; 6; 3]) 3 ownership_a7 /\
  exists io2, @release_one_sram_page bench_debug (occupied [2; 6; 3]) 3 = Done io2
              /\ @page_is bench_debug io2 3 ownership_free.
Proof.
  assert (Hp : 0 <= 3 < 32) by lia.
  assert (Hgrab : @grab_one_sram_page bench_debug (occupied [2; 6]) 3
                  = Done (1, occupied [2; 6; 3])) by (vm_compute; reflexivity).
  pose proof (@grab_release_one_sram_page_ownership bench_debug
                (occupied [2; 6]) 3 Hp) as (Hok & _).
  destruct (Hok _ Hgrab) as (Ha7 & Hrel & _).
  split; [exact Hp |]. split; [exact Hgrab |]. split; [exact Ha7 |].
  apply Hrel. apply bench_ctrl_releases.
Defined.

(** With a controller that ignores the request the readback still shows a
    free page, and the grab reports failure. *)
Example grab_one_sram_page_unconfirmed :
  @grab_one_sram_page bench_deaf (occupied [2; 6]) 5
  = Done (0, occupied [2; 6]).
Proof. vm_compute. reflexivity. Qed.

(** A page that is already taken is refused without a request being made. *)
Example grab_one_sram_page_taken :
  @grab_one_sram_page bench (occupied [2; 6]) 6 = Done (0, occupied [2; 6]).
Proof. vm_compute. reflexivity. Qed.

(** ** Grabbing and releasing runs of pages *)

Section Runs.
Context {P : Platform}.
Hypothesis Hlocal : ctrl_local.

(** What one pass of the grab loop over [todo] pages leaves behind: it
    stops at the first page [pn + k] it cannot grab; the pages before it
    went from free to the A7; pages outside [pn+i .. pn+k] are untouched. *)
Lemma grab_loop_spec (todo : nat) :
  forall io pn i,
    0 <= pn + i -> pn + i + Z.of_nat todo <= 32 ->
    exists k io',
      grab_loop todo io pn i = Done (k, io')
      /\ i <= k <= i + Z.of_nat todo
      /\ (forall j, pn + i <= j < pn + k ->
                    owner io j = ownership_free /\ owner io' j = ownership_a7)
      /\ (forall q, 0 <= q < 32 -> q < pn + i \/ pn + k < q ->
                    owner io' q = owner io q)
      /\ (k < i + Z.of_nat todo ->
          ~ (owner io (pn + k) = ownership_free
             /\ owner io' (pn + k) = ownership_a7))
      /\ (k = i + Z.of_nat todo ->
          forall q, 0 <= q < 32 -> pn + k <= q -> owner io' q = owner io q).
Proof.
  induction todo as [| todo IH]; intros io pn i Hlo Hhi.
  - exists i, io. cbn [grab_loop]. repeat split; try lia; intros; lia.
  - cbn [grab_loop].
    rewrite grab_one_sram_page_eq by lia.
    destruct (ownership_eqb (owner io (pn + i)) ownership_free) eqn:Hfree;
      cbn [negb].
    2:{ exists i, io. cbn [obind Z.eqb]. apply ownership_eqb_neq in Hfree.
        repeat split; try lia; try (intros; lia).
        intros _ (Hf & _). contradiction. }
    apply ownership_eqb_eq in Hfree.
    set (io1 := sram_ctrl io (pn + i) grab_word).
    assert (Hframe : forall q, 0 <= q < 32 -> q <> pn + i ->
                               owner io1 q = owner io q).
    { intros q Hq Hne. apply Hlocal; lia. }
    destruct (ownership_eqb (owner io1 (pn + i)) ownership_a7) eqn:Ha7;
      cbn [negb obind Z.eqb Pos.eqb].
    2:{ exists i, io1. apply ownership_eqb_neq in Ha7.
        repeat split; try lia; try (intros; lia).
        - intros q Hq Hout. apply Hframe; lia.
        - intros _ (_ & Hf). contradiction. }
    apply ownership_eqb_eq in Ha7.
    destruct (IH io1 pn (i + 1)) as (k & io' & Hrun & Hk & Hin & Hout & Hfail & Hfull);
      try lia.
    exists k, io'. split; [exact Hrun |]. split; [lia |].
    split; [| split; [| split]].
    + intros j Hj. destruct (Z.eq_dec j (pn + i)) as [-> | Hne].
      * split; [exact Hfree |]. rewrite Hout by lia. exact Ha7.
      * destruct (Hin j) as (Hf & Ha); [lia |].
        split; [| exact Ha]. rewrite <- Hframe by lia. exact Hf.
    + intros q Hq Hside. rewrite Hout by lia. apply Hframe; lia.
    + intros Hk' (Hf & Ha). apply Hfail; [lia |].
      split; [| exact Ha]. rewrite Hframe by lia. exact Hf.
    + intros Hk' q Hq Hge. rewrite Hfull by lia. apply Hframe; lia.
Qed.

(** Grabbing [a + b] pages is grabbing [a] pages and, if that went through,
    [b] more. *)
Lemma grab_loop_app (a b : nat) :
  forall io pn i io_a,
    grab_loop a io pn i = Done (i + Z.of_nat a, io_a) ->
    grab_loop (a + b) io pn i = grab_loop b io_a pn (i + Z.of_nat a).
Proof.
  induction a as [| a IH]; intros io pn i io_a Hpre.
  - cbn [grab_loop] in Hpre. injection Hpre as Hi <-.
    cbn [Nat.add]. f_equal. cbn. lia.
  - cbn [grab_loop Nat.add] in *.
    destruct (grab_one_sram_page io (pn + i)) as [[grab io1] | | |];
      cbn [obind] in *; try discriminate.
    destruct (grab =? 0).
    + injection Hpre as Hi _. lia.
    + rewrite (IH io1 pn (i + 1) io_a).
      * f_equal. lia.
      * rewrite Hpre. do 2 f_equal. lia.
Qed.

(** Releasing a run the A7 owns frees exactly that run. *)
Lemma release_loop_spec (Hrel : ctrl_releases) (todo : nat) :
  forall io pn i,
    0 <= pn + i -> pn + i + Z.of_nat todo <= 32 ->
    (forall j, pn + i <= j < pn + i + Z.of_nat todo -> owner io j = ownership_a7) ->
    exists io',
      release_loop todo io pn i = Done io'
      /\ (forall j, pn + i <= j < pn + i + Z.of_nat todo ->
                    owner io' j = ownership_free)
      /\ (forall q, 0 <= q < 32 ->
                    q < pn + i \/ pn + i + Z.of_nat todo <= q ->
                    owner io' q = owner io q).
Proof.
  induction todo as [| todo IH]; intros io pn i Hlo Hhi Hown.
  - exists io. cbn [release_loop]. repeat split; intros; lia.
  - cbn [release_loop]. rewrite release_one_sram_page_eq by lia.
    rewrite (Hown (pn + i)) by lia.
    cbn [ownership_eqb ownership_to_Z Z.eqb Pos.eqb negb].
    rewrite IPC_BUG_false. cbn [obind].
    rewrite (Hrel io (pn + i)) by (try apply Hown; lia).
    cbn [ownership_eqb ownership_to_Z Z.eqb negb].
    rewrite IPC_BUG_false. cbn [obind].
    set (io1 := sram_ctrl io (pn + i) release_word).
    assert (Hframe : forall q, 0 <= q < 32 -> q <> pn + i ->
                               owner io1 q = owner io q).
    { intros q Hq Hne. apply Hlocal; lia. }
    destruct (IH io1 pn (i + 1)) as (io' & Hrun & Hin & Hout); try lia.
    { intros j Hj. rewrite Hframe by lia. apply Hown. lia. }
    exists io'. split; [exact Hrun |]. split.
    + intros j Hj. destruct (Z.eq_dec j (pn + i)) as [-> | Hne].
      * rewrite Hout by lia. apply Hrel; [lia |]. apply Hown. lia.
      * apply Hin. lia.
    + intros q Hq Hside. rewrite Hout by lia. apply Hframe; lia.
Qed.

End Runs.

Lemma grab_one_sram_page_frame {P : Platform} (Hlocal : ctrl_local)
    (io io' : sram_regs) (p g : Z) :
  0 <= p < 32 ->
  grab_one_sram_page io p = Done (g, io') ->
  forall q, 0 <= q < 32 -> q <> p -> owner io' q = owner io q.
Proof.
  intros Hp. rewrite grab_one_sram_page_eq by exact Hp.
  destruct (negb _); [intros [= _ <-]; reflexivity |].
  destruct (negb _); intros [= _ <-] q Hq Hne; now apply Hlocal.
Qed.

Lemma try_to_grab_sram_pages_at {P : Platform} (io : sram_regs)
    (page_num npages start : Z) :
  (page_num <> -1 /\ start = page_num)
  \/ (page_num = -1
      /\ find_consecutive_free_sram_pages io npages (-1) = Done (1, start)) ->
  try_to_grab_sram_pages io page_num npages =
  (r <- grab_loop (Z.to_nat npages) io start 0 ;;;
   let '(i, io) := r in
   if i =? npages then Done (start, io) else Done (-1, io)).
Proof.
  unfold try_to_grab_sram_pages.
  intros [(Hne & ->) | (-> & Hfind)].
  - replace (page_num =? -1) with false by lia. reflexivity.
  - cbn [Z.eqb Pos.eqb]. rewrite Hfind. reflexivity.
Qed.

Lemma try_to_grab_sram_pages_none {P : Platform} (io : sram_regs)
    (npages pn : Z) :
  find_consecutive_free_sram_pages io npages (-1) = Done (0, pn) ->
  try_to_grab_sram_pages io (-1) npages = Done (-1, io).
Proof.
  intros Hfind. unfold try_to_grab_sram_pages.
  cbn [Z.eqb Pos.eqb]. rewrite Hfind. reflexivity.
Qed.

Lemma grab_loop_first_page {P : Platform} (todo : nat) (io : sram_regs)
    (pn i : Z) (r : Z * sram_regs) :
  grab_loop (S todo) io pn i = Done r -> 0 <= pn + i < 32.
Proof.
  cbn [grab_loop].
  destruct (grab_one_sram_page io (pn + i)) as [g | | |] eqn:Hgrab;
    cbn [obind]; try discriminate.
  intros _. exact (grab_one_sram_page_in_range _ _ _ Hgrab).
Qed.

(** C8.  In [try_to_grab_sram_pages], let the run start at [start] (given,
    or found) and let the grabs of pages [start .. k-1] succeed and the grab
    of page [k] fail.  Then the function returns -1 in the state the failed
    grab left: pages [start .. k-1] are still owned by the A7 (nothing is
    rolled back), and no page from [k] to the end of the run went from free
    to the A7; the ones after [k] are as they were. *)
Theorem try_to_grab_sram_pages_no_rollback {P : Platform}
    (Hlocal : ctrl_local) (io io_k io' : sram_regs)
    (page_num npages start k : Z) :
  (page_num <> -1 /\ start = page_num)
  \/ (page_num = -1
      /\ find_consecutive_free_sram_pages io npages (-1) = Done (1, start)) ->
  start <= k < start + npages ->
  grab_loop (Z.to_nat (k - start)) io start 0 = Done (k - start, io_k) ->
  grab_one_sram_page io_k k = Done (0, io') ->
  try_to_grab_sram_pages io page_num npages = Done (-1, io')
  /\ (forall j, start <= j < k -> page_is io' j ownership_a7)
  /\ (forall j, k <= j < start + npages ->
        ~ (page_is io j ownership_free /\ page_is io' j ownership_a7))
  /\ (forall j o, k < j < start + npages -> page_is io j o -> page_is io' j o).
Proof.
  intros Hstart Hk Hpre Hfail.
  split.
  - rewrite (try_to_grab_sram_pages_at io page_num npages start Hstart).
    replace (Z.to_nat npages)
      with (Z.to_nat (k - start) + S (Z.to_nat (npages - (k - start) - 1)))%nat
      by lia.
    rewrite (grab_loop_app _ _ io start 0 io_k)
      by (rewrite Hpre; do 2 f_equal; lia).
    cbn [grab_loop].
    replace (start + (0 + Z.of_nat (Z.to_nat (k - start)))) with k by lia.
    rewrite Hfail. cbn [obind Z.eqb].
    destruct (Z.eqb_spec (0 + Z.of_nat (Z.to_nat (k - start))) npages);
      [lia | reflexivity].
  - pose proof (grab_one_sram_page_in_range _ _ _ Hfail) as Hk32.
    assert (Hlo : 0 <= start).
    { destruct (Z.eq_dec k start) as [<- | Hne]; [lia |].
      destruct (Z.to_nat (k - start)) as [| todo] eqn:Htodo; [lia |].
      pose proof (grab_loop_first_page _ _ _ _ _ Hpre). lia. }
    destruct (grab_loop_spec Hlocal (Z.to_nat (k - start)) io start 0)
      as (k' & io'' & Hrun & _ & Hin & Hout & _ & Hfull); try lia.
    rewrite Hpre in Hrun. injection Hrun as <- <-.
    pose proof (grab_one_sram_page_frame Hlocal io_k io' k 0 ltac:(lia) Hfail)
      as Hframe.
    assert (Hafter : forall q, 0 <= q < 32 -> k < q -> owner io' q = owner io q).
    { intros q Hq Hkq. rewrite Hframe by lia. apply Hfull; lia. }
    split; [| split].
    + intros j Hj. apply page_is_owner; [lia |].
      rewrite Hframe by lia. apply Hin. lia.
    + intros j Hj (Hf & Ha).
      pose proof (get_sram_page_ownership_in_range _ _ _ Hf) as Hj32.
      rewrite page_is_owner in Hf, Ha by lia.
      destruct (Z.eq_dec j k) as [-> | Hne].
      * rewrite grab_one_sram_page_eq in Hfail by lia.
        rewrite <- (Hfull ltac:(lia) k) in Hf by lia.
        apply ownership_eqb_eq in Hf. rewrite Hf in Hfail. cbn [negb] in Hfail.
        destruct (ownership_eqb _ ownership_a7) eqn:Hrb; cbn [negb] in Hfail;
          [discriminate |].
        injection Hfail as <-. apply ownership_eqb_neq in Hrb. contradiction.
      * rewrite Hafter in Ha by lia. congruence.
    + intros j o Hj Ho.
      pose proof (get_sram_page_ownership_in_range _ _ _ Ho) as Hj32.
      rewrite page_is_owner in * by lia.
      rewrite Hafter by lia. exact Ho.
Qed.

Lemma try_to_grab_sram_pages_no_rollback_witness :
  @try_to_grab_sram_pages bench (occupied [4]) 2 4
  = Done (-1, occupied [4; 2; 3])
  /\ (forall j, 2 <= j < 4 -> @page_is bench (occupied [4; 2; 3]) j ownership_a7).
Proof.
  assert (Hloc : @ctrl_local bench) by apply bench_ctrl_local.
  assert (Hpre : @grab_loop bench (Z.to_nat (4 - 2)) (occupied [4]) 2 0
                 = Done (4 - 2, occupied [4; 2; 3])) by (vm_compute; reflexivity).
  assert (Hfail : @grab_one_sram_page bench (occupied [4; 2; 3]) 4
                  = Done (0, occupied [4; 2; 3])) by (vm_compute; reflexivity).
  destruct (@try_to_grab_sram_pages_no_rollback bench Hloc
              (occupied [4]) (occupied [4; 2; 3]) (occupied [4; 2; 3])
              2 4 2 4) as (Hret & Hkept & _); try lia; try assumption.
  split; assumption.
Defined.

(** ** Allocation by size *)

Lemma size2npages_ceil (size : Z) :
  0 < size -> size2npages size = (size + 1023) / 1024.
Proof.
  intros Hs. unfold size2npages, COLUMBUS_IPC_PAGE_SIZE.
  rewrite Z.quot_div_nonneg, Z.rem_mod_nonneg by lia.
  pose proof (Z.div_mod size 1024 ltac:(lia)) as Hdm.
  pose proof (Z.mod_pos_bound size 1024 ltac:(lia)) as Hm.
  destruct (Z.eqb_spec (size mod 1024) 0) as [H0 | Hne].
  - apply Z.div_unique with (r := 1023); lia.
  - apply Z.div_unique with (r := size mod 1024 - 1); lia.
Qed.

Lemma size2npages_range (size : Z) :
  0 < size <= 32768 -> 1 <= size2npages size <= 32.
Proof.
  intros Hs. rewrite size2npages_ceil by lia. split.
  - apply Z.div_le_lower_bound; lia.
  - assert ((size + 1023) / 1024 < 33) by (apply Z.div_lt_upper_bound; lia).
    lia.
Qed.

Lemma land_u32_page_mask (a : Z) :
  Z.land (u32 a) (COLUMBUS_IPC_PAGE_SIZE - 1) = a mod 1024.
Proof.
  change (COLUMBUS_IPC_PAGE_SIZE - 1) with (Z.ones 10).
  rewrite Z.land_ones by lia. unfold u32.
  apply Z.mod_mod_divide. exists (2 ^ 22). reflexivity.
Qed.

Lemma ipc_sram_alloc_at_will {P : Platform} (io : sram_regs) (size : Z) :
  0 < size <= 32768 ->
  ipc_sram_alloc io NULL size =
  (r <- try_to_grab_sram_pages io (-1) (size2npages size) ;;;
   let '(page_num, io) := r in
   if negb (page_num =? -1)
   then Done (u32 (sram + page_num * COLUMBUS_IPC_PAGE_SIZE), io)
   else Done (NULL, io)).
Proof.
  intros Hs. unfold ipc_sram_alloc, COLUMBUS_IPC_SRAM_SIZE.
  replace (size <=? 0) with false by lia.
  replace (size >? 32768) with false by lia.
  reflexivity.
Qed.

Lemma page_addr_u32 {P : Platform} (s : Z) :
  sram_mapped -> 0 <= s < 32 ->
  u32 (sram + s * COLUMBUS_IPC_PAGE_SIZE) = sram + s * COLUMBUS_IPC_PAGE_SIZE.
Proof.
  unfold sram_mapped, COLUMBUS_IPC_SRAM_SIZE, COLUMBUS_IPC_PAGE_SIZE.
  intros (H0 & H1 & _) Hs. unfold u32. apply Z.mod_small. lia.
Qed.

Lemma ownership_vector_ext {P : Platform} (io io' : sram_regs) :
  (forall q, 0 <= q < 32 -> owner io' q = owner io q) ->
  ownership_vector io' = ownership_vector io.
Proof.
  intros Hall. unfold ownership_vector. apply map_ext_in.
  intros k Hk. apply in_seq in Hk.
  rewrite !get_sram_page_ownership_owner by lia.
  f_equal. apply Hall. lia.
Qed.

(** A successful allocation at will took a run of free pages and changed
    nothing else. *)
Lemma ipc_sram_alloc_at_will_success {P : Platform} (Hlocal : ctrl_local)
    (io io1 : sram_regs) (size a : Z) :
  sram_mapped -> 0 < size <= 32768 ->
  ipc_sram_alloc io NULL size = Done (a, io1) -> a <> NULL ->
  exists s,
    lowest_free_run io s (size2npages size)
    /\ a = sram + s * COLUMBUS_IPC_PAGE_SIZE
    /\ (forall j, s <= j < s + size2npages size ->
                  owner io j = ownership_free /\ owner io1 j = ownership_a7)
    /\ (forall q, 0 <= q < 32 -> q < s \/ s + size2npages size <= q ->
                  owner io1 q = owner io q).
Proof.
  intros Hmap Hs Halloc Ha.
  pose proof (size2npages_range size Hs) as Hn.
  rewrite ipc_sram_alloc_at_will in Halloc by exact Hs.
  destruct (find_consecutive_free_sram_pages_spec io (size2npages size) (-1) Hn)
    as [(s & Hfind & Hlow) | (Hfind & _)].
  2:{ rewrite (try_to_grab_sram_pages_none _ _ _ Hfind) in Halloc.
      cbn [obind Z.eqb Pos.eqb negb] in Halloc.
      injection Halloc as <- _. now elim Ha. }
  rewrite (try_to_grab_sram_pages_at io (-1) _ s) in Halloc by (right; auto).
  pose proof Hlow as ((Hs0 & Hs1 & _) & _). unfold SHARED_RAM_PAGE_NUM in Hs1.
  destruct (grab_loop_spec Hlocal (Z.to_nat (size2npages size)) io s 0)
    as (k & io' & Hrun & Hk & Hin & Hout & _ & Hfull); try lia.
  rewrite Hrun in Halloc. cbn [obind] in Halloc.
  destruct (Z.eqb_spec k (size2npages size)) as [-> | Hne].
  2:{ cbn [obind Z.eqb Pos.eqb negb] in Halloc.
      injection Halloc as <- _. now elim Ha. }
  cbn [obind] in Halloc. replace (s =? -1) with false in Halloc by lia.
  cbn [negb] in Halloc. injection Halloc as <- <-.
  exists s. split; [exact Hlow |]. split; [apply page_addr_u32; [exact Hmap | lia] |].
  split.
  - intros j Hj. apply Hin. lia.
  - intros q Hq [Hlt | Hge].
    + apply Hout; [exact Hq | lia].
    + apply Hfull; lia.
Qed.

(** C3.  For every content of the ownership registers and every size in
    (0, 32768]: when [ipc_sram_alloc(NULL, size)] returns a non-NULL address
    [a], [ipc_sram_free(a, size)] completes and the 32-entry ownership
    vector is again what it was before the allocation.  The controller is
    taken to act on the requested page only and to honour releases. *)
Theorem ipc_sram_alloc_free_round_trip {P : Platform}
    (Hlocal : ctrl_local) (Hrel : ctrl_releases) (Hmap : sram_mapped)
    (io io1 : sram_regs) (size a : Z) :
  0 < size <= 32768 ->
  ipc_sram_alloc io NULL size = Done (a, io1) -> a <> NULL ->
  exists io2,
    ipc_sram_free io1 a size = Done io2
    /\ ownership_vector io2 = ownership_vector io.
Proof.
  intros Hs Halloc Ha.
  destruct (ipc_sram_alloc_at_will_success Hlocal io io1 size a Hmap Hs Halloc Ha)
    as (s & ((Hs0 & Hs1 & _) & _) & -> & Hin & Hout).
  unfold SHARED_RAM_PAGE_NUM in Hs1.
  pose proof (size2npages_range size Hs) as Hn.
  pose proof Hmap as (Hm0 & Hm1 & Hm2).
  unfold COLUMBUS_IPC_SRAM_SIZE, COLUMBUS_IPC_PAGE_SIZE in Hm1, Hm2.
  destruct (release_loop_spec Hlocal Hrel (Z.to_nat (size2npages size)) io1 s 0)
    as (io2 & Hfree & Hfin & Hfout); try lia.
  { intros j Hj. apply Hin. lia. }
  exists io2. split.
  - unfold ipc_sram_free, free_sram_pages.
    rewrite land_u32_page_mask.
    unfold COLUMBUS_IPC_SRAM_SIZE, COLUMBUS_IPC_PAGE_SIZE, NULL in *.
    replace (size <=? 0) with false by lia.
    replace (size >? 32768) with false by lia.
    replace (sram + s * 1024 =? 0) with false by lia.
    replace ((sram + s * 1024) mod 1024) with 0
      by (rewrite Z.mod_add by lia; lia).
    replace (sram + s * 1024 <? sram) with false by lia.
    replace (sram + s * 1024 >=? sram + 32768) with false by lia.
    replace (sram + s * 1024 - sram) with (s * 1024) by lia.
    rewrite Z.quot_mul, Z.rem_mul by lia.
    cbn [negb orb Z.eqb]. rewrite !IPC_BUG_false. cbn [obind].
    exact Hfree.
  - apply ownership_vector_ext. intros q Hq.
    destruct (Z.lt_ge_cases q s) as [Hlt | Hge].
    + rewrite Hfout by lia. apply Hout; lia.
    + destruct (Z.lt_ge_cases q (s + size2npages size)) as [Hin' | Hout'].
      * rewrite Hfin by lia. symmetry. apply Hin. lia.
      * rewrite Hfout by lia. apply Hout; lia.
Qed.

Lemma bench_sram_mapped (dbg : bool) (key rd em sp : Z)
    (ctrl : sram_regs -> Z -> Z -> sram_regs) :
  @sram_mapped (Build_Platform dbg key rd em 0xC8800000 sp ctrl).
Proof.
  unfold sram_mapped. cbn [sram].
  unfold COLUMBUS_IPC_SRAM_SIZE, COLUMBUS_IPC_PAGE_SIZE.
  split; [lia | split; [lia | reflexivity]].
Qed.

Lemma ipc_sram_alloc_free_round_trip_witness :
  0 < 3000 <= 32768 /\
  @ipc_sram_alloc bench_debug (occupied [2; 6]) NULL 3000
  = Done (0xC8800000 + 3 * 1024, occupied [2; 6; 3; 4; 5]) /\
  exists io2,
    @ipc_sram_free bench_debug (occupied [2; 6; 3; 4; 5])
                   (0xC8800000 + 3 * 1024) 3000 = Done io2
    /\ @ownership_vector bench_debug io2
       = @ownership_vector bench_debug (occupied [2; 6]).
Proof.
  assert (Hs : 0 < 3000 <= 32768) by lia.
  assert (Halloc : @ipc_sram_alloc bench_debug (occupied [2; 6]) NULL 3000
                   = Done (0xC8800000 + 3 * 1024, occupied [2; 6; 3; 4; 5]))
    by (vm_compute; reflexivity).
  split; [exact Hs |]. split; [exact Halloc |].
  apply (@ipc_sram_alloc_free_round_trip bench_debug
           (bench_ctrl_local _ _ _ _ _ _) (bench_ctrl_releases _ _ _ _ _ _)
           (bench_sram_mapped _ _ _ _ _ _)
           (occupied [2; 6]) (occupied [2; 6; 3; 4; 5]) 3000
           (0xC8800000 + 3 * 1024) Hs Halloc).
  unfold NULL. lia.
Defined.

Lemma ipc_sram_alloc_rejects {P : Platform} (io : sram_regs) (addr size : Z) :
  size <= 0 \/ size > 32768 \/ addr mod 1024 <> 0
  \/ (addr <> NULL /\ (addr < sram \/ sram + 32768 <= addr)) ->
  ipc_sram_alloc io addr size = Done (NULL, io).
Proof.
  intros Hbad. unfold ipc_sram_alloc.
  rewrite land_u32_page_mask. unfold COLUMBUS_IPC_SRAM_SIZE.
  destruct (Z.leb_spec size 0) as [| Hpos]; [reflexivity |].
  destruct (Z.gtb_spec size 32768) as [| Hmax]; [reflexivity |].
  destruct (Z.eqb_spec (addr mod 1024) 0) as [Hal | Hmis]; cbn [negb];
    [| reflexivity].
  destruct Hbad as [? | [? | [? | (Hnn & Hout)]]]; try lia.
  replace (addr =? NULL) with false by (unfold NULL in *; lia).
  cbn [negb].
  replace ((addr <? sram) || (addr >=? sram + 32768)) with true by lia.
  reflexivity.
Qed.

Lemma ipc_sram_alloc_fixed {P : Platform} (io : sram_regs) (addr size : Z) :
  sram_mapped -> 0 < size <= 32768 ->
  addr mod 1024 = 0 -> sram <= addr < sram + 32768 ->
  ipc_sram_alloc io addr size =
  (r <- try_to_grab_sram_pages io ((addr - sram) / 1024)
                               ((size + 1023) / 1024) ;;;
   let '(page_num, io) := r in
   if negb (page_num =? -1)
   then Done (u32 (sram + page_num * COLUMBUS_IPC_PAGE_SIZE), io)
   else Done (NULL, io)).
Proof.
  intros (Hm0 & _ & Hm2) Hs Hal Hin. unfold ipc_sram_alloc.
  rewrite land_u32_page_mask, size2npages_ceil by lia.
  unfold COLUMBUS_IPC_SRAM_SIZE, COLUMBUS_IPC_PAGE_SIZE, NULL in *.
  replace (size <=? 0) with false by lia.
  replace (size >? 32768) with false by lia.
  rewrite Hal. replace (addr =? 0) with false by lia.
  replace ((addr <? sram) || (addr >=? sram + 32768)) with false by lia.
  rewrite Z.quot_div_nonneg, Z.rem_mod_nonneg by lia.
  replace ((addr - sram) mod 1024) with 0.
  2:{ rewrite Zminus_mod, Hal, Hm2. reflexivity. }
  cbn [negb Z.eqb]. rewrite IPC_BUG_false. reflexivity.
Qed.

(** C7.  [ipc_sram_alloc] counts pages as the size divided by 1024 rounded
    up.  It returns NULL and leaves the ownership registers alone when the
    size is not in (0, 32768], when the address is not a multiple of 1024,
    and when a non-NULL address lies outside the 32K window.  A valid
    address fixes the start at its page index; NULL lets the allocator
    choose.  With a controller that grants free pages and touches only the
    requested page, [ipc_sram_alloc(NULL, 1000)] takes exactly one page, the
    lowest free one, and returns its base address; with all pages free that
    is page 0 at [sram]. *)
Theorem ipc_sram_alloc_checks_and_page_count {P : Platform}
    (io : sram_regs) (addr size : Z) :
  (0 < size -> size2npages size = (size + 1023) / 1024)
  /\ (size <= 0 \/ size > 32768 \/ addr mod 1024 <> 0
      \/ (addr <> NULL /\ (addr < sram \/ sram + 32768 <= addr)) ->
      ipc_sram_alloc io addr size = Done (NULL, io))
  /\ (sram_mapped -> 0 < size <= 32768 ->
      addr mod 1024 = 0 -> sram <= addr < sram + 32768 ->
      ipc_sram_alloc io addr size =
      (r <- try_to_grab_sram_pages io ((addr - sram) / 1024)
                                   ((size + 1023) / 1024) ;;;
       let '(page_num, io) := r in
       if negb (page_num =? -1)
       then Done (u32 (sram + page_num * COLUMBUS_IPC_PAGE_SIZE), io)
       else Done (NULL, io)))
  /\ (0 < size <= 32768 ->
      ipc_sram_alloc io NULL size =
      (r <- try_to_grab_sram_pages io (-1) ((size + 1023) / 1024) ;;;
       let '(page_num, io) := r in
       if negb (page_num =? -1)
       then Done (u32 (sram + page_num * COLUMBUS_IPC_PAGE_SIZE), io)
       else Done (NULL, io)))
  /\ (sram_mapped -> ctrl_local -> ctrl_grants ->
      forall s, lowest_free_run io s 1 ->
        exists io1,
          ipc_sram_alloc io NULL 1000
          = Done (sram + s * COLUMBUS_IPC_PAGE_SIZE, io1)
          /\ page_is io1 s ownership_a7
          /\ forall q o, 0 <= q < 32 -> q <> s ->
                         page_is io q o -> page_is io1 q o)
  /\ (sram_mapped -> ctrl_local -> ctrl_grants ->
      (forall q, 0 <= q < 32 -> page_is io q ownership_free) ->
      exists io1,
        ipc_sram_alloc io NULL 1000 = Done (sram, io1)
        /\ page_is io1 0 ownership_a7
        /\ forall q, 0 < q < 32 -> page_is io1 q ownership_free).
Proof.
  assert (Hone : sram_mapped -> ctrl_local -> ctrl_grants ->
      forall s, lowest_free_run io s 1 ->
        exists io1,
          ipc_sram_alloc io NULL 1000
          = Done (sram + s * COLUMBUS_IPC_PAGE_SIZE, io1)
          /\ page_is io1 s ownership_a7
          /\ forall q o, 0 <= q < 32 -> q <> s ->
                         page_is io q o -> page_is io1 q o).
  { intros Hmap Hlocal Hgrants s Hlow.
    pose proof Hlow as ((Hs0 & Hs1 & Hfree) & _).
    unfold SHARED_RAM_PAGE_NUM in Hs1.
    specialize (Hfree s ltac:(lia)). rewrite page_is_owner in Hfree by lia.
    exists (sram_ctrl io s grab_word).
    rewrite ipc_sram_alloc_at_will by lia.
    change (size2npages 1000) with 1.
    assert (Hn : 1 <= 1 <= 32) by lia.
    pose proof (lowest_free_run_found io 1 (-1) s Hn Hlow)
      as Hfind.
    rewrite (try_to_grab_sram_pages_at io (-1) 1 s) by (right; auto).
    change (Z.to_nat 1) with 1%nat. cbn [grab_loop].
    rewrite Z.add_0_r.
    rewrite grab_one_sram_page_eq by lia.
    rewrite Hfree, (Hgrants io s) by (try exact Hfree; lia).
    change (0 + 1) with 1.
    cbn [ownership_eqb ownership_to_Z Z.eqb Pos.eqb negb obind].
    replace (s =? -1) with false by lia. cbn [negb].
    rewrite page_addr_u32 by (try exact Hmap; lia).
    split; [reflexivity |]. split.
    - apply page_is_owner; [lia |]. apply Hgrants; [lia | exact Hfree].
    - intros q o Hq Hne Ho. rewrite page_is_owner in * by lia.
      rewrite Hlocal by lia. exact Ho. }
  split; [apply size2npages_ceil |].
  split; [apply ipc_sram_alloc_rejects |].
  split; [apply ipc_sram_alloc_fixed |].
  split; [intros Hs; rewrite ipc_sram_alloc_at_will, size2npages_ceil by lia;
          reflexivity |].
  split; [exact Hone |].
  intros Hmap Hlocal Hgrants Hall.
  destruct (Hone Hmap Hlocal Hgrants 0) as (io1 & Halloc & Ha7 & Hrest).
  { split.
    - unfold free_run, SHARED_RAM_PAGE_NUM. repeat split; try lia.
      intros j Hj. apply Hall. lia.
    - intros s' (Hs' & _). lia. }
  exists io1. rewrite Halloc. split; [f_equal; f_equal; lia |].
  split; [exact Ha7 |].
  intros q Hq. apply Hrest; [lia | lia |]. apply Hall. lia.
Qed.

Lemma ipc_sram_alloc_checks_and_page_count_witness :
  (exists io1,
     @ipc_sram_alloc bench_debug (mk_sram_regs 0 0) NULL 1000
     = Done (0xC8800000, io1)
     /\ @page_is bench_debug io1 0 ownership_a7
     /\ forall q, 0 < q < 32 -> @page_is bench_debug io1 q ownership_free)
  /\ @ipc_sram_alloc bench_debug (mk_sram_regs 0 0) (0xC8800000 + 5) 1000
     = Done (NULL, mk_sram_regs 0 0).
Proof.
  pose proof (@ipc_sram_alloc_checks_and_page_count bench_debug
                (mk_sram_regs 0 0) (0xC8800000 + 5) 1000)
    as (_ & Hrej & _ & _ & _ & Hall).
  split.
  - apply Hall.
    + apply bench_sram_mapped.
    + apply bench_ctrl_local.
    + apply bench_ctrl_grants.
    + intros q Hq. apply page_is_owner; [lia |].
      assert (Hq' : q = 0 \/ 0 < q < 32) by lia.
      unfold owner, page_bits. cbn [SRMSEL0 SRMSEL1].
      destruct (q <? 16); change (u32 0) with 0;
        now rewrite Z.shiftr_0_l.
  - apply Hrej. right. right. left. vm_compute. discriminate.
Defined.

(** ** Acquiring a channel slot *)

Lemma slot_read_Done (channels : list ipc_channel) (i : Z) (c : ipc_channel) :
  0 <= i -> channels !! Z.to_nat i = Some c -> slot_read channels i = Done c.
Proof.
  intros Hi Hc. unfold slot_read.
  replace (i <? 0) with false by lia. now rewrite Hc.
Qed.

Lemma slot_in_table (channels : list ipc_channel) (i : Z) :
  0 <= i < Z.of_nat (length channels) ->
  exists c, channels !! Z.to_nat i = Some c.
Proof.
  intros Hi. apply lookup_lt_is_Some. lia.
Qed.

(** The scan returns the lowest unused slot of its range and marks it. *)
Lemma scan_loop_spec (todo : nat) :
  forall (channels : list ipc_channel) (i : Z),
    0 <= i -> i + Z.of_nat todo <= Z.of_nat (length channels) ->
    (exists k c,
        i <= k < i + Z.of_nat todo
        /\ channels !! Z.to_nat k = Some c
        /\ used c = IPC_CHANNEL_UNUSED
        /\ (forall j, i <= j < k -> slot_occupied channels j)
        /\ scan_loop todo channels i
           = Done (Some k,
                   <[Z.to_nat k := set_used c IPC_CHANNEL_USED]> channels))
    \/ ((forall j, i <= j < i + Z.of_nat todo -> slot_occupied channels j)
        /\ scan_loop todo channels i = Done (None, channels)).
Proof.
  induction todo as [| todo IH]; intros channels i Hi Hlen.
  - right. split; [intros j Hj; lia | reflexivity].
  - cbn [scan_loop].
    destruct (slot_in_table channels i ltac:(lia)) as (c & Hc).
    rewrite (slot_read_Done _ _ _ Hi Hc). cbn [obind].
    destruct (Z.eqb_spec (used c) IPC_CHANNEL_UNUSED) as [Hfree | Hbusy].
    + left. exists i, c.
      split; [lia |]. split; [exact Hc |]. split; [exact Hfree |].
      split; [intros j Hj; lia | reflexivity].
    + assert (Hocc : slot_occupied channels i).
      { split; [exact Hi |]. exists c. auto. }
      destruct (IH channels (i + 1)) as
        [(k & c' & Hk & Hc' & Hu & Hbelow & Hrun) | (Hall & Hrun)]; try lia.
      * left. exists k, c'.
        split; [lia |]. split; [exact Hc' |]. split; [exact Hu |].
        split; [| exact Hrun].
        intros j Hj. destruct (Z.eq_dec j i) as [-> | Hne]; [exact Hocc |].
        apply Hbelow. lia.
      * right. split; [| exact Hrun].
        intros j Hj. destruct (Z.eq_dec j i) as [-> | Hne]; [exact Hocc |].
        apply Hall. lia.
Qed.

Lemma set_table_same (t : channel_tables) (which : channel_table) :
  set_table t which (table_of t which) = t.
Proof. destruct t, which; reflexivity. Qed.

Lemma table_of_set_table (t : channel_tables) (which : channel_table)
    (l : list ipc_channel) :
  table_of (set_table t which l) which = l.
Proof. destruct which; reflexivity. Qed.

Lemma table_of_set_table_other (t : channel_tables)
    (which other : channel_table) (l : list ipc_channel) :
  other <> which -> table_of (set_table t which l) other = table_of t other.
Proof. destruct which, other; intros H; try reflexivity; congruence. Qed.

Lemma tables_wf_length (t : channel_tables) (which : channel_table) :
  tables_wf t -> length (table_of t which) = 16%nat.
Proof. intros [Hrf Hplc]. destruct which; assumption. Qed.

(** What [columbus_ipc_get_channel] does on a well-formed call: it claims
    the appointed slot if that is unused, or the lowest unused slot of the
    range the mode opens, stamps it, and touches nothing else; otherwise it
    returns NULL and changes nothing. *)
Lemma columbus_ipc_get_channel_spec {P : Platform} (t : channel_tables)
    (partner operation mode appointed_channel : Z) :
  tables_wf t ->
  partner = IPC_PARTNER_RF_DSP \/ partner = IPC_PARTNER_PLC_DSP ->
  operation = IPC_SEND_OPERATION \/ operation = IPC_RECEIVE_OPERATION ->
  mode = IPC_COMMUNICATION_INT \/ mode = IPC_COMMUNICATION_POLL ->
  appointed_channel = COLUMBUS_IPC_INVALID
  \/ 0 <= appointed_channel < slots_for mode ->
  (exists i,
      columbus_ipc_get_channel t partner operation mode appointed_channel
      = Done (Some (mk_handle (table_for partner) i),
              set_table t (table_for partner)
                (<[Z.to_nat i := stamped partner operation mode]>
                   (table_of t (table_for partner))))
      /\ 0 <= i < slots_for mode
      /\ slot_unused (table_of t (table_for partner)) i
      /\ (appointed_channel <> COLUMBUS_IPC_INVALID -> i = appointed_channel)
      /\ (appointed_channel = COLUMBUS_IPC_INVALID ->
          forall j, 0 <= j < i ->
                    slot_occupied (table_of t (table_for partner)) j))
  \/ (columbus_ipc_get_channel t partner operation mode appointed_channel
      = Done (None, t)
      /\ (appointed_channel <> COLUMBUS_IPC_INVALID ->
          slot_occupied (table_of t (table_for partner)) appointed_channel)
      /\ (appointed_channel = COLUMBUS_IPC_INVALID ->
          forall j, 0 <= j < slots_for mode ->
                    slot_occupied (table_of t (table_for partner)) j)).
Proof.
  intros Hwf Hpartner Hop Hmode Happ.
  pose proof (tables_wf_length t (table_for partner) Hwf) as Hlen.
  set (channels := table_of t (table_for partner)) in *.
  assert (Hslots : 0 < slots_for mode <= 16).
  { unfold slots_for, IPC_IRQ_CHANNEL_NUM, A7_RF_IPC_CHANNEL_NUM.
    destruct (mode =? IPC_COMMUNICATION_INT); lia. }
  assert (Hhead :
    columbus_ipc_get_channel t partner operation mode appointed_channel =
    (r <- get_free_channel channels (slots_for mode) appointed_channel ;;;
     let '(channel, tbl) := r in
     match channel with
     | Some i =>
         c <- slot_read tbl i ;;;
         Done (Some (mk_handle (table_for partner) i),
               set_table t (table_for partner)
                 (<[Z.to_nat i := set_ipc_channel c partner operation mode]> tbl))
     | None => Done (None, set_table t (table_for partner) tbl)
     end)).
  { unfold columbus_ipc_get_channel, get_channels, get_max_channel.
    replace (negb (partner =? IPC_PARTNER_RF_DSP)
             && negb (partner =? IPC_PARTNER_PLC_DSP)) with false
      by (destruct Hpartner as [-> | ->]; reflexivity).
    replace (negb (operation =? IPC_SEND_OPERATION)
             && negb (operation =? IPC_RECEIVE_OPERATION)) with false
      by (destruct Hop as [-> | ->]; reflexivity).
    replace (negb (mode =? IPC_COMMUNICATION_INT)
             && negb (mode =? IPC_COMMUNICATION_POLL)) with false
      by (destruct Hmode as [-> | ->]; reflexivity).
    rewrite !IPC_BUG_false. cbn [obind].
    destruct Hpartner as [-> | ->], Hmode as [-> | ->];
      cbn [Z.eqb Pos.eqb negb]; rewrite ?IPC_BUG_false; reflexivity. }
  rewrite Hhead. clear Hhead.
  unfold get_free_channel.
  replace (slots_for mode >? A7_RF_IPC_CHANNEL_NUM) with false
    by (unfold A7_RF_IPC_CHANNEL_NUM; lia).
  replace (negb (appointed_channel =? COLUMBUS_IPC_INVALID)
           && (appointed_channel >=? slots_for mode)) with false
    by (unfold COLUMBUS_IPC_INVALID in *;
        destruct Happ as [-> | ?]; [reflexivity |];
        replace (appointed_channel >=? slots_for mode) with false by lia;
        now rewrite andb_false_r).
  replace (appointed_channel <? COLUMBUS_IPC_INVALID) with false
    by (unfold COLUMBUS_IPC_INVALID in *; lia).
  rewrite !IPC_BUG_false. cbn [obind].
  destruct (Z.eqb_spec appointed_channel COLUMBUS_IPC_INVALID)
    as [Hinv | Hgiven]; cbn [negb].
  - destruct (scan_loop_spec (Z.to_nat (slots_for mode)) channels 0)
      as [(k & c & Hk & Hc & Hu & Hbelow & Hrun) | (Hall & Hrun)]; try lia.
    + left. exists k. rewrite Hrun. cbn [obind].
      rewrite (slot_read_Done _ k (set_used c IPC_CHANNEL_USED))
        by (try apply list_lookup_insert_eq; lia).
      cbn [obind]. rewrite list_insert_insert_eq.
      split; [reflexivity |]. split; [lia |]. split.
      * split; [lia |]. exists c. auto.
      * split; [intros Hne; contradiction |].
        intros _ j Hj. apply Hbelow. lia.
    + right. rewrite Hrun. cbn [obind]. rewrite set_table_same.
      split; [reflexivity |]. split; [intros Hne; contradiction |].
      intros _ j Hj. apply Hall. lia.
  - assert (Hrng : 0 <= appointed_channel < slots_for mode)
      by (destruct Happ; [contradiction | assumption]).
    destruct (slot_in_table channels appointed_channel ltac:(lia)) as (c & Hc).
    rewrite (slot_read_Done channels appointed_channel c ltac:(lia) Hc).
    cbn [obind].
    destruct (Z.eqb_spec (used c) IPC_CHANNEL_UNUSED) as [Hfree | Hbusy].
    + left. exists appointed_channel. cbn [obind].
      rewrite (slot_read_Done _ appointed_channel (set_used c IPC_CHANNEL_USED))
        by (try apply list_lookup_insert_eq; lia).
      cbn [obind]. rewrite list_insert_insert_eq.
      split; [reflexivity |]. split; [lia |]. split.
      * split; [lia |]. exists c. auto.
      * split; [reflexivity |]. intros Hinv. contradiction.
    + right. cbn [obind]. rewrite set_table_same.
      split; [reflexivity |]. split.
      * intros _. split; [lia |]. exists c. auto.
      * intros Hinv. contradiction.
Qed.

(** ** Live handles never share a slot *)

(** Whatever the arguments, a scan that returns a slot returns one that was
    unused and marks it; a scan that returns none leaves the table alone. *)
Lemma scan_loop_result (todo : nat) :
  forall (channels tbl : list ipc_channel) (i : Z) (r : option Z),
    scan_loop todo channels i = Done (r, tbl) ->
    match r with
    | Some k =>
        0 <= k /\ exists c, channels !! Z.to_nat k = Some c
                            /\ used c = IPC_CHANNEL_UNUSED
                            /\ tbl = <[Z.to_nat k := set_used c IPC_CHANNEL_USED]>
                                       channels
    | None => tbl = channels
    end.
Proof.
  induction todo as [| todo IH]; intros channels tbl i r Hrun.
  - cbn [scan_loop] in Hrun. injection Hrun as <- <-. reflexivity.
  - cbn [scan_loop] in Hrun. unfold slot_read in Hrun.
    destruct (Z.ltb_spec i 0) as [| Hi]; [discriminate |].
    destruct (channels !! Z.to_nat i) as [c |] eqn:Hc; [| discriminate].
    cbn [obind] in Hrun.
    destruct (Z.eqb_spec (used c) IPC_CHANNEL_UNUSED) as [Hfree | Hbusy].
    + injection Hrun as <- <-. split; [exact Hi |]. exists c. auto.
    + exact (IH channels tbl (i + 1) r Hrun).
Qed.

Lemma get_free_channel_result {P : Platform}
    (channels tbl : list ipc_channel) (max_channel appointed_channel : Z)
    (r : option Z) :
  get_free_channel channels max_channel appointed_channel = Done (r, tbl) ->
  match r with
  | Some k =>
      0 <= k /\ exists c, channels !! Z.to_nat k = Some c
                          /\ used c = IPC_CHANNEL_UNUSED
                          /\ tbl = <[Z.to_nat k := set_used c IPC_CHANNEL_USED]>
                                     channels
  | None => tbl = channels
  end.
Proof.
  unfold get_free_channel.
  destruct (IPC_BUG _); cbn [obind]; try discriminate.
  destruct (IPC_BUG _); cbn [obind]; try discriminate.
  destruct (IPC_BUG _); cbn [obind]; try discriminate.
  destruct (negb (appointed_channel =? COLUMBUS_IPC_INVALID)).
  - unfold slot_read.
    destruct (Z.ltb_spec appointed_channel 0) as [| Hi]; [discriminate |].
    destruct (channels !! Z.to_nat appointed_channel) as [c |] eqn:Hc;
      [| discriminate].
    cbn [obind].
    destruct (Z.eqb_spec (used c) IPC_CHANNEL_UNUSED) as [Hfree | Hbusy];
      intros [= <- <-]; [| reflexivity].
    split; [exact Hi |]. exists c. auto.
  - apply scan_loop_result.
Qed.

Lemma slot_read_insert_ne (l : list ipc_channel) (i j : Z) (x : ipc_channel) :
  0 <= i -> i <> j -> slot_read (<[Z.to_nat i := x]> l) j = slot_read l j.
Proof.
  intros Hi Hne. unfold slot_read.
  destruct (Z.ltb_spec j 0); [reflexivity |].
  rewrite list_lookup_insert_ne by lia. reflexivity.
Qed.

Lemma deref_set_table_ne (t : channel_tables) (which : channel_table)
    (i : Z) (x : ipc_channel) (h : channel_handle) :
  0 <= i -> h <> mk_handle which i ->
  deref (set_table t which (<[Z.to_nat i := x]> (table_of t which))) h
  = deref t h.
Proof.
  intros Hi Hne. unfold deref. destruct h as [hw hs]. cbn [h_table h_slot].
  destruct (channel_table_eqb hw which) eqn:Heq.
  - assert (hw = which) as -> by (destruct hw, which; cbn in Heq; congruence).
    rewrite table_of_set_table. apply slot_read_insert_ne; [exact Hi |].
    intros <-. now apply Hne.
  - rewrite table_of_set_table_other; [reflexivity |].
    intros ->. destruct which; discriminate.
Qed.

(** A handle handed out points to a slot that was unused before the call
    and is used after it; all other slots are as before. *)
Lemma columbus_ipc_get_channel_effect {P : Platform} (t t' : channel_tables)
    (partner operation mode appointed_channel : Z) (h : channel_handle) :
  columbus_ipc_get_channel t partner operation mode appointed_channel
  = Done (Some h, t') ->
  (exists c, deref t h = Done c /\ used c = IPC_CHANNEL_UNUSED)
  /\ (exists c, deref t' h = Done c /\ used c = IPC_CHANNEL_USED)
  /\ (forall h', h' <> h -> deref t' h' = deref t h').
Proof.
  unfold columbus_ipc_get_channel.
  destruct (IPC_BUG _); cbn [obind]; try discriminate.
  destruct (IPC_BUG _); cbn [obind]; try discriminate.
  destruct (IPC_BUG _); cbn [obind]; try discriminate.
  destruct (get_channels partner) as [which | | |]; cbn [obind];
    try discriminate.
  destruct (get_max_channel operation mode) as [max_channel | | |];
    cbn [obind]; try discriminate.
  destruct (get_free_channel (table_of t which) max_channel appointed_channel)
    as [[r tbl] | | |] eqn:Hfree; cbn [obind]; try discriminate.
  apply get_free_channel_result in Hfree.
  destruct r as [k |]; [| discriminate].
  destruct Hfree as (Hk & c & Hc & Hu & ->).
  assert (Hlt : (Z.to_nat k < length (table_of t which))%nat)
    by (eapply lookup_lt_Some; eauto).
  rewrite (slot_read_Done _ k (set_used c IPC_CHANNEL_USED))
    by (try apply list_lookup_insert_eq; assumption).
  cbn [obind]. rewrite list_insert_insert_eq. intros [= <- <-].
  split; [| split].
  - exists c. split; [| exact Hu]. unfold deref. cbn [h_table h_slot].
    now apply slot_read_Done.
  - exists (set_ipc_channel (set_used c IPC_CHANNEL_USED) partner operation mode).
    split; [| reflexivity]. unfold deref. cbn [h_table h_slot].
    rewrite table_of_set_table. apply slot_read_Done; [exact Hk |].
    now apply list_lookup_insert_eq.
  - intros h' Hne. now apply deref_set_table_ne.
Qed.

Lemma columbus_ipc_get_channel_none {P : Platform} (t t' : channel_tables)
    (partner operation mode appointed_channel : Z) :
  columbus_ipc_get_channel t partner operation mode appointed_channel
  = Done (None, t') -> t' = t.
Proof.
  unfold columbus_ipc_get_channel.
  destruct (IPC_BUG _); cbn [obind]; try discriminate.
  destruct (IPC_BUG _); cbn [obind]; try discriminate.
  destruct (IPC_BUG _); cbn [obind]; try discriminate.
  destruct (get_channels partner) as [which | | |]; cbn [obind];
    try discriminate.
  destruct (get_max_channel operation mode) as [max_channel | | |];
    cbn [obind]; try discriminate.
  destruct (get_free_channel (table_of t which) max_channel appointed_channel)
    as [[r tbl] | | |] eqn:Hfree; cbn [obind]; try discriminate.
  apply get_free_channel_result in Hfree.
  destruct r as [k |].
  - destruct (slot_read tbl k); cbn [obind]; discriminate.
  - subst tbl. intros [= <-]. apply set_table_same.
Qed.

Lemma columbus_ipc_put_channel_effect {P : Platform} (t t' : channel_tables)
    (h : channel_handle) :
  columbus_ipc_put_channel t h = Done t' ->
  forall h', h' <> h -> deref t' h' = deref t h'.
Proof.
  unfold columbus_ipc_put_channel.
  destruct (deref t h) as [c | | |] eqn:Hc; cbn [obind]; try discriminate.
  do 6 (destruct (IPC_BUG _); cbn [obind]; try discriminate).
  destruct (get_max_channel _ _); cbn [obind]; try discriminate.
  intros [= <-] h' Hne.
  destruct h as [which i]. cbn [h_table h_slot] in *.
  apply deref_set_table_ne; [| exact Hne].
  unfold deref, slot_read in Hc. cbn [h_table h_slot] in Hc.
  destruct (Z.ltb_spec i 0); [discriminate | assumption].
Qed.

Lemma NoDup_remove_handle (h : channel_handle) (l : list channel_handle) :
  List.NoDup l -> List.NoDup (remove handle_eq_dec h l).
Proof.
  induction 1 as [| x l Hx Hl IH]; cbn [remove]; [constructor |].
  destruct (handle_eq_dec h x); [exact IH |].
  constructor; [| exact IH].
  intros Hin. apply in_remove in Hin. tauto.
Qed.

(** Every handle a client holds points to a used slot, and no two of them
    are the same slot. *)
Lemma reachable_live_handles {P : Platform} (t : channel_tables)
    (live : list channel_handle) :
  reachable t live ->
  List.NoDup live
  /\ forall h, In h live ->
       exists c, deref t h = Done c /\ used c = IPC_CHANNEL_USED.
Proof.
  induction 1 as [| t t' live partner operation mode appointed h Hreach IH Hget
                  | t t' live partner operation mode appointed Hreach IH Hget
                  | t t' live h Hreach IH Hin Hput].
  - split; [constructor | intros h []].
  - destruct IH as (Hnd & Hused).
    destruct (columbus_ipc_get_channel_effect _ _ _ _ _ _ _ Hget)
      as ((c & Hc & Hu) & Hnew & Hframe).
    assert (Hfresh : ~ In h live).
    { intros Hin. destruct (Hused h Hin) as (c' & Hc' & Hu').
      rewrite Hc in Hc'. injection Hc' as <-.
      unfold IPC_CHANNEL_USED, IPC_CHANNEL_UNUSED in *. lia. }
    split; [constructor; assumption |].
    intros h' [<- | Hin]; [exact Hnew |].
    rewrite Hframe by (intros ->; contradiction). now apply Hused.
  - apply columbus_ipc_get_channel_none in Hget. now subst t'.
  - destruct IH as (Hnd & Hused).
    split; [now apply NoDup_remove_handle |].
    intros h' Hin'. apply in_remove in Hin'. destruct Hin' as (Hin' & Hne).
    rewrite (columbus_ipc_put_channel_effect _ _ _ Hput) by exact Hne.
    now apply Hused.
Qed.

(** ** Running out of interrupt-capable slots *)

Lemma slot_occupied_insert (l : list ipc_channel) (i j : Z) (x : ipc_channel) :
  0 <= i -> used x <> IPC_CHANNEL_UNUSED ->
  slot_occupied l j -> slot_occupied (<[Z.to_nat i := x]> l) j.
Proof.
  intros Hi Hx (Hj & c & Hc & Hu). split; [exact Hj |].
  destruct (Z.eq_dec i j) as [-> | Hne].
  - exists x. split; [| exact Hx].
    apply list_lookup_insert_eq. eapply lookup_lt_Some; eauto.
  - exists c. split; [| exact Hu].
    rewrite list_lookup_insert_ne by lia. exact Hc.
Qed.

Lemma slot_occupied_stamped (l : list ipc_channel) (i : Z) (p o m : Z) :
  slot_unused l i -> slot_occupied (<[Z.to_nat i := stamped p o m]> l) i.
Proof.
  intros (Hi & c & Hc & _). split; [exact Hi |].
  exists (stamped p o m). split.
  - apply list_lookup_insert_eq. eapply lookup_lt_Some; eauto.
  - cbn. unfold IPC_CHANNEL_USED, IPC_CHANNEL_UNUSED. lia.
Qed.

Lemma slot_unused_not_occupied (l : list ipc_channel) (i : Z) :
  slot_unused l i -> slot_occupied l i -> False.
Proof.
  intros (_ & c & Hc & Hu) (_ & c' & Hc' & Hu'). congruence.
Qed.

Lemma tables_wf_set_table (t : channel_tables) (which : channel_table)
    (i : nat) (x : ipc_channel) :
  tables_wf t -> tables_wf (set_table t which (<[i := x]> (table_of t which))).
Proof.
  intros [Hrf Hplc]. destruct which; split; cbn; rewrite ?length_insert;
    assumption.
Qed.

Section Exhaustion.
Context {P : Platform}.
Variables partner operation mode : Z.
Hypothesis Hpartner :
  partner = IPC_PARTNER_RF_DSP \/ partner = IPC_PARTNER_PLC_DSP.
Hypothesis Hoperation :
  operation = IPC_SEND_OPERATION \/ operation = IPC_RECEIVE_OPERATION.
Hypothesis Hmode :
  mode = IPC_COMMUNICATION_INT \/ mode = IPC_COMMUNICATION_POLL.

(** After [n] successful acquisitions at will, on top of [m] leading
    occupied slots, the first [m + n] slots are occupied; slots outside the
    mode's range are as they were. *)
Lemma get_channels_in_a_row_fills (n : nat) :
  forall (t t' : channel_tables) (hs : list (option channel_handle)) (m : Z),
    tables_wf t -> 0 <= m ->
    (forall j, 0 <= j < m -> slot_occupied (table_of t (table_for partner)) j) ->
    get_channels_in_a_row n t partner operation mode = Done (hs, t') ->
    (forall h, In h hs -> h <> None) ->
    tables_wf t'
    /\ (forall j, 0 <= j < m + Z.of_nat n ->
                  slot_occupied (table_of t' (table_for partner)) j)
    /\ (forall j, slots_for mode <= j ->
                  table_of t' (table_for partner) !! Z.to_nat j
                  = table_of t (table_for partner) !! Z.to_nat j).
Proof.
  induction n as [| n IH]; intros t t' hs m Hwf Hm Hocc Hrow Hall.
  - cbn [get_channels_in_a_row] in Hrow. injection Hrow as <- <-.
    split; [exact Hwf |]. split; [| reflexivity].
    intros j Hj. apply Hocc. lia.
  - cbn [get_channels_in_a_row] in Hrow.
    destruct (columbus_ipc_get_channel_spec t partner operation mode
                COLUMBUS_IPC_INVALID Hwf Hpartner Hoperation Hmode
                ltac:(left; reflexivity))
      as [(i & Hget & Hi & Hunused & _ & Hbelow) | (Hget & _)];
      rewrite Hget in Hrow; cbn [obind] in Hrow.
    2:{ destruct (get_channels_in_a_row n t partner operation mode)
          as [[hs' t''] | | |]; cbn [obind] in Hrow; try discriminate.
        injection Hrow as <- <-. exfalso. apply (Hall None); [now left | reflexivity]. }
    set (t1 := set_table t (table_for partner)
                 (<[Z.to_nat i := stamped partner operation mode]>
                    (table_of t (table_for partner)))) in *.
    destruct (get_channels_in_a_row n t1 partner operation mode)
      as [[hs' t''] | | |] eqn:Hrest; cbn [obind] in Hrow; try discriminate.
    injection Hrow as <- <-.
    assert (Him : m <= i).
    { destruct (Z.le_gt_cases m i) as [Hle | Hgt]; [exact Hle |].
      exfalso. apply (slot_unused_not_occupied _ i Hunused), Hocc. lia. }
    destruct (IH t1 t'' hs' (i + 1)) as (Hwf' & Hfill & Hout); try lia.
    + apply tables_wf_set_table. exact Hwf.
    + intros j Hj. unfold t1. rewrite table_of_set_table.
      destruct (Z.eq_dec j i) as [-> | Hne].
      * apply slot_occupied_stamped. exact Hunused.
      * apply slot_occupied_insert; [lia | cbn; discriminate |].
        apply Hbelow; [reflexivity | lia].
    + exact Hrest.
    + intros h Hh. apply Hall. now right.
    + split; [exact Hwf' |]. split.
      * intros j Hj. apply Hfill. lia.
      * intros j Hj. rewrite Hout by exact Hj. unfold t1.
        rewrite table_of_set_table. apply list_lookup_insert_ne. lia.
Qed.

End Exhaustion.

(** C4.  On a well-formed call [columbus_ipc_get_channel] returns a handle
    only to a slot whose [used] flag was IPC_CHANNEL_UNUSED -- the appointed
    slot when one is given, otherwise the lowest unused slot among the first
    8 (interrupt mode) or all 16 (poll mode) -- and leaves that slot marked
    used; it returns NULL, changing nothing, when the appointed slot is
    occupied or the range has no unused slot.  Hence the handles clients
    hold never share a slot; after 8 successful interrupt-mode acquisitions
    in a row on one partner the next interrupt-mode acquisition returns NULL
    while a poll-mode one succeeds in slots 8-15 if one of them was unused;
    from the initial tables the 8 acquisitions take slots 0-7 and the
    poll-mode one takes slot 8. *)
Theorem columbus_ipc_get_channel_exclusive_slots {P : Platform}
    (t : channel_tables) (partner operation mode appointed_channel : Z) :
  tables_wf t ->
  partner = IPC_PARTNER_RF_DSP \/ partner = IPC_PARTNER_PLC_DSP ->
  operation = IPC_SEND_OPERATION \/ operation = IPC_RECEIVE_OPERATION ->
  mode = IPC_COMMUNICATION_INT \/ mode = IPC_COMMUNICATION_POLL ->
  appointed_channel = COLUMBUS_IPC_INVALID
  \/ 0 <= appointed_channel < slots_for mode ->
  ((exists i,
      columbus_ipc_get_channel t partner operation mode appointed_channel
      = Done (Some (mk_handle (table_for partner) i),
              set_table t (table_for partner)
                (<[Z.to_nat i := stamped partner operation mode]>
                   (table_of t (table_for partner))))
      /\ 0 <= i < slots_for mode
      /\ slot_unused (table_of t (table_for partner)) i
      /\ (appointed_channel <> COLUMBUS_IPC_INVALID -> i = appointed_channel)
      /\ (appointed_channel = COLUMBUS_IPC_INVALID ->
          forall j, 0 <= j < i ->
                    slot_occupied (table_of t (table_for partner)) j))
   \/ (columbus_ipc_get_channel t partner operation mode appointed_channel
       = Done (None, t)
       /\ (appointed_channel <> COLUMBUS_IPC_INVALID ->
           slot_occupied (table_of t (table_for partner)) appointed_channel)
       /\ (appointed_channel = COLUMBUS_IPC_INVALID ->
           forall j, 0 <= j < slots_for mode ->
                     slot_occupied (table_of t (table_for partner)) j)))
  /\ (forall t0 live, reachable t0 live ->
        List.NoDup live
        /\ forall h, In h live ->
             exists c, deref t0 h = Done c /\ used c = IPC_CHANNEL_USED)
  /\ (forall t' hs operation',
        operation' = IPC_SEND_OPERATION \/ operation' = IPC_RECEIVE_OPERATION ->
        get_channels_in_a_row 8 t partner operation IPC_COMMUNICATION_INT
        = Done (hs, t') ->
        (forall h, In h hs -> h <> None) ->
        columbus_ipc_get_channel t' partner operation' IPC_COMMUNICATION_INT
          COLUMBUS_IPC_INVALID = Done (None, t')
        /\ ((exists j, 8 <= j < 16
                       /\ slot_unused (table_of t (table_for partner)) j) ->
            exists i t'',
              columbus_ipc_get_channel t' partner operation'
                IPC_COMMUNICATION_POLL COLUMBUS_IPC_INVALID
              = Done (Some (mk_handle (table_for partner) i), t'')
              /\ 8 <= i < 16))
  /\ (exists t8 t9,
        get_channels_in_a_row 8 initial_tables IPC_PARTNER_RF_DSP
          IPC_RECEIVE_OPERATION IPC_COMMUNICATION_INT
        = Done (map (fun i => Some (mk_handle rf_table i))
                    [0; 1; 2; 3; 4; 5; 6; 7], t8)
        /\ columbus_ipc_get_channel t8 IPC_PARTNER_RF_DSP
             IPC_RECEIVE_OPERATION IPC_COMMUNICATION_INT COLUMBUS_IPC_INVALID
           = Done (None, t8)
        /\ columbus_ipc_get_channel t8 IPC_PARTNER_RF_DSP
             IPC_RECEIVE_OPERATION IPC_COMMUNICATION_POLL COLUMBUS_IPC_INVALID
           = Done (Some (mk_handle rf_table 8), t9)).
Proof.
  intros Hwf Hpartner Hop Hmode Happ.
  split; [now apply columbus_ipc_get_channel_spec |].
  split; [exact reachable_live_handles |].
  split.
  - intros t' hs operation' Hop' Hrow Hall.
    destruct (get_channels_in_a_row_fills partner operation
                IPC_COMMUNICATION_INT Hpartner Hop ltac:(left; reflexivity)
                8 t t' hs 0 Hwf ltac:(lia) ltac:(intros; lia) Hrow Hall)
      as (Hwf' & Hfill & Hout).
    change (slots_for IPC_COMMUNICATION_INT) with 8 in Hout.
    change (0 + Z.of_nat 8) with 8 in Hfill.
    split.
    + destruct (columbus_ipc_get_channel_spec t' partner operation'
                  IPC_COMMUNICATION_INT COLUMBUS_IPC_INVALID Hwf' Hpartner Hop'
                  ltac:(left; reflexivity) ltac:(left; reflexivity))
        as [(i & _ & Hi & Hunused & _) | (Hnone & _)]; [| exact Hnone].
      change (slots_for IPC_COMMUNICATION_INT) with 8 in Hi.
      exfalso. apply (slot_unused_not_occupied _ i Hunused), Hfill. exact Hi.
    + intros (j & Hj & (Hj0 & c & Hc & Hu)).
      destruct (columbus_ipc_get_channel_spec t' partner operation'
                  IPC_COMMUNICATION_POLL COLUMBUS_IPC_INVALID Hwf' Hpartner Hop'
                  ltac:(right; reflexivity) ltac:(left; reflexivity))
        as [(i & Hget & Hi & Hunused & _) | (_ & _ & Hfull)].
      * change (slots_for IPC_COMMUNICATION_POLL) with 16 in Hi.
        exists i. eexists. split; [exact Hget |].
        destruct (Z.le_gt_cases 8 i) as [Hle | Hgt]; [lia |].
        exfalso. apply (slot_unused_not_occupied _ i Hunused), Hfill. lia.
      * exfalso. specialize (Hfull eq_refl j).
        change (slots_for IPC_COMMUNICATION_POLL) with 16 in Hfull.
        destruct (Hfull ltac:(lia)) as (_ & c' & Hc' & Hu').
        rewrite Hout in Hc' by lia. congruence.
  - destruct P as [dbg ? ? ? ? ? ?].
    do 2 eexists. destruct dbg; vm_compute; repeat split; reflexivity.
Qed.

Lemma initial_tables_wf : tables_wf initial_tables.
Proof. split; reflexivity. Qed.

Lemma columbus_ipc_get_channel_exclusive_slots_witness :
  tables_wf initial_tables /\
  @columbus_ipc_get_channel bench_debug initial_tables IPC_PARTNER_RF_DSP
    IPC_RECEIVE_OPERATION IPC_COMMUNICATION_INT COLUMBUS_IPC_INVALID
  = Done (Some (mk_handle rf_table 0),
          set_table initial_tables rf_table
            (<[0%nat := stamped IPC_PARTNER_RF_DSP IPC_RECEIVE_OPERATION
                                IPC_COMMUNICATION_INT]>
               (ipc_rf_channel initial_tables))).
Proof.
  split; [exact initial_tables_wf |].
  destruct (@columbus_ipc_get_channel_exclusive_slots bench_debug
              initial_tables IPC_PARTNER_RF_DSP IPC_RECEIVE_OPERATION
              IPC_COMMUNICATION_INT COLUMBUS_IPC_INVALID
              initial_tables_wf
              (or_introl eq_refl) (or_intror eq_refl) (or_introl eq_refl)
              (or_introl eq_refl))
    as ([(i & Hget & _) | (Hnone & _)] & _).
  - vm_compute. reflexivity.
  - vm_compute in Hnone. discriminate.
Defined.

(** ** Sending *)

Lemma deref_slot_nonneg (t : channel_tables) (h : channel_handle)
    (c : ipc_channel) :
  deref t h = Done c -> 0 <= h_slot h.
Proof.
  unfold deref, slot_read. destruct (Z.ltb_spec (h_slot h) 0); [discriminate |].
  intros _. assumption.
Qed.

(** A live handle resolves to its slot number, in either build. *)
Lemma channel2num_live {P : Platform} (t : channel_tables)
    (h : channel_handle) :
  handle_live t h -> channel2num t h = Done (h_slot h).
Proof.
  intros (c & Hc & _ & Hpartner & Htable & _ & Hmode & Hslot).
  pose proof (deref_slot_nonneg t h c Hc) as H0.
  unfold channel2num. rewrite Hc. cbn [obind].
  assert (Hch : get_channels (partner c) = Done (h_table h)).
  { rewrite Htable. unfold get_channels, table_for.
    destruct Hpartner as [-> | ->]; cbn [Z.eqb Pos.eqb negb];
      rewrite ?IPC_BUG_false; reflexivity. }
  rewrite Hch. cbn [obind].
  replace (channel_table_eqb (h_table h) (h_table h)) with true
    by (destruct (h_table h); reflexivity).
  cbn [negb].
  assert (Hmax : get_max_channel (operation c) (mode c)
                 = Done (slots_for (mode c))).
  { unfold get_max_channel, slots_for.
    destruct Hmode as [-> | ->]; cbn [Z.eqb Pos.eqb negb];
      rewrite ?IPC_BUG_false; reflexivity. }
  rewrite Hmax.
  replace (h_slot h <? 0) with false by lia.
  rewrite IPC_BUG_false. cbn [obind].
  replace (h_slot h >=? slots_for (mode c)) with false by lia.
  cbn [orb]. rewrite IPC_BUG_false. reflexivity.
Qed.

(** The handle a well-formed [columbus_ipc_get_channel] returns is live. *)
Lemma columbus_ipc_get_channel_live {P : Platform} (t t' : channel_tables)
    (partner operation mode appointed_channel : Z) (h : channel_handle) :
  tables_wf t ->
  partner = IPC_PARTNER_RF_DSP \/ partner = IPC_PARTNER_PLC_DSP ->
  operation = IPC_SEND_OPERATION \/ operation = IPC_RECEIVE_OPERATION ->
  mode = IPC_COMMUNICATION_INT \/ mode = IPC_COMMUNICATION_POLL ->
  appointed_channel = COLUMBUS_IPC_INVALID
  \/ 0 <= appointed_channel < slots_for mode ->
  columbus_ipc_get_channel t partner operation mode appointed_channel
  = Done (Some h, t') ->
  handle_live t' h.
Proof.
  intros Hwf Hpartner Hop Hmode Happ Hget.
  destruct (columbus_ipc_get_channel_spec t partner operation mode
              appointed_channel Hwf Hpartner Hop Hmode Happ)
    as [(i & Hget' & Hi & (_ & c & Hc & _) & _) | (Hnone & _)];
    [| rewrite Hnone in Hget; discriminate].
  rewrite Hget' in Hget. injection Hget as <- <-.
  exists (stamped partner operation mode).
  split.
  - unfold deref. cbn [h_table h_slot]. rewrite table_of_set_table.
    apply slot_read_Done; [lia |].
    apply list_lookup_insert_eq. eapply lookup_lt_Some; eauto.
  - unfold stamped. cbn.
    repeat split; try assumption; try reflexivity; lia.
Qed.

(** C10.  Called with [len == 0] on a live handle,
    [columbus_ipc_send_message] returns 0 at once, for every message
    pointer, page number and partner behaviour: the machine afterwards is
    the machine before, so no page changed owner, no register was written
    and shared RAM is untouched. *)
Theorem columbus_ipc_send_message_len_zero {P : Platform} (m : machine)
    (channel : channel_handle) (message : list Z) (page_num : Z)
    (flag_reads : list Z) :
  handle_live (tables m) channel ->
  columbus_ipc_send_message m channel message 0 page_num flag_reads
  = Done (0, m)
  /\ forall r m',
       columbus_ipc_send_message m channel message 0 page_num flag_reads
       = Done (r, m') ->
       r = 0 /\ io m' = io m /\ log m' = log m
       /\ ownership_vector (io m') = ownership_vector (io m).
Proof.
  intros Hlive.
  assert (Hsend : columbus_ipc_send_message m channel message 0 page_num
                    flag_reads = Done (0, m)).
  { unfold columbus_ipc_send_message.
    rewrite (channel2num_live _ _ Hlive). cbn [obind].
    destruct Hlive as (c & -> & _). reflexivity. }
  split; [exact Hsend |].
  intros r m'. rewrite Hsend. intros [= <- <-]. auto.
Qed.

(** The loop leaves after exactly [S n] reads when read [n] is the first
    to return zero for the whole register. *)
Lemma send_wait_loop_exit (flag_reads : list Z) :
  forall (ipc_flag : Z) (n : nat),
    ipc_flag <> 0 ->
    (send_wait_loop flag_reads ipc_flag = Done (S n)
     <-> (exists v, nth_error flag_reads n = Some v /\ u32 v = 0)
         /\ forall k v, (k < n)%nat -> nth_error flag_reads k = Some v ->
                        u32 v <> 0).
Proof.
  induction flag_reads as [| v0 rest IH]; intros ipc_flag n Hflag.
  - cbn [send_wait_loop]. replace (ipc_flag =? 0) with false by lia.
    split; [discriminate |].
    intros ((v & Hv & _) & _). destruct n; discriminate.
  - cbn [send_wait_loop]. replace (ipc_flag =? 0) with false by lia.
    destruct (Z.eq_dec (u32 v0) 0) as [Hz | Hnz].
    + assert (Hrest : send_wait_loop rest (u32 v0) = Done O).
      { destruct rest; cbn [send_wait_loop]; now rewrite Hz. }
      rewrite Hrest. cbn [obind]. split.
      * intros [= <-]. split; [exists v0; auto |]. intros k v Hk. lia.
      * intros (_ & Hbefore). destruct n as [| n]; [reflexivity |].
        exfalso. apply (Hbefore O v0); [lia | reflexivity | exact Hz].
    + destruct n as [| n].
      * split.
        -- destruct (send_wait_loop rest (u32 v0)) as [k | | |] eqn:Hrun;
             cbn [obind]; try discriminate.
           intros [= ->]. exfalso.
           destruct rest; cbn [send_wait_loop] in Hrun;
             replace (u32 v0 =? 0) with false in Hrun by lia;
             try discriminate.
           destruct (send_wait_loop _ _); discriminate.
        -- intros ((v & [= <-] & Hz) & _). contradiction.
      * specialize (IH (u32 v0) n Hnz). split.
        -- destruct (send_wait_loop rest (u32 v0)) as [k | | |] eqn:Hrun;
             cbn [obind]; try discriminate.
           intros [= ->]. destruct (proj1 IH eq_refl) as (Hex & Hbefore).
           split; [exact Hex |].
           intros [| k] v Hk Hv; [injection Hv as <-; exact Hnz |].
           apply (Hbefore k v); [lia | exact Hv].
        -- intros (Hex & Hbefore).
           rewrite (proj2 IH); [reflexivity |].
           split; [exact Hex |].
           intros k v Hk Hv. apply (Hbefore (S k) v); [lia | exact Hv].
Qed.

Lemma machine_with_live (i : nat) (operation mode : Z) :
  (i < 8)%nat ->
  operation = IPC_SEND_OPERATION \/ operation = IPC_RECEIVE_OPERATION ->
  mode = IPC_COMMUNICATION_INT \/ mode = IPC_COMMUNICATION_POLL ->
  handle_live
    (tables (machine_with rf_table i IPC_PARTNER_RF_DSP operation mode))
    (mk_handle rf_table (Z.of_nat i)).
Proof.
  intros Hi Hop Hmode. exists (stamped IPC_PARTNER_RF_DSP operation mode).
  split.
  - unfold deref, machine_with. cbn [tables h_table h_slot].
    rewrite table_of_set_table. apply slot_read_Done; [lia |].
    rewrite Nat2Z.id. apply list_lookup_insert_eq. cbn. lia.
  - unfold stamped. cbn.
    repeat split; try assumption; try reflexivity; try (now left).
    unfold slots_for, IPC_IRQ_CHANNEL_NUM, A7_RF_IPC_CHANNEL_NUM.
    destruct (mode =? IPC_COMMUNICATION_INT); lia.
Qed.

Lemma columbus_ipc_send_message_len_zero_witness :
  handle_live
    (tables (machine_with rf_table 3 IPC_PARTNER_RF_DSP IPC_SEND_OPERATION
                          IPC_COMMUNICATION_POLL))
    (mk_handle rf_table 3)
  /\ @columbus_ipc_send_message bench_debug
       (machine_with rf_table 3 IPC_PARTNER_RF_DSP IPC_SEND_OPERATION
                     IPC_COMMUNICATION_POLL)
       (mk_handle rf_table 3) [] 0 7 []
     = Done (0, machine_with rf_table 3 IPC_PARTNER_RF_DSP IPC_SEND_OPERATION
                             IPC_COMMUNICATION_POLL).
Proof.
  assert (Hlive : handle_live
            (tables (machine_with rf_table 3 IPC_PARTNER_RF_DSP
                                  IPC_SEND_OPERATION IPC_COMMUNICATION_POLL))
            (mk_handle rf_table 3)).
  { apply (machine_with_live 3); [lia | now left | now right]. }
  split; [exact Hlive |].
  apply (@columbus_ipc_send_message_len_zero bench_debug _ _ [] 7 [] Hlive).
Defined.

(** With a message to send, the same call does allocate, write and wait. *)
Example columbus_ipc_send_message_four_bytes :
  match @columbus_ipc_send_message bench_debug
          (machine_with rf_table 3 IPC_PARTNER_RF_DSP IPC_SEND_OPERATION
                        IPC_COMMUNICATION_POLL)
          (mk_handle rf_table 3) [10; 20; 30; 40] 4 (-1) [8; 0]
  with
  | Done (r, m') =>
      r = 4
      /\ log m' = [Iowrite32 1 A7TORFIPCCOMM;
                   Iowrite32 0x40200000 A7TORFIPCADDR;
                   Iowrite32 4 A7TORFIPCDATA0;
                   Iowrite32 0xFFFF0000 A7TORFIPCDATA1;
                   Iowrite32 8 A7TORFIPCSET;
                   Iowrite32 8 RFTOA7IPCACK]
      /\ io m' = mk_sram_regs 0 0
      /\ map (shared_ram m') [0xC8800000; 0xC8800001; 0xC8800002; 0xC8800003]
         = [10; 20; 30; 40]
  | _ => False
  end.
Proof. vm_compute. repeat split; reflexivity. Qed.

(** C5 (the code departs from the claim).  Channel 0 sends to the RF DSP;
    the flag register then reads 0x2: bit 0, this channel's, is clear, bit 1
    belongs to another channel.  The wait loop does not leave at that read.
    It leaves only at the next read, of 0x0; and if the register keeps
    reading 0x2 the sender stays blocked.  The loop tests the whole
    register, not the channel's bit. *)
Theorem send_wait_loop_tests_whole_register :
  Z.land 2 (Z.shiftl 1 0) = 0
  /\ send_wait_loop [2; 0] (u32 (Z.shiftl 1 0)) = Done 2%nat
  /\ send_wait_loop [2; 2; 2] (u32 (Z.shiftl 1 0)) = Blocked
  /\ @columbus_ipc_send_message bench
       (machine_with rf_table 0 IPC_PARTNER_RF_DSP IPC_SEND_OPERATION
                     IPC_COMMUNICATION_POLL)
       (mk_handle rf_table 0) [10; 20; 30; 40] 4 (-1) [2; 2; 2] = Blocked.
Proof.
  repeat split; vm_compute; reflexivity.
Qed.

(** ** The interrupt handler *)

Lemma IPC_BUG_nodebug {P : Platform} (cond : bool) :
  DEBUG = false -> IPC_BUG cond = Done tt.
Proof. intros H. unfold IPC_BUG. now rewrite H. Qed.

(** C9 as stated fails: slot 2 of the RF table is a send-direction channel
    in interrupt mode; when its line fires, the handler signals the
    completion of line 2. *)
Lemma irq_handler_completes_send_channel :
  exists c m',
    slot_read
      (ipc_rf_channel
         (tables (machine_with rf_table 2 IPC_PARTNER_RF_DSP
                               IPC_SEND_OPERATION IPC_COMMUNICATION_INT))) 2
    = Done c
    /\ operation c = IPC_SEND_OPERATION
    /\ @columbus_ipc_irq_handler bench_debug
         (machine_with rf_table 2 IPC_PARTNER_RF_DSP IPC_SEND_OPERATION
                       IPC_COMMUNICATION_INT) 2 = Done m'
    /\ irq_done (machine_with rf_table 2 IPC_PARTNER_RF_DSP IPC_SEND_OPERATION
                              IPC_COMMUNICATION_INT) !! 2%nat = Some 0
    /\ irq_done m' !! 2%nat = Some 1.
Proof.
  do 2 eexists. vm_compute. repeat split; reflexivity.
Qed.

(** C9, amended.  Whatever the direction of the interrupting channel, the
    handler signals the completion of the interrupting line once and then
    ends by writing the channel's bit to the acknowledge register of the
    partner the line belongs to; it changes nothing else.  Send and receive
    channels differ in what is logged only. *)
Theorem columbus_ipc_irq_handler_completes_and_acks {P : Platform}
    (m : machine) (line : Z) (c : ipc_channel) (d : Z) :
  0 <= line < 16 ->
  line_armed (tables m) line c ->
  irq_done m !! Z.to_nat line = Some d ->
  columbus_ipc_irq_handler m line
  = Done (mk_machine (io m) (tables m)
            (<[Z.to_nat line := d + 1]> (irq_done m)) (shared_ram m)
            (log m ++ [Iowrite32 (u32 (Z.shiftl 1 (line_channel line)))
                                 (line_ack line)])).
Proof.
  intros Hline (Hc & Hused & Hmode & Hpartner & Hop) Hd.
  unfold columbus_ipc_irq_handler, IPC_IRQ_CHANNEL_NUM.
  replace (line <? 0) with false by lia.
  replace (line >=? 8 + 8) with false by lia.
  rewrite !IPC_BUG_false. cbn [obind].
  unfold line_armed, line_table, line_channel, line_ack,
    IPC_IRQ_CHANNEL_NUM in *.
  destruct (Z.ltb_spec line 8) as [Hrf | Hplc]; cbn [table_of] in Hc;
    rewrite Hc; cbn [obind]; rewrite Hpartner; cbn [Z.eqb Pos.eqb negb];
    rewrite IPC_BUG_false; cbn [obind]; rewrite Hused, Hmode;
    cbn [Z.eqb Pos.eqb negb]; rewrite !IPC_BUG_false; cbn [obind];
    (replace (if operation c =? IPC_SEND_OPERATION
              then Done tt
              else IPC_BUG (negb (operation c =? IPC_RECEIVE_OPERATION)))
       with (@Done unit tt)
       by (destruct Hop as [-> | ->]; cbn [Z.eqb Pos.eqb negb];
           rewrite ?IPC_BUG_false; reflexivity));
    cbn [obind]; rewrite Hd; reflexivity.
Qed.

Lemma columbus_ipc_irq_handler_completes_and_acks_witness :
  @columbus_ipc_irq_handler bench_debug
    (machine_with plc_table 5 IPC_PARTNER_PLC_DSP IPC_RECEIVE_OPERATION
                  IPC_COMMUNICATION_INT) 13
  = Done (mk_machine (mk_sram_regs 0 0)
            (tables (machine_with plc_table 5 IPC_PARTNER_PLC_DSP
                                  IPC_RECEIVE_OPERATION IPC_COMMUNICATION_INT))
            (<[13%nat := 1]> (repeat 0 16)) (fun _ => 0)
            [Iowrite32 32 PLCTOA7IPCACK]).
Proof.
  apply (@columbus_ipc_irq_handler_completes_and_acks bench_debug
           (machine_with plc_table 5 IPC_PARTNER_PLC_DSP IPC_RECEIVE_OPERATION
                         IPC_COMMUNICATION_INT)
           13 (stamped IPC_PARTNER_PLC_DSP IPC_RECEIVE_OPERATION
                       IPC_COMMUNICATION_INT) 0).
  - lia.
  - unfold line_armed. repeat split; try reflexivity. now right.
  - reflexivity.
Defined.

(** ** Receiving *)

Lemma irq_handler_keeps {P : Platform} (m m' : machine) (line : Z) :
  columbus_ipc_irq_handler m line = Done m' ->
  tables m' = tables m /\ shared_ram m' = shared_ram m /\ io m' = io m.
Proof.
  unfold columbus_ipc_irq_handler.
  do 2 (destruct (IPC_BUG _); cbn [obind]; try discriminate).
  destruct (line <? IPC_IRQ_CHANNEL_NUM);
    (destruct (slot_read _ _) as [channel | | |]; cbn [obind];
     try discriminate);
    do 3 (destruct (IPC_BUG _); cbn [obind]; try discriminate);
    (destruct (if operation channel =? IPC_SEND_OPERATION then _ else _);
     cbn [obind]; try discriminate);
    (destruct (line <? 0); cbn [obind]; try discriminate);
    (destruct (irq_done m !! Z.to_nat line); cbn [obind]; try discriminate);
    intros [= <-]; auto.
Qed.

(** The wait changes neither the tables nor shared RAM nor page ownership. *)
Lemma receive_wait_keeps {P : Platform} (m m1 : machine) (c : ipc_channel)
    (n : Z) (env : receive_input) :
  receive_wait m c n env = Done m1 ->
  tables m1 = tables m /\ shared_ram m1 = shared_ram m /\ io m1 = io m.
Proof.
  unfold receive_wait.
  destruct (mode c =? IPC_COMMUNICATION_INT).
  - match goal with
    | |- obind ?r _ = _ -> _ => destruct r
    end; cbn [obind]; try discriminate.
    match goal with
    | |- obind ?r _ = _ -> _ => destruct r as [m2 | | |] eqn:Hirq
    end; cbn [obind]; try discriminate.
    assert (H2 : tables m2 = tables m /\ shared_ram m2 = shared_ram m
                 /\ io m2 = io m).
    { destruct (irq_arrives env).
      - apply irq_handler_keeps in Hirq. exact Hirq.
      - injection Hirq as <-. auto. }
    unfold wait_for_completion.
    destruct (_ <? 0); cbn [obind]; try discriminate.
    destruct (irq_done m2 !! _) as [d |]; cbn [obind]; try discriminate.
    destruct (d =? 0); cbn [obind]; try discriminate.
    intros [= <-]. exact H2.
  - destruct (IPC_BUG _); cbn [obind]; try discriminate.
    destruct (receive_poll_loop _ _); cbn [obind]; try discriminate.
    intros [= <-]. auto.
Qed.

Lemma acked_keeps (m : machine) (c : ipc_channel) (n : Z) :
  tables (acked m c n) = tables m /\ shared_ram (acked m c n) = shared_ram m.
Proof. unfold acked. destruct (partner c =? _); auto. Qed.

(** What the retrieval does for a DataReady command once [kmalloc]
    succeeded: it returns a buffer of the advertised length, filled by a
    [memcpy] from [message_source] when the marker is there and left as
    allocated when it is not. *)
Lemma receive_retrieve_data_ready {P : Platform} (m : machine)
    (channel : channel_handle) (c : ipc_channel) (env : receive_input) :
  deref (tables m) channel = Done c ->
  u32 (in_command env) = u32 IPC_DATA_READ ->
  DEBUG = false \/ (header_ok c env /\ phys_mapped) ->
  kmalloc_ok env = true ->
  receive_retrieve m channel env
  = (msg_buf <-
       (if Z.shiftr (u32 (in_data1 env)) 16 =? u32 IPC_END_MSG then
          if in_sram (message_source c env) (u32 (in_data0 env))
          then Done (memcpy_out (shared_ram m) (message_source c env)
                                (u32 (in_data0 env)))
          else Stray
        else Done (repeat None (Z.to_nat (u32 (in_data0 env))))) ;;;
     Done (mk_received (to_int (u32 (in_data0 env)))
             (Some (Buffer msg_buf, u32 (in_data0 env))), m)).
Proof.
  intros Hc Hcmd Hok Hmem.
  unfold receive_retrieve. rewrite Hcmd, Z.eqb_refl.
  unfold is_valid_address, address_from_a7_view, phy2vir. rewrite Hc.
  cbn [obind]. rewrite Hmem. cbn [negb].
  unfold message_source.
  destruct Hok as [Hprod | ((Hwin & Hal & Hlen) & (Hp0 & Hp1))].
  - destruct (partner c =? IPC_PARTNER_RF_DSP);
      repeat match goal with
             | |- context [if ?b then _ else _] =>
                 match b with
                 | (_ >=? _) && (_ <? _) => destruct b
                 end
             end;
      cbn [obind]; rewrite ?(IPC_BUG_nodebug _ Hprod); cbn [obind];
      rewrite ?(IPC_BUG_nodebug _ Hprod); reflexivity.
  - unfold COLUMBUS_IPC_SRAM_SIZE, COLUMBUS_IPC_PAGE_SIZE in *.
    assert (Hoff : forall view,
               view <= u32 (in_address env) < view + 32768 ->
               sram_phy <= u32 (sram_phy + u32 (u32 (in_address env) - view))
               < sram_phy + 32768).
    { intros view Hv.
      assert (Hin : u32 (u32 (in_address env) - view)
                    = u32 (in_address env) - view)
        by (apply Z.mod_small; lia).
      rewrite Hin.
      assert (Hout : u32 (sram_phy + (u32 (in_address env) - view))
                     = sram_phy + (u32 (in_address env) - view))
        by (apply Z.mod_small; lia).
      rewrite Hout. lia. }
    destruct (partner c =? IPC_PARTNER_RF_DSP);
      specialize (Hoff _ Hwin);
      match goal with
      | |- context [(?a >=? ?lo) && (?a <? ?hi)] =>
          replace ((a >=? lo) && (a <? hi)) with true by lia
      end;
      rewrite Z.rem_mod_nonneg by (pose proof (u32_range (in_address env)); lia);
      rewrite Hal; cbn [Z.eqb negb]; rewrite IPC_BUG_false; cbn [obind Z.eqb];
      rewrite IPC_BUG_false; cbn [obind];
      match goal with
      | |- context [(?a <? ?lo) || (?a >=? ?hi)] =>
          replace ((a <? lo) || (a >=? hi)) with false by lia
      end;
      rewrite IPC_BUG_false; cbn [obind];
      replace (u32 (in_data0 env) >? 32768) with false by lia;
      rewrite IPC_BUG_false; reflexivity.
Qed.

Lemma memcpy_out_length (mem : Z -> Z) (src n : Z) :
  length (memcpy_out mem src n) = Z.to_nat n.
Proof. unfold memcpy_out. now rewrite length_map, length_seq. Qed.

Lemma memcpy_out_nth (mem : Z -> Z) (src n k : Z) :
  0 <= k < n ->
  nth (Z.to_nat k) (memcpy_out mem src n) None = Some (mem (src + k)).
Proof.
  intros Hk. unfold memcpy_out.
  rewrite (nth_indep _ None (Some (mem (src + Z.of_nat 0))))
    by (rewrite length_map, length_seq; lia).
  rewrite (map_nth (fun i => Some (mem (src + Z.of_nat i)))).
  rewrite seq_nth by lia. cbn [Nat.add]. now rewrite Z2Nat.id by lia.
Qed.

Lemma repeat_None_nth (n : nat) (k : nat) (d : option Z) :
  (k < n)%nat -> nth k (repeat (@None Z) n) d = None.
Proof.
  intros Hk. apply (@repeat_spec _ n None).
  apply nth_In. now rewrite repeat_length.
Qed.

(** With an accepted header and both mappings inside the address space, the
    copy starts at the A7's virtual address with the same offset into the
    window as the partner's address has into the partner's view. *)
Lemma message_source_offset {P : Platform} (c : ipc_channel)
    (env : receive_input) :
  header_ok c env -> phys_mapped -> sram_mapped ->
  message_source c env
  = sram + (u32 (in_address env)
            - (if partner c =? IPC_PARTNER_RF_DSP
               then COLUMBUS_SRAM_RF_VIEW else COLUMBUS_SRAM_PLC_VIEW)).
Proof.
  intros (Hwin & _ & _) (Hp0 & Hp1) (Hm0 & Hm1 & _).
  unfold message_source.
  unfold COLUMBUS_IPC_SRAM_SIZE in *.
  set (view := if partner c =? IPC_PARTNER_RF_DSP
               then COLUMBUS_SRAM_RF_VIEW else COLUMBUS_SRAM_PLC_VIEW) in *.
  assert (Hin : u32 (u32 (in_address env) - view)
                = u32 (in_address env) - view)
    by (apply Z.mod_small; lia).
  rewrite Hin.
  assert (Hout : u32 (sram_phy + (u32 (in_address env) - view))
                 = sram_phy + (u32 (in_address env) - view))
    by (apply Z.mod_small; lia).
  rewrite Hout.
  replace (sram_phy + (u32 (in_address env) - view) - sram_phy)
    with (u32 (in_address env) - view) by lia.
  apply Z.mod_small. lia.
Qed.

(** C6.  In [columbus_ipc_receive_message], once the wait is over and the
    command register reads DataReady (and [kmalloc] found memory), the call
    returns the advertised length and a fresh buffer of that length.  The
    payload is copied into it from shared RAM exactly when the high half of
    the page-index word equals IPC_END_MSG: with the marker, cell [k] of the
    buffer holds the byte of shared RAM at the message address plus [k];
    without the marker every cell of the returned buffer is uninitialized.
    The message address is the A7's virtual address at the offset the
    header's address has into the partner's view.  The copy reads the
    advertised number of bytes from there without checking that they end
    inside the window; when they do not, it reads through a pointer past the
    mapping. *)
Theorem columbus_ipc_receive_message_copies_iff_end_marker {P : Platform}
    (m m1 : machine) (channel : channel_handle) (c : ipc_channel)
    (channel_num : Z) (env : receive_input) :
  channel2num (tables m) channel = Done channel_num ->
  deref (tables m) channel = Done c ->
  receive_wait (acked m c channel_num) c channel_num env = Done m1 ->
  u32 (in_command env) = u32 IPC_DATA_READ ->
  DEBUG = false \/ (header_ok c env /\ phys_mapped) ->
  kmalloc_ok env = true ->
  let data0 := u32 (in_data0 env) in
  let msg := message_source c env in
  (end_marked env -> in_sram msg data0 = true ->
   exists cells,
     columbus_ipc_receive_message m channel env
     = Done (mk_received (to_int data0) (Some (Buffer cells, data0)), m1)
     /\ length cells = Z.to_nat data0
     /\ forall k, 0 <= k < data0 ->
          nth (Z.to_nat k) cells None = Some (shared_ram m (msg + k)))
  /\ (~ end_marked env ->
      exists cells,
        columbus_ipc_receive_message m channel env
        = Done (mk_received (to_int data0) (Some (Buffer cells, data0)), m1)
        /\ length cells = Z.to_nat data0
        /\ forall k d, 0 <= k < data0 -> nth (Z.to_nat k) cells d = None)
  /\ (end_marked env -> in_sram msg data0 = false ->
      columbus_ipc_receive_message m channel env = Stray)
  /\ (header_ok c env -> phys_mapped -> sram_mapped ->
      msg = sram + (u32 (in_address env)
                    - (if partner c =? IPC_PARTNER_RF_DSP
                       then COLUMBUS_SRAM_RF_VIEW
                       else COLUMBUS_SRAM_PLC_VIEW))).
Proof.
  intros Hnum Hc Hwait Hcmd Hok Hmem data0 msg.
  destruct (receive_wait_keeps _ _ _ _ _ Hwait) as (Ht1 & Hs1 & _).
  destruct (acked_keeps m c channel_num) as (Ht0 & Hs0).
  rewrite Ht0 in Ht1. rewrite Hs0 in Hs1.
  assert (Hrun :
    columbus_ipc_receive_message m channel env = receive_retrieve m1 channel env).
  { unfold columbus_ipc_receive_message. rewrite Hnum, Hc. cbn [obind].
    fold (acked m c channel_num). rewrite Hwait. reflexivity. }
  rewrite Hrun.
  rewrite (receive_retrieve_data_ready m1 channel c env)
    by (try rewrite Ht1; assumption).
  rewrite Hs1. unfold end_marked. fold data0. fold msg.
  split; [| split; [| split]].
  - intros Hmark Hwin.
    rewrite (proj2 (Z.eqb_eq _ _) Hmark), Hwin. cbn [obind].
    eexists. split; [reflexivity |].
    split; [apply memcpy_out_length |].
    intros k Hk. now apply memcpy_out_nth.
  - intros Hnomark.
    rewrite (proj2 (Z.eqb_neq _ _) Hnomark). cbn [obind].
    eexists. split; [reflexivity |].
    split; [apply repeat_length |].
    intros k d Hk. apply repeat_None_nth. lia.
  - intros Hmark Hwin.
    rewrite (proj2 (Z.eqb_eq _ _) Hmark), Hwin. reflexivity.
  - apply message_source_offset.
Qed.

Lemma columbus_ipc_receive_message_copies_iff_end_marker_witness :
  (exists cells,
     @columbus_ipc_receive_message bench_debug sample_receiver
       (mk_handle rf_table 1) (sample_input 0xFFFF0001)
     = Done (mk_received 3 (Some (Buffer cells, 3)),
             @acked sample_receiver
               (stamped IPC_PARTNER_RF_DSP IPC_RECEIVE_OPERATION
                        IPC_COMMUNICATION_POLL) 1)
     /\ length cells = 3%nat
     /\ nth 0 cells None = Some ((0xC8800000 + 0x400) mod 251)
     /\ nth 1 cells None = Some ((0xC8800000 + 0x401) mod 251)
     /\ nth 2 cells None = Some ((0xC8800000 + 0x402) mod 251))
  /\ (exists cells,
        @columbus_ipc_receive_message bench_debug sample_receiver
          (mk_handle rf_table 1) (sample_input 0x00000001)
        = Done (mk_received 3 (Some (Buffer cells, 3)),
                @acked sample_receiver
                  (stamped IPC_PARTNER_RF_DSP IPC_RECEIVE_OPERATION
                           IPC_COMMUNICATION_POLL) 1)
        /\ nth 0 cells (Some 0) = None
        /\ nth 1 cells (Some 0) = None
        /\ nth 2 cells (Some 0) = None).
Proof.
  assert (Hheader : forall data1,
            header_ok
              (stamped IPC_PARTNER_RF_DSP IPC_RECEIVE_OPERATION
                       IPC_COMMUNICATION_POLL) (sample_input data1)
            /\ @phys_mapped bench_debug).
  { intros data1. split.
    - unfold header_ok. repeat split; vm_compute; congruence.
    - unfold phys_mapped. split; vm_compute; congruence. }
  split.
  - destruct (@columbus_ipc_receive_message_copies_iff_end_marker bench_debug
                sample_receiver
                (acked sample_receiver
                   (stamped IPC_PARTNER_RF_DSP IPC_RECEIVE_OPERATION
                            IPC_COMMUNICATION_POLL) 1)
                (mk_handle rf_table 1)
                (stamped IPC_PARTNER_RF_DSP IPC_RECEIVE_OPERATION
                         IPC_COMMUNICATION_POLL)
                1 (sample_input 0xFFFF0001)
                eq_refl eq_refl eq_refl eq_refl
                (or_intror (Hheader 0xFFFF0001)) eq_refl)
      as (Hcopy & _).
    destruct Hcopy as (cells & Hret & Hlen & Hcell).
    + unfold end_marked. vm_compute. reflexivity.
    + vm_compute. reflexivity.
    + exists cells. split; [exact Hret |]. split; [exact Hlen |].
      split; [exact (Hcell 0 ltac:(vm_compute; split; congruence)) |].
      split; [exact (Hcell 1 ltac:(vm_compute; split; congruence)) |].
      exact (Hcell 2 ltac:(vm_compute; split; congruence)).
  - destruct (@columbus_ipc_receive_message_copies_iff_end_marker bench_debug
                sample_receiver
                (acked sample_receiver
                   (stamped IPC_PARTNER_RF_DSP IPC_RECEIVE_OPERATION
                            IPC_COMMUNICATION_POLL) 1)
                (mk_handle rf_table 1)
                (stamped IPC_PARTNER_RF_DSP IPC_RECEIVE_OPERATION
                         IPC_COMMUNICATION_POLL)
                1 (sample_input 0x00000001)
                eq_refl eq_refl eq_refl eq_refl
                (or_intror (Hheader 0x00000001)) eq_refl)
      as (_ & Hblank & _).
    destruct Hblank as (cells & Hret & _ & Hcell).
    + unfold end_marked. vm_compute. discriminate.
    + exists cells. split; [exact Hret |].
      split; [exact (Hcell 0 _ ltac:(vm_compute; split; congruence)) |].
      split; [exact (Hcell 1 _ ltac:(vm_compute; split; congruence)) |].
      exact (Hcell 2 _ ltac:(vm_compute; split; congruence)).
Defined.

(** The same header with the marker set delivers the three bytes found in
    page 1 of shared RAM. *)
Example columbus_ipc_receive_message_with_marker :
  match @columbus_ipc_receive_message bench_debug sample_receiver
          (mk_handle rf_table 1) (sample_input 0xFFFF0001)
  with
  | Done (r, _) =>
      r = mk_received 3
            (Some (Buffer [Some ((0xC8800000 + 0x400) mod 251);
                           Some ((0xC8800000 + 0x401) mod 251);
                           Some ((0xC8800000 + 0x402) mod 251)], 3))
  | _ => False
  end.
Proof. vm_compute. reflexivity. Qed.

(** ** The driver's unit tests pass on the model *)

(** Freeing page 24 of the scenario of C1 gives the registers with pages
    2, 6, 11 and 17 occupied. *)
Example scenario_free_page_24 :
  @free_sram_pages bench_debug (occupied [2; 6; 11; 17; 24]) 24 1
  = Done (occupied [2; 6; 11; 17]).
Proof. vm_compute. reflexivity. Qed.


(** With the modelled controller and a DEBUG build (the only build that has
    the tests), every assertion of [unittest_sram_operation] holds and the
    test leaves all pages free. *)
Example unittest_sram_operation_passes (start_page : Z) :
  @unittest_sram_operation bench_debug (mk_sram_regs 0 0) start_page
  = Done (mk_sram_regs 0 0).
Proof. vm_compute. reflexivity. Qed.

(** Every assertion of [unittest_channel_operation] holds on the initial
    tables; the test leaves both tables without a used slot. *)
Example unittest_channel_operation_passes :
  match @unittest_channel_operation bench_debug initial_tables with
  | Done t =>
      forallb (fun c => used c =? IPC_CHANNEL_UNUSED)
              (ipc_rf_channel t ++ ipc_plc_channel t) = true
  | _ => False
  end.
Proof. vm_compute. reflexivity. Qed.


(** * Further properties of the driver *)

(** ** The ownership dump *)

Lemma status_name_bits (v : Z) :
  0 <= v < 4 ->
  nth (Z.to_nat v) Status.status String.EmptyString
  = status_name (ownership_of_bits v).
Proof.
  intros Hv.
  assert (v = 0 \/ v = 1 \/ v = 2 \/ v = 3) as [-> | [-> | [-> | ->]]] by lia;
    reflexivity.
Qed.

Lemma nth_map_seq {A : Type} (f : Z -> A) (n k : nat) (d : A) :
  (k < n)%nat -> nth k (map f (map Z.of_nat (seq 0 n))) d = f (Z.of_nat k).
Proof.
  intros Hk. rewrite map_map.
  rewrite (nth_indep _ d (f (Z.of_nat 0)))
    by (rewrite length_map, length_seq; exact Hk).
  rewrite (map_nth (fun i => f (Z.of_nat i))).
  now rewrite seq_nth by exact Hk.
Qed.

(** X1.  Under DEBUG [ipc_dump_shared_ram_ownership] logs 36 lines: a rule,
    the title, the two raw status registers, one line for each of the 32
    pages in page order, and a closing rule.  The status a page line names
    is the owner [get_sram_page_ownership] returns for that page.  Without
    DEBUG it logs nothing. *)
Theorem ipc_dump_agrees_with_accessor {P : Platform} (io : sram_regs) :
  (DEBUG = true ->
   length (ipc_dump_shared_ram_ownership io) = 36%nat
   /\ nth 0 (ipc_dump_shared_ram_ownership io) (dump_text String.EmptyString)
      = dump_text Status.rule
   /\ nth 1 (ipc_dump_shared_ram_ownership io) (dump_text String.EmptyString)
      = dump_text Status.title
   /\ nth 2 (ipc_dump_shared_ram_ownership io) (dump_text String.EmptyString)
      = dump_registers (u32 (SRMSEL0 io)) (u32 (SRMSEL1 io))
   /\ (forall p, 0 <= p < 32 ->
         exists o,
           get_sram_page_ownership io p = Done o
           /\ nth (3 + Z.to_nat p) (ipc_dump_shared_ram_ownership io)
                  (dump_text String.EmptyString)
              = dump_page p (status_name o))
   /\ nth 35 (ipc_dump_shared_ram_ownership io) (dump_text String.EmptyString)
      = dump_text Status.rule)
  /\ (DEBUG = false -> ipc_dump_shared_ram_ownership io = []).
Proof.
  split; intros Hdbg; unfold ipc_dump_shared_ram_ownership; rewrite Hdbg;
    [| reflexivity].
  cbv zeta.
  split; [reflexivity |]. split; [reflexivity |]. split; [reflexivity |].
  split; [reflexivity |]. split; [| reflexivity].
  intros p Hp. exists (owner io p).
  split; [now apply get_sram_page_ownership_owner |].
  cbn [app Nat.add nth].
  destruct (Z.ltb_spec p 16) as [Hlt | Hge].
  - rewrite app_nth1 by (rewrite !length_map, length_seq; lia).
    rewrite nth_map_seq by lia.
    rewrite Z2Nat.id by lia. f_equal.
    rewrite status_name_bits by apply land_3_range.
    unfold owner, page_bits. replace (p <? 16) with true by lia.
    rewrite mod16_low by lia. now replace (p * 2) with (2 * p) by lia.
  - rewrite app_nth2 by (rewrite !length_map, length_seq; lia).
    rewrite !length_map, length_seq.
    rewrite app_nth1 by (rewrite !length_map, length_seq; lia).
    rewrite nth_map_seq by lia.
    replace (Z.of_nat (Z.to_nat p - 16)) with (p - 16) by lia.
    f_equal; [lia |].
    rewrite status_name_bits by apply land_3_range.
    unfold owner, page_bits. replace (p <? 16) with false by lia.
    rewrite mod16_high by lia.
    now replace ((p - 16) * 2) with (2 * (p - 16)) by lia.
Qed.

Lemma ipc_dump_agrees_with_accessor_witness :
  @get_sram_page_ownership bench_debug (occupied [2; 6]) 6 = Done ownership_a7
  /\ nth 9 (@ipc_dump_shared_ram_ownership bench_debug (occupied [2; 6]))
         (dump_text String.EmptyString)
     = dump_page 6 (status_name ownership_a7)
  /\ length (@ipc_dump_shared_ram_ownership bench_debug (occupied [2; 6]))
     = 36%nat.
Proof.
  destruct (@ipc_dump_agrees_with_accessor bench_debug (occupied [2; 6]))
    as (Hdbg & _).
  destruct (Hdbg eq_refl) as (Hlen & _ & _ & _ & Hline & _).
  destruct (Hline 6 ltac:(lia)) as (o & Ho & Hnth).
  assert (Hget : @get_sram_page_ownership bench_debug (occupied [2; 6]) 6
                 = Done ownership_a7) by (vm_compute; reflexivity).
  rewrite Hget in Ho. injection Ho as <-.
  split; [exact Hget | split; [exact Hnth | exact Hlen]].
Defined.

(** ** Searching for impossible run lengths *)

(** With nothing to count up to, the scan stops at the first free page with
    a count of one, or runs to the end with a count of zero. *)
Lemma find_loop_nonpositive (io : sram_regs) (st n : Z)
    (st_fields : forall i, 0 <= i < 32 ->
                   Z.land (Z.shiftr st (i * 2)) 0x3 = page_bits io i)
    (Hn : n <= 0) (todo : nat) :
  forall i, Z.of_nat todo = 32 - i -> 0 <= i ->
    (find_loop todo st n i 0 (-1) = (0, -1)
     /\ forall j, i <= j < 32 -> owner io j <> ownership_free)
    \/ (exists s, find_loop todo st n i 0 (-1) = (1, s)
                  /\ i <= s < 32 /\ owner io s = ownership_free).
Proof.
  induction todo as [| todo IH]; intros i Htodo Hi.
  - left. split; [reflexivity | intros j Hj; lia].
  - cbn [find_loop]. rewrite st_fields by lia. fold (owner io i).
    destruct (ownership_eqb (owner io i) ownership_free) eqn:Hpage.
    + apply ownership_eqb_eq in Hpage. right. exists i.
      cbv zeta. change (0 + 1) with 1. change (-1 =? -1) with true.
      cbv iota. replace (1 >=? n) with true by lia.
      split; [reflexivity | split; [lia | exact Hpage]].
    + apply ownership_eqb_neq in Hpage.
      destruct (IH (i + 1)) as [(Hrun & Hnone) | (s & Hrun & Hs & Hfree)];
        try lia.
      * left. split; [exact Hrun |].
        intros j Hj. destruct (Z.eq_dec j i) as [-> | Hne]; [exact Hpage |].
        apply Hnone. lia.
      * right. exists s. repeat split; try lia; assumption.
Qed.

(** X2.  [find_consecutive_free_sram_pages] has no answer for run lengths
    outside [1, 32]: a negative length or one above 32 always returns 0 and
    leaves [*page_num] alone; a length of 0 returns 0 whenever some page is
    free, and when no page is free its final test [count == npages] holds
    with [start] still -1, which is BUG under DEBUG and otherwise a return
    of 1 with [*page_num = -1]. *)
Theorem find_consecutive_free_impossible_lengths {P : Platform}
    (io : sram_regs) (n pn : Z) :
  (n < 0 \/ 32 < n -> find_consecutive_free_sram_pages io n pn = Done (0, pn))
  /\ (n = 0 -> (exists p, 0 <= p < 32 /\ page_is io p ownership_free) ->
      find_consecutive_free_sram_pages io n pn = Done (0, pn))
  /\ (n = 0 -> (forall p, 0 <= p < 32 -> ~ page_is io p ownership_free) ->
      find_consecutive_free_sram_pages io n pn
      = if DEBUG then Bug else Done (1, -1)).
Proof.
  split; [| split].
  - intros [Hneg | Hbig]; unfold find_consecutive_free_sram_pages.
    + destruct (find_loop_nonpositive io _ n (status64_field io)
                  ltac:(lia) 32 0 eq_refl ltac:(lia))
        as [(-> & _) | (s & -> & _)];
        cbv beta iota; now replace (_ =? n) with false by lia.
    + pose proof (find_loop_inv io _ n (status64_field io) ltac:(lia)
                    32 0 0 (-1)) as H.
      destruct (find_loop 32 _ n 0 0 (-1)) as [count start].
      destruct H as [(_ & (H0 & H1 & _) & _) | (Hc & _)];
        try lia; try reflexivity; try (intros; lia).
      * intros s Hs (H0 & _). lia.
      * now replace (count =? n) with false by lia.
  - intros -> (p & Hp & Hfree). rewrite page_is_owner in Hfree by exact Hp.
    unfold find_consecutive_free_sram_pages.
    destruct (find_loop_nonpositive io _ 0 (status64_field io)
                ltac:(lia) 32 0 eq_refl ltac:(lia))
      as [(_ & Hnone) | (s & -> & _)].
    + exfalso. apply (Hnone p); [lia | exact Hfree].
    + reflexivity.
  - intros -> Hfull. unfold find_consecutive_free_sram_pages.
    destruct (find_loop_nonpositive io _ 0 (status64_field io)
                ltac:(lia) 32 0 eq_refl ltac:(lia))
      as [(-> & _) | (s & _ & Hs & Hfree)].
    + cbv beta iota. cbn [Z.eqb Pos.eqb Z.sub Z.opp Z.add Z.gtb Z.compare].
      unfold IPC_BUG. destruct DEBUG; reflexivity.
    + exfalso. apply (Hfull s); [lia |].
      apply page_is_owner; [lia | exact Hfree].
Qed.

Lemma find_consecutive_free_impossible_lengths_witness :
  @find_consecutive_free_sram_pages bench (occupied [2; 6]) 33 7 = Done (0, 7)
  /\ @find_consecutive_free_sram_pages bench (occupied [2; 6]) 0 7
     = Done (0, 7).
Proof.
  destruct (@find_consecutive_free_impossible_lengths bench
              (occupied [2; 6]) 33 7) as (Hout & _).
  destruct (@find_consecutive_free_impossible_lengths bench
              (occupied [2; 6]) 0 7) as (_ & Hzero & _).
  split.
  - apply Hout. right. lia.
  - apply Hzero; [reflexivity |].
    exists 0. split; [lia | vm_compute; reflexivity].
Defined.

(** ** Allocation with a controller that grants *)

Section Granted.
Context {P : Platform}.
Hypothesis Hlocal : ctrl_local.
Hypothesis Hgrants : ctrl_grants.

(** Over a run of free pages the grab loop goes all the way. *)
Lemma grab_loop_granted (todo : nat) :
  forall io pn i,
    0 <= pn + i -> pn + i + Z.of_nat todo <= 32 ->
    (forall j, pn + i <= j < pn + i + Z.of_nat todo ->
               owner io j = ownership_free) ->
    exists io',
      grab_loop todo io pn i = Done (i + Z.of_nat todo, io')
      /\ (forall j, pn + i <= j < pn + i + Z.of_nat todo ->
                    owner io' j = ownership_a7)
      /\ (forall q, 0 <= q < 32 ->
                    q < pn + i \/ pn + i + Z.of_nat todo <= q ->
                    owner io' q = owner io q).
Proof.
  induction todo as [| todo IH]; intros io pn i Hlo Hhi Hfree.
  - exists io. cbn [grab_loop]. split; [do 2 f_equal; lia |].
    split; intros; [lia | reflexivity].
  - cbn [grab_loop]. rewrite grab_one_sram_page_eq by lia.
    rewrite (Hfree (pn + i)) by lia.
    rewrite (Hgrants io (pn + i)) by (try apply Hfree; lia).
    cbn [ownership_eqb ownership_to_Z Z.eqb Pos.eqb negb obind].
    set (io1 := sram_ctrl io (pn + i) grab_word).
    assert (Hframe : forall q, 0 <= q < 32 -> q <> pn + i ->
                               owner io1 q = owner io q).
    { intros q Hq Hne. apply Hlocal; lia. }
    destruct (IH io1 pn (i + 1)) as (io' & Hrun & Hin & Hout); try lia.
    { intros j Hj. rewrite Hframe by lia. apply Hfree. lia. }
    exists io'. split; [rewrite Hrun; do 2 f_equal; lia |]. split.
    + intros j Hj. destruct (Z.eq_dec j (pn + i)) as [-> | Hne].
      * rewrite Hout by lia. apply Hgrants; [lia |]. apply Hfree. lia.
      * apply Hin. lia.
    + intros q Hq Hside. rewrite Hout by lia. apply Hframe; lia.
Qed.

End Granted.

(** X3.  With a controller that grants requests for free pages and touches
    only the requested page, [ipc_sram_alloc(NULL, size)] for a size in
    (0, 32768] always returns: either the base address of the lowest run of
    free pages long enough, which is not NULL, with exactly that run handed
    to the A7, or NULL with the registers untouched, and then no such run
    exists. *)
Theorem ipc_sram_alloc_at_will_complete {P : Platform}
    (Hlocal : ctrl_local) (Hgrants : ctrl_grants) (Hmap : sram_mapped)
    (io : sram_regs) (size : Z) :
  0 < size <= 32768 ->
  (exists s io1,
      lowest_free_run io s (size2npages size)
      /\ ipc_sram_alloc io NULL size
         = Done (sram + s * COLUMBUS_IPC_PAGE_SIZE, io1)
      /\ sram + s * COLUMBUS_IPC_PAGE_SIZE <> NULL
      /\ (forall j, s <= j < s + size2npages size ->
                    owner io1 j = ownership_a7)
      /\ (forall q, 0 <= q < 32 -> q < s \/ s + size2npages size <= q ->
                    owner io1 q = owner io q))
  \/ (ipc_sram_alloc io NULL size = Done (NULL, io)
      /\ forall s, ~ free_run io s (size2npages size)).
Proof.
  intros Hs. pose proof (size2npages_range size Hs) as Hn.
  rewrite ipc_sram_alloc_at_will by exact Hs.
  destruct (find_consecutive_free_sram_pages_spec io (size2npages size) (-1) Hn)
    as [(s & Hfind & Hlow) | (Hfind & Hnone)].
  - left. pose proof Hlow as (Hrun & _).
    pose proof Hrun as (Hs0 & Hs1 & Hfree). unfold SHARED_RAM_PAGE_NUM in Hs1.
    destruct (grab_loop_granted Hlocal Hgrants (Z.to_nat (size2npages size))
                io s 0) as (io1 & Hgrab & Hin & Hout); try lia.
    { intros j Hj. apply page_is_owner; [lia |]. apply Hfree. lia. }
    exists s, io1. split; [exact Hlow |].
    rewrite (try_to_grab_sram_pages_at io (-1) _ s) by (right; auto).
    rewrite Hgrab. cbn [obind].
    rewrite Z2Nat.id, Z.add_0_l, Z.eqb_refl by lia. cbn [obind].
    destruct (Z.eqb_spec s (-1)) as [| _]; [lia |]. cbn [negb].
    rewrite page_addr_u32 by (try exact Hmap; lia).
    split; [reflexivity |]. split.
    { destruct Hmap as (Hm0 & _).
      unfold NULL, COLUMBUS_IPC_PAGE_SIZE. lia. }
    split.
    + intros j Hj. apply Hin. lia.
    + intros q Hq Hside. apply Hout; lia.
  - right. rewrite (try_to_grab_sram_pages_none _ _ _ Hfind).
    split; [reflexivity | exact Hnone].
Qed.

Lemma ipc_sram_alloc_at_will_complete_witness :
  0 < 3000 <= 32768 /\
  ((exists s io1,
       @lowest_free_run bench (occupied [2; 6]) s (size2npages 3000)
       /\ @ipc_sram_alloc bench (occupied [2; 6]) NULL 3000
          = Done (0xC8800000 + s * COLUMBUS_IPC_PAGE_SIZE, io1)
       /\ 0xC8800000 + s * COLUMBUS_IPC_PAGE_SIZE <> NULL
       /\ (forall j, s <= j < s + size2npages 3000 ->
                     owner io1 j = ownership_a7)
       /\ (forall q, 0 <= q < 32 -> q < s \/ s + size2npages 3000 <= q ->
                     owner io1 q = owner (occupied [2; 6]) q))
   \/ (@ipc_sram_alloc bench (occupied [2; 6]) NULL 3000
       = Done (NULL, occupied [2; 6])
       /\ forall s, ~ @free_run bench (occupied [2; 6]) s (size2npages 3000))).
Proof.
  assert (Hs : 0 < 3000 <= 32768) by lia.
  split; [exact Hs |].
  exact (@ipc_sram_alloc_at_will_complete bench
           (bench_ctrl_local _ _ _ _ _ _) (bench_ctrl_grants _ _ _ _ _ _)
           (bench_sram_mapped _ _ _ _ _ _) (occupied [2; 6]) 3000 Hs).
Defined.

(** X4.  With the same controller, [ipc_sram_alloc(addr, size)] for the base
    address of page [s], the run of [size2npages size] pages from [s] lying
    inside the window: if every page of the run is free the call returns
    [addr] with the run handed to the A7 and the other pages as they were;
    if some page of the run is not free it returns NULL. *)
Theorem ipc_sram_alloc_fixed_address {P : Platform}
    (Hlocal : ctrl_local) (Hgrants : ctrl_grants) (Hmap : sram_mapped)
    (io : sram_regs) (size s : Z) :
  0 < size <= 32768 ->
  0 <= s -> s + size2npages size <= 32 ->
  (free_span io s (size2npages size) ->
   exists io1,
     ipc_sram_alloc io (sram + s * COLUMBUS_IPC_PAGE_SIZE) size
     = Done (sram + s * COLUMBUS_IPC_PAGE_SIZE, io1)
     /\ (forall j, s <= j < s + size2npages size -> owner io1 j = ownership_a7)
     /\ (forall q, 0 <= q < 32 -> q < s \/ s + size2npages size <= q ->
                   owner io1 q = owner io q))
  /\ (~ free_span io s (size2npages size) ->
      exists io1,
        ipc_sram_alloc io (sram + s * COLUMBUS_IPC_PAGE_SIZE) size
        = Done (NULL, io1)).
Proof.
  intros Hs Hs0 Hs1. pose proof (size2npages_range size Hs) as Hn.
  pose proof Hmap as (Hm0 & Hm1 & Hm2).
  unfold COLUMBUS_IPC_SRAM_SIZE, COLUMBUS_IPC_PAGE_SIZE in *.
  assert (Halloc :
    ipc_sram_alloc io (sram + s * 1024) size =
    (r <- try_to_grab_sram_pages io s (size2npages size) ;;;
     let '(page_num, io) := r in
     if negb (page_num =? -1)
     then Done (u32 (sram + page_num * COLUMBUS_IPC_PAGE_SIZE), io)
     else Done (NULL, io))).
  { rewrite ipc_sram_alloc_fixed; try assumption; try lia.
    - replace (sram + s * 1024 - sram) with (s * 1024) by lia.
      rewrite Z.div_mul by lia. rewrite <- size2npages_ceil by lia.
      reflexivity.
    - rewrite Z.mod_add by lia. exact Hm2. }
  rewrite Halloc.
  rewrite (try_to_grab_sram_pages_at io s _ s) by (left; split; lia).
  split.
  - intros (_ & _ & Hfree).
    destruct (grab_loop_granted Hlocal Hgrants (Z.to_nat (size2npages size))
                io s 0) as (io1 & Hgrab & Hin & Hout); try lia.
    { intros j Hj. apply Hfree. lia. }
    exists io1. rewrite Hgrab. cbn [obind].
    rewrite Z2Nat.id, Z.add_0_l, Z.eqb_refl by lia. cbn [obind].
    destruct (Z.eqb_spec s (-1)) as [| _]; [lia |]. cbn [negb].
    unfold COLUMBUS_IPC_PAGE_SIZE. unfold u32.
    rewrite Z.mod_small by lia.
    split; [reflexivity |]. split.
    + intros j Hj. apply Hin. lia.
    + intros q Hq Hside. apply Hout; lia.
  - intros Hbusy.
    destruct (grab_loop_spec Hlocal (Z.to_nat (size2npages size)) io s 0)
      as (k & io1 & Hgrab & Hk & Hin & _); try lia.
    exists io1. rewrite Hgrab. cbn [obind].
    destruct (Z.eqb_spec k (size2npages size)) as [-> | Hne];
      [| reflexivity].
    exfalso. apply Hbusy. split; [lia | split; [lia |]].
    intros j Hj. apply Hin. lia.
Qed.

Lemma ipc_sram_alloc_fixed_address_witness :
  @ipc_sram_alloc bench (occupied [2; 6]) (0xC8800000 + 3 * 1024) 3000
  = Done (0xC8800000 + 3 * 1024, occupied [2; 6; 3; 4; 5]).
Proof.
  assert (Hs : 0 < 3000 <= 32768) by lia.
  destruct (@ipc_sram_alloc_fixed_address bench
              (bench_ctrl_local _ _ _ _ _ _) (bench_ctrl_grants _ _ _ _ _ _)
              (bench_sram_mapped _ _ _ _ _ _) (occupied [2; 6]) 3000 3 Hs
              ltac:(lia) ltac:(vm_compute; congruence)) as (Hfree & _).
  destruct Hfree as (io1 & Halloc & _).
  - split; [lia | split; [vm_compute; congruence |]].
    intros j Hj. change (size2npages 3000) with 3 in Hj.
    assert (Hcases : j = 3 \/ j = 4 \/ j = 5) by lia.
    destruct Hcases as [-> | [-> | ->]]; reflexivity.
  - vm_compute. reflexivity.
Defined.

(** X5.  [ipc_sram_alloc] with a fixed address does not check that the run
    fits into the window.  When the run from page [s] would end past page 31
    and the pages [s .. 31] are free, the grab loop takes them all and then
    asks [get_sram_page_ownership] for page 32, which does not exist.  Under
    DEBUG that call is BUG, and so is the allocation.  Without DEBUG the
    accessor reads the word after SRMSEL1, which is none of the two
    ownership registers: what the allocation returns then depends on a
    register the source says nothing about, and the embedding stops there
    with an access outside the registers it describes. *)
Theorem ipc_sram_alloc_fixed_run_past_window {P : Platform}
    (Hlocal : ctrl_local) (Hgrants : ctrl_grants) (Hmap : sram_mapped)
    (io : sram_regs) (size s : Z) :
  0 < size <= 32768 ->
  0 <= s < 32 -> 32 < s + size2npages size ->
  free_span io s (32 - s) ->
  exists io1,
    grab_loop (Z.to_nat (32 - s)) io s 0 = Done (32 - s, io1)
    /\ (forall j, s <= j < 32 -> owner io1 j = ownership_a7)
    /\ get_sram_page_ownership io1 32 = (if DEBUG then Bug else Stray)
    /\ ipc_sram_alloc io (sram + s * COLUMBUS_IPC_PAGE_SIZE) size
       = if DEBUG then Bug else Stray.
Proof.
  intros Hs Hs0 Hs1 (_ & _ & Hfree).
  pose proof (size2npages_range size Hs) as Hn.
  pose proof Hmap as (Hm0 & Hm1 & Hm2).
  unfold COLUMBUS_IPC_SRAM_SIZE, COLUMBUS_IPC_PAGE_SIZE in *.
  destruct (grab_loop_granted Hlocal Hgrants (Z.to_nat (32 - s)) io s 0)
    as (io1 & Hgrab & Hin & _); try lia.
  { intros j Hj. apply Hfree. lia. }
  replace (0 + Z.of_nat (Z.to_nat (32 - s))) with (32 - s) in Hgrab by lia.
  assert (Hpage : get_sram_page_ownership io1 32
                  = if DEBUG then Bug else Stray).
  { unfold get_sram_page_ownership, IPC_BUG. destruct DEBUG; reflexivity. }
  assert (Halloc : ipc_sram_alloc io (sram + s * 1024) size
                   = if DEBUG then Bug else Stray).
  { rewrite ipc_sram_alloc_fixed; try assumption; try lia.
    2:{ rewrite Z.mod_add by lia. exact Hm2. }
    replace (sram + s * 1024 - sram) with (s * 1024) by lia.
    rewrite Z.div_mul by lia. rewrite <- size2npages_ceil by lia.
    rewrite (try_to_grab_sram_pages_at io s _ s) by (left; split; lia).
    replace (Z.to_nat (size2npages size))
      with (Z.to_nat (32 - s) + S (Z.to_nat (s + size2npages size - 33)))%nat
      by lia.
    rewrite (grab_loop_app _ _ io s 0 io1)
      by (rewrite Hgrab; do 2 f_equal; lia).
    cbn [grab_loop].
    replace (s + (0 + Z.of_nat (Z.to_nat (32 - s)))) with 32 by lia.
    unfold grab_one_sram_page. rewrite Hpage.
    destruct DEBUG; reflexivity. }
  exists io1. split; [exact Hgrab |]. split.
  { intros j Hj. apply Hin. lia. }
  split; [exact Hpage | exact Halloc].
Qed.

Lemma ipc_sram_alloc_fixed_run_past_window_witness :
  @ipc_sram_alloc bench_debug (occupied [2; 6]) (0xC8800000 + 30 * 1024) 3000
  = Bug
  /\ @ipc_sram_alloc bench (occupied [2; 6]) (0xC8800000 + 30 * 1024) 3000
     = Stray
  /\ exists io1,
       @grab_loop bench 2 (occupied [2; 6]) 30 0 = Done (2, io1)
       /\ owner io1 30 = ownership_a7 /\ owner io1 31 = ownership_a7.
Proof.
  assert (Hfree : free_span (occupied [2; 6]) 30 (32 - 30)).
  { split; [lia | split; [lia |]].
    intros j Hj. assert (Hcases : j = 30 \/ j = 31) by lia.
    destruct Hcases as [-> | ->]; reflexivity. }
  split; [| split].
  - destruct (@ipc_sram_alloc_fixed_run_past_window bench_debug
                (bench_ctrl_local _ _ _ _ _ _) (bench_ctrl_grants _ _ _ _ _ _)
                (bench_sram_mapped _ _ _ _ _ _) (occupied [2; 6]) 3000 30
                ltac:(lia) ltac:(lia) ltac:(vm_compute; reflexivity) Hfree)
      as (io1 & _ & _ & _ & Halloc).
    exact Halloc.
  - destruct (@ipc_sram_alloc_fixed_run_past_window bench
                (bench_ctrl_local _ _ _ _ _ _) (bench_ctrl_grants _ _ _ _ _ _)
                (bench_sram_mapped _ _ _ _ _ _) (occupied [2; 6]) 3000 30
                ltac:(lia) ltac:(lia) ltac:(vm_compute; reflexivity) Hfree)
      as (io1 & _ & _ & _ & Halloc).
    exact Halloc.
  - destruct (@ipc_sram_alloc_fixed_run_past_window bench
                (bench_ctrl_local _ _ _ _ _ _) (bench_ctrl_grants _ _ _ _ _ _)
                (bench_sram_mapped _ _ _ _ _ _) (occupied [2; 6]) 3000 30
                ltac:(lia) ltac:(lia) ltac:(vm_compute; reflexivity) Hfree)
      as (io1 & Hgrab & Hown & _).
    exists io1. split; [exact Hgrab |].
    split; apply Hown; lia.
Defined.

(** ** Giving pages back *)

Lemma release_loop_production {P : Platform} (Hprod : DEBUG = false)
    (todo : nat) :
  forall io pn a,
    0 <= pn -> pn + Z.of_nat a + Z.of_nat todo <= 32 ->
    release_loop todo io pn (Z.of_nat a)
    = Done (fold_left (fun io k => sram_ctrl io (pn + Z.of_nat k) release_word)
                      (seq a todo) io).
Proof.
  induction todo as [| todo IH]; intros io pn a Hlo Hhi; [reflexivity |].
  cbn [release_loop seq fold_left].
  rewrite release_one_sram_page_eq by lia.
  rewrite !IPC_BUG_nodebug by exact Hprod. cbn [obind].
  replace (Z.of_nat a + 1) with (Z.of_nat (S a)) by lia.
  apply IH; lia.
Qed.

Lemma release_loop_foreign_page {P : Platform} (Hdebug : DEBUG = true)
    (Hlocal : ctrl_local) (Hrel : ctrl_releases) (todo : nat) :
  forall io pn i,
    0 <= pn + i -> pn + i + Z.of_nat todo <= 32 ->
    (exists j, pn + i <= j < pn + i + Z.of_nat todo
               /\ owner io j <> ownership_a7) ->
    release_loop todo io pn i = Bug.
Proof.
  induction todo as [| todo IH]; intros io pn i Hlo Hhi (j & Hj & Hown);
    [lia |].
  cbn [release_loop]. rewrite release_one_sram_page_eq by lia.
  unfold IPC_BUG at 1. rewrite Hdebug. cbn [andb].
  destruct (ownership_eqb (owner io (pn + i)) ownership_a7) eqn:Hhere;
    cbn [negb obind]; [| reflexivity].
  apply ownership_eqb_eq in Hhere.
  rewrite (Hrel io (pn + i)) by (try exact Hhere; lia).
  cbn [ownership_eqb ownership_to_Z Z.eqb negb].
  rewrite IPC_BUG_false. cbn [obind].
  apply IH; try lia.
  exists j. split.
  - destruct (Z.eq_dec j (pn + i)) as [-> | Hne]; [contradiction | lia].
  - rewrite Hlocal; try lia; [exact Hown |].
    intros ->. contradiction.
Qed.

Lemma ipc_sram_free_page_run {P : Platform} (Hmap : sram_mapped)
    (io : sram_regs) (size s : Z) :
  0 < size <= 32768 -> 0 <= s < 32 ->
  ipc_sram_free io (sram + s * COLUMBUS_IPC_PAGE_SIZE) size
  = free_sram_pages io s (size2npages size).
Proof.
  intros Hs Hs0. pose proof Hmap as (Hm0 & Hm1 & Hm2).
  unfold ipc_sram_free. rewrite land_u32_page_mask.
  unfold COLUMBUS_IPC_SRAM_SIZE, COLUMBUS_IPC_PAGE_SIZE, NULL in *.
  replace (size <=? 0) with false by lia.
  replace (size >? 32768) with false by lia.
  replace (sram + s * 1024 =? 0) with false by lia.
  replace ((sram + s * 1024) mod 1024) with 0
    by (rewrite Z.mod_add by lia; lia).
  replace (sram + s * 1024 <? sram) with false by lia.
  replace (sram + s * 1024 >=? sram + 32768) with false by lia.
  replace (sram + s * 1024 - sram) with (s * 1024) by lia.
  rewrite Z.quot_mul, Z.rem_mul by lia.
  cbn [negb orb Z.eqb]. rewrite !IPC_BUG_false. reflexivity.
Qed.

(** X6.  [ipc_sram_free] on the base address of page [s], the run lying
    inside the window.  A DEBUG build stops with BUG when some page of the
    run is not owned by the A7 (with a controller that honours releases and
    touches only the requested page).  A production build checks nothing: it
    sends a release request for every page of the run, whoever owns it, and
    returns. *)
Theorem ipc_sram_free_foreign_pages {P : Platform} (Hmap : sram_mapped)
    (io : sram_regs) (size s : Z) :
  0 < size <= 32768 ->
  0 <= s -> s + size2npages size <= 32 ->
  (DEBUG = true -> ctrl_local -> ctrl_releases ->
   (exists j, s <= j < s + size2npages size /\ owner io j <> ownership_a7) ->
   ipc_sram_free io (sram + s * COLUMBUS_IPC_PAGE_SIZE) size = Bug)
  /\ (DEBUG = false ->
      ipc_sram_free io (sram + s * COLUMBUS_IPC_PAGE_SIZE) size
      = Done (release_requests io s (Z.to_nat (size2npages size)))).
Proof.
  intros Hs Hs0 Hs1. pose proof (size2npages_range size Hs) as Hn.
  rewrite ipc_sram_free_page_run by (try assumption; lia).
  unfold free_sram_pages. split.
  - intros Hdebug Hlocal Hrel (j & Hj & Hown).
    apply release_loop_foreign_page; try assumption; try lia.
    exists j. split; [lia | exact Hown].
  - intros Hprod.
    apply (release_loop_production Hprod _ io s 0%nat); lia.
Qed.

Lemma ipc_sram_free_foreign_pages_witness :
  @ipc_sram_free bench_debug (occupied [3; 4]) (0xC8800000 + 3 * 1024) 3000
  = Bug
  /\ @ipc_sram_free bench (occupied [3; 4]) (0xC8800000 + 3 * 1024) 3000
     = Done (@release_requests bench (occupied [3; 4]) 3 3).
Proof.
  split.
  - apply (@ipc_sram_free_foreign_pages bench_debug
             (bench_sram_mapped _ _ _ _ _ _) (occupied [3; 4]) 3000 3);
      try lia; try reflexivity.
    + vm_compute. congruence.
    + apply bench_ctrl_local.
    + apply bench_ctrl_releases.
    + exists 5. split; [vm_compute; split; congruence |].
      vm_compute. congruence.
  - apply (@ipc_sram_free_foreign_pages bench
             (bench_sram_mapped _ _ _ _ _ _) (occupied [3; 4]) 3000 3);
      try lia; try reflexivity.
    vm_compute. congruence.
Defined.

(** ** Page numbers and page addresses *)

(** X7.  With the window mapped page-aligned inside the 32-bit address
    space, [pageaddr2pagenum] undoes [pagenum2pageaddr] on the 32 page
    numbers, and [pagenum2pageaddr] undoes [pageaddr2pagenum] on the 32 page
    base addresses; page number -1 stands for NULL, which is no page
    address. *)
Theorem pagenum_pageaddr_round_trip {P : Platform} (Hmap : sram_mapped) :
  (forall p, 0 <= p < 32 ->
     pageaddr2pagenum (pagenum2pageaddr p) = Done p)
  /\ (forall a, sram <= a < sram + COLUMBUS_IPC_SRAM_SIZE ->
        a mod COLUMBUS_IPC_PAGE_SIZE = 0 ->
        exists p, pageaddr2pagenum a = Done p /\ 0 <= p < 32
                  /\ pagenum2pageaddr p = a)
  /\ pagenum2pageaddr (-1) = NULL
  /\ forall p, 0 <= p < 32 -> pagenum2pageaddr p <> NULL.
Proof.
  pose proof Hmap as (Hm0 & Hm1 & Hm2).
  unfold COLUMBUS_IPC_SRAM_SIZE, COLUMBUS_IPC_PAGE_SIZE in *.
  assert (Hfwd : forall p, 0 <= p < 32 ->
                   pagenum2pageaddr p = sram + p * 1024).
  { intros p Hp. unfold pagenum2pageaddr, COLUMBUS_IPC_PAGE_SIZE.
    destruct (Z.eqb_spec p (-1)) as [| _]; [lia |].
    unfold u32. apply Z.mod_small. lia. }
  assert (Hback : forall a, sram <= a < sram + 32768 -> a mod 1024 = 0 ->
                    pageaddr2pagenum a = Done ((a - sram) / 1024)).
  { intros a Ha Hal. unfold pageaddr2pagenum.
    unfold COLUMBUS_IPC_SRAM_SIZE, COLUMBUS_IPC_PAGE_SIZE.
    assert (Hu : u32 a = a) by (unfold u32; apply Z.mod_small; lia).
    rewrite Hu, Z.rem_mod_nonneg, Hal by lia.
    replace (a <? sram) with false by lia.
    replace (a >=? sram + 32768) with false by lia.
    cbn [negb Z.eqb]. rewrite !IPC_BUG_false. cbn [obind].
    rewrite Z.quot_div_nonneg by lia. reflexivity. }
  split; [| split; [| split]].
  - intros p Hp. rewrite Hfwd by exact Hp.
    rewrite Hback; try lia.
    + replace (sram + p * 1024 - sram) with (p * 1024) by lia.
      rewrite Z.div_mul by lia. reflexivity.
    + rewrite Z.mod_add by lia. exact Hm2.
  - intros a Ha Hal. exists ((a - sram) / 1024).
    assert (Hoff : (a - sram) mod 1024 = 0).
    { rewrite Zminus_mod, Hal, Hm2. reflexivity. }
    pose proof (Z.div_mod (a - sram) 1024 ltac:(lia)) as Hdm.
    assert (Hrange : 0 <= (a - sram) / 1024 < 32).
    { split; [apply Z.div_pos; lia | apply Z.div_lt_upper_bound; lia]. }
    split; [apply Hback; assumption |]. split; [exact Hrange |].
    rewrite Hfwd by exact Hrange. lia.
  - reflexivity.
  - intros p Hp. rewrite Hfwd by exact Hp. unfold NULL. lia.
Qed.

Lemma pagenum_pageaddr_round_trip_witness :
  @pageaddr2pagenum bench (@pagenum2pageaddr bench 7) = Done 7.
Proof.
  destruct (@pagenum_pageaddr_round_trip bench (bench_sram_mapped _ _ _ _ _ _))
    as (Hfwd & _).
  apply Hfwd. lia.
Defined.

(** ** Putting channels back *)

Lemma set_table_set_table (t : channel_tables) (which : channel_table)
    (l l' : list ipc_channel) :
  set_table (set_table t which l) which l' = set_table t which l'.
Proof. destruct which; reflexivity. Qed.

(** A [columbus_ipc_put_channel] that returns has cleared the slot of the
    handle, whatever it held, and nothing else. *)
Lemma columbus_ipc_put_channel_Done {P : Platform} (t t' : channel_tables)
    (h : channel_handle) :
  columbus_ipc_put_channel t h = Done t' ->
  exists c,
    deref t h = Done c
    /\ t' = set_table t (h_table h)
              (<[Z.to_nat (h_slot h) := clear_ipc_channel c]>
                 (table_of t (h_table h)))
    /\ deref t' h = Done (clear_ipc_channel c).
Proof.
  unfold columbus_ipc_put_channel.
  destruct (deref t h) as [c | | |] eqn:Hc; cbn [obind]; try discriminate.
  do 6 (destruct (IPC_BUG _); cbn [obind]; try discriminate).
  destruct (get_max_channel _ _); cbn [obind]; try discriminate.
  intros [= <-]. exists c. split; [reflexivity |]. split; [reflexivity |].
  unfold deref in *. rewrite table_of_set_table.
  unfold slot_read in *.
  destruct (Z.ltb_spec (h_slot h) 0); [discriminate |].
  destruct (table_of t (h_table h) !! Z.to_nat (h_slot h)) eqn:Hlook;
    [| discriminate].
  rewrite list_lookup_insert_eq by (eapply lookup_lt_Some; eauto).
  reflexivity.
Qed.

Lemma columbus_ipc_put_channel_stamped {P : Platform} (t : channel_tables)
    (h : channel_handle) (p o md : Z) :
  p = IPC_PARTNER_RF_DSP \/ p = IPC_PARTNER_PLC_DSP ->
  o = IPC_SEND_OPERATION \/ o = IPC_RECEIVE_OPERATION ->
  md = IPC_COMMUNICATION_INT \/ md = IPC_COMMUNICATION_POLL ->
  deref t h = Done (stamped p o md) ->
  columbus_ipc_put_channel t h
  = Done (set_table t (h_table h)
            (<[Z.to_nat (h_slot h) := clear_ipc_channel (stamped p o md)]>
               (table_of t (h_table h)))).
Proof.
  intros Hpartner Hop Hmode Hc. unfold columbus_ipc_put_channel.
  rewrite Hc. cbn [obind]. unfold stamped, get_max_channel.
  cbn [magic_1 magic_2 used partner operation mode].
  destruct Hpartner as [-> | ->], Hop as [-> | ->], Hmode as [-> | ->];
    cbn [Z.eqb Pos.eqb negb andb]; rewrite ?IPC_BUG_false; reflexivity.
Qed.

(** X8.  A handle obtained by a well-formed [columbus_ipc_get_channel] can
    be given back: [columbus_ipc_put_channel] returns, the slot reads unused
    again, all other slots of both tables are what they were before the
    acquisition, and repeating the acquisition yields the same handle and
    the same tables as the first time. *)
Theorem columbus_ipc_get_put_channel_round_trip {P : Platform}
    (t t1 : channel_tables) (partner operation mode appointed_channel : Z)
    (h : channel_handle) :
  tables_wf t ->
  partner = IPC_PARTNER_RF_DSP \/ partner = IPC_PARTNER_PLC_DSP ->
  operation = IPC_SEND_OPERATION \/ operation = IPC_RECEIVE_OPERATION ->
  mode = IPC_COMMUNICATION_INT \/ mode = IPC_COMMUNICATION_POLL ->
  appointed_channel = COLUMBUS_IPC_INVALID
  \/ 0 <= appointed_channel < slots_for mode ->
  columbus_ipc_get_channel t partner operation mode appointed_channel
  = Done (Some h, t1) ->
  exists t2,
    columbus_ipc_put_channel t1 h = Done t2
    /\ tables_wf t2
    /\ (exists c, deref t2 h = Done c /\ used c = IPC_CHANNEL_UNUSED)
    /\ (forall h', h' <> h -> deref t2 h' = deref t h')
    /\ columbus_ipc_get_channel t2 partner operation mode appointed_channel
       = Done (Some h, t1).
Proof.
  intros Hwf Hpartner Hop Hmode Happ Hget.
  destruct (columbus_ipc_get_channel_spec t partner operation mode
              appointed_channel Hwf Hpartner Hop Hmode Happ)
    as [(i & Hget' & Hi & Hunused & Hgiven & Hbelow) | (Hnone & _)];
    [| rewrite Hnone in Hget; discriminate].
  rewrite Hget' in Hget. injection Hget as <- <-.
  set (which := table_for partner) in *.
  set (tbl := table_of t which) in *.
  set (t1 := set_table t which (<[Z.to_nat i := stamped partner operation mode]> tbl)).
  pose proof Hunused as (_ & c0 & Hc0 & _).
  assert (Hlt : (Z.to_nat i < length tbl)%nat)
    by (eapply lookup_lt_Some; eauto).
  assert (Hderef : deref t1 (mk_handle which i)
                   = Done (stamped partner operation mode)).
  { unfold deref, t1. cbn [h_table h_slot]. rewrite table_of_set_table.
    apply slot_read_Done; [lia |]. now apply list_lookup_insert_eq. }
  set (cleared := clear_ipc_channel (stamped partner operation mode)).
  set (t2 := set_table t which (<[Z.to_nat i := cleared]> tbl)).
  assert (Hput : columbus_ipc_put_channel t1 (mk_handle which i) = Done t2).
  { rewrite (columbus_ipc_put_channel_stamped t1 _ partner operation mode)
      by assumption.
    cbn [h_table h_slot]. unfold t1, t2.
    rewrite table_of_set_table, set_table_set_table, list_insert_insert_eq.
    reflexivity. }
  assert (Hwf2 : tables_wf t2) by (apply tables_wf_set_table; exact Hwf).
  assert (Hfree2 : slot_unused (table_of t2 which) i).
  { unfold t2. rewrite table_of_set_table. split; [lia |].
    exists cleared. split; [now apply list_lookup_insert_eq | reflexivity]. }
  exists t2. split; [exact Hput |]. split; [exact Hwf2 |]. split; [| split].
  - exists cleared. split; [| reflexivity].
    unfold deref, t2. cbn [h_table h_slot]. rewrite table_of_set_table.
    apply slot_read_Done; [lia |]. now apply list_lookup_insert_eq.
  - intros h' Hne. unfold t2. apply deref_set_table_ne; [lia | exact Hne].
  - destruct (columbus_ipc_get_channel_spec t2 partner operation mode
                appointed_channel Hwf2 Hpartner Hop Hmode Happ)
      as [(i' & Hget2 & Hi' & Hunused' & Hgiven' & Hbelow')
         | (_ & Hocc & Hfull)].
    + fold which in Hget2, Hunused', Hbelow'.
      assert (Heq : i' = i).
      { destruct (Z.eq_dec appointed_channel COLUMBUS_IPC_INVALID)
          as [Hinv | Hg].
        - destruct (Z.lt_total i' i) as [Hlt' | [Heq | Hgt]]; [| exact Heq |].
          + exfalso. apply (slot_unused_not_occupied _ i' Hunused').
            unfold t2. rewrite table_of_set_table.
            destruct (Hbelow Hinv i' ltac:(lia)) as (H0 & c & Hc & Hu).
            split; [exact H0 |]. exists c. split; [| exact Hu].
            rewrite list_lookup_insert_ne by lia. exact Hc.
          + exfalso. apply (slot_unused_not_occupied _ i Hfree2).
            apply Hbelow'; [exact Hinv | lia].
        - rewrite (Hgiven Hg), (Hgiven' Hg). reflexivity. }
      subst i'. rewrite Hget2. unfold t2, t1.
      rewrite table_of_set_table, set_table_set_table, list_insert_insert_eq.
      reflexivity.
    + exfalso. fold which in Hocc, Hfull.
      apply (slot_unused_not_occupied _ i Hfree2).
      destruct (Z.eq_dec appointed_channel COLUMBUS_IPC_INVALID) as [Hinv | Hg].
      * apply Hfull; [exact Hinv | exact Hi].
      * rewrite (Hgiven Hg). apply Hocc. exact Hg.
Qed.

Lemma columbus_ipc_get_put_channel_round_trip_witness :
  exists t2,
    @columbus_ipc_put_channel bench_debug
      (tables (machine_with plc_table 0 IPC_PARTNER_PLC_DSP IPC_SEND_OPERATION
                            IPC_COMMUNICATION_INT))
      (mk_handle plc_table 0) = Done t2
    /\ @columbus_ipc_get_channel bench_debug t2 IPC_PARTNER_PLC_DSP
         IPC_SEND_OPERATION IPC_COMMUNICATION_INT COLUMBUS_IPC_INVALID
       = Done (Some (mk_handle plc_table 0),
               tables (machine_with plc_table 0 IPC_PARTNER_PLC_DSP
                                    IPC_SEND_OPERATION IPC_COMMUNICATION_INT)).
Proof.
  destruct (@columbus_ipc_get_put_channel_round_trip bench_debug
              initial_tables
              (tables (machine_with plc_table 0 IPC_PARTNER_PLC_DSP
                                    IPC_SEND_OPERATION IPC_COMMUNICATION_INT))
              IPC_PARTNER_PLC_DSP IPC_SEND_OPERATION IPC_COMMUNICATION_INT
              COLUMBUS_IPC_INVALID (mk_handle plc_table 0))
    as (t2 & Hput & _ & _ & _ & Hagain).
  - exact initial_tables_wf.
  - now right.
  - now left.
  - now left.
  - now left.
  - vm_compute. reflexivity.
  - exists t2. split; [exact Hput | exact Hagain].
Defined.

(** X9.  Putting a handle back twice: after a [columbus_ipc_put_channel]
    that returned, a second one on the same handle is BUG under DEBUG (the
    cleared slot fails the magic check) and changes nothing in a production
    build. *)
Theorem columbus_ipc_put_channel_twice {P : Platform} (t t1 : channel_tables)
    (h : channel_handle) :
  columbus_ipc_put_channel t h = Done t1 ->
  columbus_ipc_put_channel t1 h = if DEBUG then Bug else Done t1.
Proof.
  intros Hput.
  destruct (columbus_ipc_put_channel_Done t t1 h Hput) as (c & _ & Ht1 & Hc1).
  unfold columbus_ipc_put_channel. rewrite Hc1. cbn [obind].
  unfold IPC_BUG at 1.
  destruct DEBUG eqn:Hdebug; cbn [andb].
  - reflexivity.
  - cbn [obind]. rewrite !IPC_BUG_nodebug by exact Hdebug. cbn [obind].
    unfold get_max_channel.
    cbn [clear_ipc_channel mode operation].
    rewrite IPC_BUG_nodebug by exact Hdebug.
    cbn [COLUMBUS_IPC_INVALID Z.eqb obind]. f_equal.
    clear Hput Hc1. subst t1.
    rewrite table_of_set_table, set_table_set_table, list_insert_insert_eq.
    reflexivity.
Qed.

Lemma columbus_ipc_put_channel_twice_witness :
  exists t1,
    @columbus_ipc_put_channel bench
      (tables (machine_with rf_table 3 IPC_PARTNER_RF_DSP IPC_SEND_OPERATION
                            IPC_COMMUNICATION_POLL))
      (mk_handle rf_table 3) = Done t1
    /\ @columbus_ipc_put_channel bench t1 (mk_handle rf_table 3) = Done t1.
Proof.
  eexists. split.
  - vm_compute. reflexivity.
  - apply (@columbus_ipc_put_channel_twice bench
             (tables (machine_with rf_table 3 IPC_PARTNER_RF_DSP
                                   IPC_SEND_OPERATION IPC_COMMUNICATION_POLL))).
    vm_compute. reflexivity.
Defined.

(** ** Slots and the handles in circulation *)

Lemma columbus_ipc_get_channel_wf {P : Platform} (t t' : channel_tables)
    (partner operation mode appointed_channel : Z)
    (r : option channel_handle) :
  tables_wf t ->
  columbus_ipc_get_channel t partner operation mode appointed_channel
  = Done (r, t') ->
  tables_wf t'.
Proof.
  intros Hwf. unfold columbus_ipc_get_channel.
  destruct (IPC_BUG _); cbn [obind]; try discriminate.
  destruct (IPC_BUG _); cbn [obind]; try discriminate.
  destruct (IPC_BUG _); cbn [obind]; try discriminate.
  destruct (get_channels partner) as [which | | |]; cbn [obind];
    try discriminate.
  destruct (get_max_channel operation mode) as [max_channel | | |];
    cbn [obind]; try discriminate.
  destruct (get_free_channel (table_of t which) max_channel appointed_channel)
    as [[k tbl] | | |] eqn:Hfree; cbn [obind]; try discriminate.
  apply get_free_channel_result in Hfree.
  destruct k as [k |].
  - destruct Hfree as (Hk & c & Hc & Hu & ->).
    destruct (slot_read _ k) as [c' | | |]; cbn [obind]; try discriminate.
    intros [= _ <-]. rewrite list_insert_insert_eq.
    apply tables_wf_set_table. exact Hwf.
  - subst tbl. intros [= _ <-]. now rewrite set_table_same.
Qed.

Lemma initial_tables_unused (h : channel_handle) (c : ipc_channel) :
  deref initial_tables h = Done c -> used c = IPC_CHANNEL_UNUSED.
Proof.
  unfold deref, slot_read. destruct (h_slot h <? 0); [discriminate |].
  destruct (table_of initial_tables (h_table h) !! Z.to_nat (h_slot h))
    as [c' |] eqn:Hlook; [| discriminate].
  intros [= <-].
  assert (Hin : In c' (repeat zero_channel 16)).
  { destruct (h_table h); cbn [table_of initial_tables ipc_rf_channel
                                ipc_plc_channel] in Hlook;
      apply list_elem_of_In; eapply list_elem_of_lookup_2; exact Hlook. }
  apply repeat_spec in Hin. subst c'. reflexivity.
Qed.

(** X10.  Call a handle live when [columbus_ipc_get_channel] handed it out
    and no [columbus_ipc_put_channel] that returned was given it since.
    After any sequence of returning calls of the two functions from the
    initial tables, with any arguments and in either build, both tables
    keep their 16 slots, the live handles are pairwise distinct and a slot
    is marked used exactly when its handle is live: a slot is not handed
    out again before it was put back, and no slot stays used without a live
    handle.  Under DEBUG a [columbus_ipc_put_channel] returns only when it
    is given a live handle.  The driver keeps no record of who holds a
    handle: which caller gives a live handle back plays no part. *)
Theorem used_slots_are_live_handles {P : Platform} (t : channel_tables)
    (live : list channel_handle) :
  driven t live ->
  tables_wf t
  /\ List.NoDup live
  /\ (forall h, In h live <->
                exists c, deref t h = Done c /\ used c = IPC_CHANNEL_USED)
  /\ (DEBUG = true ->
      forall h t', columbus_ipc_put_channel t h = Done t' -> In h live).
Proof.
  intros Hdriven.
  assert (Hinv : tables_wf t
                 /\ List.NoDup live
                 /\ forall h, In h live <->
                      exists c, deref t h = Done c
                                /\ used c = IPC_CHANNEL_USED).
  { induction Hdriven
      as [| t t' live partner operation mode appointed h Hdriven IH Hget
          | t t' live partner operation mode appointed Hdriven IH Hget
          | t t' live h Hdriven IH Hput].
    - split; [exact initial_tables_wf |]. split; [constructor |].
      intros h. split; [intros [] |].
      intros (c & Hc & Hu). apply initial_tables_unused in Hc.
      unfold IPC_CHANNEL_USED, IPC_CHANNEL_UNUSED in *. lia.
    - destruct IH as (Hwf & Hnd & Hheld).
      destruct (columbus_ipc_get_channel_effect _ _ _ _ _ _ _ Hget)
        as ((c & Hc & Hu) & Hnew & Hframe).
      assert (Hfresh : ~ In h live).
      { intros Hin. apply Hheld in Hin. destruct Hin as (c' & Hc' & Hu').
        rewrite Hc in Hc'. injection Hc' as <-.
        unfold IPC_CHANNEL_USED, IPC_CHANNEL_UNUSED in *. lia. }
      split; [exact (columbus_ipc_get_channel_wf _ _ _ _ _ _ _ Hwf Hget) |].
      split; [constructor; assumption |].
      intros h'. destruct (handle_eq_dec h' h) as [-> | Hne].
      + split; [intros _; exact Hnew | intros _; now left].
      + rewrite Hframe by exact Hne. rewrite <- Hheld. cbn [In].
        split; [intros [<- | Hin]; [contradiction | exact Hin] | now right].
    - apply columbus_ipc_get_channel_none in Hget. now subst t'.
    - destruct IH as (Hwf & Hnd & Hheld).
      destruct (columbus_ipc_put_channel_Done _ _ _ Hput)
        as (c & _ & Ht' & Hc').
      split; [rewrite Ht'; apply tables_wf_set_table; exact Hwf |].
      split; [now apply NoDup_remove_handle |].
      intros h'. destruct (handle_eq_dec h' h) as [-> | Hne].
      + split.
        * intros Hin'. apply in_remove in Hin'. tauto.
        * intros (c1 & Hc1 & Hu1). rewrite Hc' in Hc1. injection Hc1 as <-.
          cbn in Hu1. unfold IPC_CHANNEL_USED, IPC_CHANNEL_UNUSED in *. lia.
      + rewrite (columbus_ipc_put_channel_effect _ _ _ Hput) by exact Hne.
        rewrite <- Hheld. split.
        * intros Hin'. apply in_remove in Hin'. tauto.
        * intros Hin'. now apply in_in_remove. }
  destruct Hinv as (Hwf & Hnd & Hheld).
  split; [exact Hwf |]. split; [exact Hnd |]. split; [exact Hheld |].
  intros Hdebug h t'. unfold columbus_ipc_put_channel.
  destruct (deref t h) as [c | | |] eqn:Hc; cbn [obind]; try discriminate.
  do 2 (destruct (IPC_BUG _); cbn [obind]; try discriminate).
  destruct (IPC_BUG (negb (used c =? IPC_CHANNEL_USED))) as [[] | | |] eqn:Hu;
    cbn [obind]; try discriminate.
  intros _. apply Hheld. exists c. split; [exact Hc |].
  apply IPC_BUG_Done in Hu. rewrite Hdebug in Hu. cbn [andb] in Hu.
  apply negb_false_iff in Hu. now apply Z.eqb_eq in Hu.
Qed.

Lemma used_slots_are_live_handles_witness :
  (In (mk_handle rf_table 0) [mk_handle rf_table 0] <->
   exists c,
     deref (tables (machine_with rf_table 0 IPC_PARTNER_RF_DSP
                                 IPC_SEND_OPERATION IPC_COMMUNICATION_INT))
           (mk_handle rf_table 0) = Done c
     /\ used c = IPC_CHANNEL_USED)
  /\ forall t',
       @columbus_ipc_put_channel bench_debug
         (tables (machine_with rf_table 0 IPC_PARTNER_RF_DSP
                               IPC_SEND_OPERATION IPC_COMMUNICATION_INT))
         (mk_handle plc_table 4) <> Done t'.
Proof.
  assert (Hdriven :
    @driven bench_debug
      (tables (machine_with rf_table 0 IPC_PARTNER_RF_DSP IPC_SEND_OPERATION
                            IPC_COMMUNICATION_INT))
      [mk_handle rf_table 0]).
  { apply (@driven_get bench_debug initial_tables _ []
             IPC_PARTNER_RF_DSP IPC_SEND_OPERATION IPC_COMMUNICATION_INT
             COLUMBUS_IPC_INVALID).
    - constructor.
    - vm_compute. reflexivity. }
  destruct (@used_slots_are_live_handles bench_debug _ _ Hdriven)
    as (_ & _ & Hheld & Hput).
  split; [apply Hheld |].
  intros t' Hdone.
  destruct (Hput eq_refl _ _ Hdone) as [Heq | []].
  discriminate Heq.
Defined.

(** ** Arguments outside the enumerations *)

Lemma get_free_channel_spec {P : Platform} (channels : list ipc_channel)
    (max_channel appointed_channel : Z) :
  length channels = 16%nat -> 0 < max_channel <= 16 ->
  appointed_channel = COLUMBUS_IPC_INVALID
  \/ 0 <= appointed_channel < max_channel ->
  (exists k c,
      0 <= k < max_channel
      /\ channels !! Z.to_nat k = Some c
      /\ used c = IPC_CHANNEL_UNUSED
      /\ (appointed_channel <> COLUMBUS_IPC_INVALID -> k = appointed_channel)
      /\ (appointed_channel = COLUMBUS_IPC_INVALID ->
          forall j, 0 <= j < k -> slot_occupied channels j)
      /\ get_free_channel channels max_channel appointed_channel
         = Done (Some k, <[Z.to_nat k := set_used c IPC_CHANNEL_USED]> channels))
  \/ (get_free_channel channels max_channel appointed_channel
      = Done (None, channels)
      /\ (appointed_channel <> COLUMBUS_IPC_INVALID ->
          slot_occupied channels appointed_channel)
      /\ (appointed_channel = COLUMBUS_IPC_INVALID ->
          forall j, 0 <= j < max_channel -> slot_occupied channels j)).
Proof.
  intros Hlen Hmax Happ. unfold get_free_channel.
  replace (max_channel >? A7_RF_IPC_CHANNEL_NUM) with false
    by (unfold A7_RF_IPC_CHANNEL_NUM; lia).
  replace (negb (appointed_channel =? COLUMBUS_IPC_INVALID)
           && (appointed_channel >=? max_channel)) with false
    by (unfold COLUMBUS_IPC_INVALID in *;
        destruct Happ as [-> | ?]; [reflexivity |];
        replace (appointed_channel >=? max_channel) with false by lia;
        now rewrite andb_false_r).
  replace (appointed_channel <? COLUMBUS_IPC_INVALID) with false
    by (unfold COLUMBUS_IPC_INVALID in *; lia).
  rewrite !IPC_BUG_false. cbn [obind].
  destruct (Z.eqb_spec appointed_channel COLUMBUS_IPC_INVALID)
    as [Hinv | Hgiven]; cbn [negb].
  - destruct (scan_loop_spec (Z.to_nat max_channel) channels 0)
      as [(k & c & Hk & Hc & Hu & Hbelow & Hrun) | (Hall & Hrun)]; try lia.
    + left. exists k, c. split; [lia |]. split; [exact Hc |].
      split; [exact Hu |]. split; [intros Hne; contradiction |].
      split; [| exact Hrun]. intros _ j Hj. apply Hbelow. lia.
    + right. split; [exact Hrun |]. split; [intros Hne; contradiction |].
      intros _ j Hj. apply Hall. lia.
  - assert (Hrng : 0 <= appointed_channel < max_channel)
      by (destruct Happ; [contradiction | assumption]).
    destruct (slot_in_table channels appointed_channel ltac:(lia)) as (c & Hc).
    rewrite (slot_read_Done channels appointed_channel c ltac:(lia) Hc).
    cbn [obind].
    destruct (Z.eqb_spec (used c) IPC_CHANNEL_UNUSED) as [Hfree | Hbusy].
    + left. exists appointed_channel, c. split; [lia |]. split; [exact Hc |].
      split; [exact Hfree |]. split; [reflexivity |].
      split; [intros Hinv; contradiction | reflexivity].
    + right. split; [reflexivity |]. split.
      * intros _. split; [lia |]. exists c. auto.
      * intros Hinv. contradiction.
Qed.

(** X11.  [columbus_ipc_get_channel] checks its partner, operation and mode
    arguments by assertion only.  Under DEBUG a value outside the enumeration
    is BUG.  A production build accepts any value: a partner other than the
    RF DSP is served from the PLC table, a mode other than interrupt gets all
    16 slots, and the slot found -- the appointed one, or the lowest unused
    one -- is stamped with the values as given; without an unused slot the
    call returns NULL and changes nothing. *)
Theorem columbus_ipc_get_channel_unchecked_arguments {P : Platform}
    (t : channel_tables) (partner operation mode appointed_channel : Z) :
  (DEBUG = true ->
   ~ ((partner = IPC_PARTNER_RF_DSP \/ partner = IPC_PARTNER_PLC_DSP)
      /\ (operation = IPC_SEND_OPERATION \/ operation = IPC_RECEIVE_OPERATION)
      /\ (mode = IPC_COMMUNICATION_INT \/ mode = IPC_COMMUNICATION_POLL)) ->
   columbus_ipc_get_channel t partner operation mode appointed_channel = Bug)
  /\ (DEBUG = false -> tables_wf t ->
      appointed_channel = COLUMBUS_IPC_INVALID
      \/ 0 <= appointed_channel < slots_for mode ->
      (exists i,
          columbus_ipc_get_channel t partner operation mode appointed_channel
          = Done (Some (mk_handle (table_for partner) i),
                  set_table t (table_for partner)
                    (<[Z.to_nat i := stamped partner operation mode]>
                       (table_of t (table_for partner))))
          /\ 0 <= i < slots_for mode
          /\ slot_unused (table_of t (table_for partner)) i
          /\ (appointed_channel <> COLUMBUS_IPC_INVALID ->
              i = appointed_channel)
          /\ (appointed_channel = COLUMBUS_IPC_INVALID ->
              forall j, 0 <= j < i ->
                        slot_occupied (table_of t (table_for partner)) j))
      \/ (columbus_ipc_get_channel t partner operation mode appointed_channel
          = Done (None, t)
          /\ (appointed_channel <> COLUMBUS_IPC_INVALID ->
              slot_occupied (table_of t (table_for partner)) appointed_channel)
          /\ (appointed_channel = COLUMBUS_IPC_INVALID ->
              forall j, 0 <= j < slots_for mode ->
                        slot_occupied (table_of t (table_for partner)) j))).
Proof.
  split.
  - intros Hdebug Hbad. unfold columbus_ipc_get_channel, IPC_BUG.
    rewrite Hdebug. cbn [andb].
    destruct (Z.eqb_spec partner IPC_PARTNER_RF_DSP) as [Hrf | Hrf];
      destruct (Z.eqb_spec partner IPC_PARTNER_PLC_DSP) as [Hplc | Hplc];
      cbn [negb andb obind]; try reflexivity;
      (destruct (Z.eqb_spec operation IPC_SEND_OPERATION) as [Hs | Hs];
       destruct (Z.eqb_spec operation IPC_RECEIVE_OPERATION) as [Hr | Hr];
       cbn [negb andb obind]; try reflexivity);
      (destruct (Z.eqb_spec mode IPC_COMMUNICATION_INT) as [Hi | Hi];
       destruct (Z.eqb_spec mode IPC_COMMUNICATION_POLL) as [Hp | Hp];
       cbn [negb andb obind]; try reflexivity);
      exfalso; apply Hbad; auto.
  - intros Hprod Hwf Happ.
    pose proof (tables_wf_length t (table_for partner) Hwf) as Hlen.
    assert (Hslots : 0 < slots_for mode <= 16).
    { unfold slots_for, IPC_IRQ_CHANNEL_NUM, A7_RF_IPC_CHANNEL_NUM.
      destruct (mode =? IPC_COMMUNICATION_INT); lia. }
    assert (Hhead :
      columbus_ipc_get_channel t partner operation mode appointed_channel =
      (r <- get_free_channel (table_of t (table_for partner)) (slots_for mode)
                             appointed_channel ;;;
       let '(channel, tbl) := r in
       match channel with
       | Some i =>
           c <- slot_read tbl i ;;;
           Done (Some (mk_handle (table_for partner) i),
                 set_table t (table_for partner)
                   (<[Z.to_nat i := set_ipc_channel c partner operation mode]>
                      tbl))
       | None => Done (None, set_table t (table_for partner) tbl)
       end)).
    { unfold columbus_ipc_get_channel, get_channels, get_max_channel,
        table_for, slots_for.
      rewrite !IPC_BUG_nodebug by exact Hprod. cbn [obind].
      destruct (partner =? IPC_PARTNER_RF_DSP),
               (mode =? IPC_COMMUNICATION_INT);
        rewrite ?IPC_BUG_nodebug by exact Hprod; reflexivity. }
    rewrite Hhead. clear Hhead.
    destruct (get_free_channel_spec (table_of t (table_for partner))
                (slots_for mode) appointed_channel Hlen Hslots Happ)
      as [(k & c & Hk & Hc & Hu & Hgiven & Hbelow & ->) | (-> & Hocc & Hfull)].
    + left. exists k. cbn [obind].
      rewrite (slot_read_Done _ k (set_used c IPC_CHANNEL_USED))
        by (try apply list_lookup_insert_eq; lia).
      cbn [obind]. rewrite list_insert_insert_eq.
      split; [reflexivity |]. split; [exact Hk |]. split.
      * split; [lia |]. exists c. auto.
      * split; assumption.
    + right. cbn [obind]. rewrite set_table_same.
      split; [reflexivity |]. split; assumption.
Qed.

Lemma columbus_ipc_get_channel_unchecked_arguments_witness :
  @columbus_ipc_get_channel bench_debug initial_tables 5 IPC_SEND_OPERATION
    IPC_COMMUNICATION_POLL COLUMBUS_IPC_INVALID = Bug
  /\ exists i,
       @columbus_ipc_get_channel bench initial_tables 5 IPC_SEND_OPERATION 7
         COLUMBUS_IPC_INVALID
       = Done (Some (mk_handle plc_table i),
               set_table initial_tables plc_table
                 (<[Z.to_nat i := stamped 5 IPC_SEND_OPERATION 7]>
                    (table_of initial_tables plc_table)))
       /\ 0 <= i < 16.
Proof.
  split.
  - apply (@columbus_ipc_get_channel_unchecked_arguments bench_debug);
      [reflexivity |].
    intros ([H | H] & _); discriminate.
  - destruct (@columbus_ipc_get_channel_unchecked_arguments bench
                initial_tables 5 IPC_SEND_OPERATION 7 COLUMBUS_IPC_INVALID)
      as (_ & Hprod).
    destruct (Hprod eq_refl initial_tables_wf ltac:(now left))
      as [(i & Hget & Hi & _) | (Hnone & _)].
    + exists i. split; [exact Hget | exact Hi].
    + exfalso. revert Hnone. vm_compute. discriminate.
Defined.

(** ** Interrupts nobody waits for *)

(** The handler goes through when its assertions hold or are compiled
    out. *)
Lemma columbus_ipc_irq_handler_runs {P : Platform} (m : machine) (line : Z)
    (c : ipc_channel) (d : Z) :
  0 <= line < 16 ->
  slot_read (table_of (tables m) (line_table line)) (line_channel line)
  = Done c ->
  irq_done m !! Z.to_nat line = Some d ->
  DEBUG = false \/ line_armed (tables m) line c ->
  columbus_ipc_irq_handler m line
  = Done (mk_machine (io m) (tables m)
            (<[Z.to_nat line := d + 1]> (irq_done m)) (shared_ram m)
            (log m ++ [Iowrite32 (u32 (Z.shiftl 1 (line_channel line)))
                                 (line_ack line)])).
Proof.
  intros Hline Hc Hd Hok.
  unfold columbus_ipc_irq_handler, IPC_IRQ_CHANNEL_NUM.
  replace (line <? 0) with false by lia.
  replace (line >=? 8 + 8) with false by lia.
  rewrite !IPC_BUG_false. cbn [obind].
  unfold line_armed, line_table, line_channel, line_ack,
    IPC_IRQ_CHANNEL_NUM in *.
  destruct Hok as [Hprod | (_ & Hused & Hmode & Hpartner & Hop)].
  - destruct (Z.ltb_spec line 8) as [Hrf | Hplc]; cbn [table_of] in Hc;
      rewrite Hc; cbn [obind];
      rewrite !(IPC_BUG_nodebug _ Hprod); cbn [obind];
      (destruct (operation c =? IPC_SEND_OPERATION);
       rewrite ?(IPC_BUG_nodebug _ Hprod)); cbn [obind];
      rewrite Hd; reflexivity.
  - destruct (Z.ltb_spec line 8) as [Hrf | Hplc]; cbn [table_of] in Hc;
      rewrite Hc; cbn [obind]; rewrite Hpartner; cbn [Z.eqb Pos.eqb negb];
      rewrite IPC_BUG_false; cbn [obind]; rewrite Hused, Hmode;
      cbn [Z.eqb Pos.eqb negb]; rewrite !IPC_BUG_false; cbn [obind];
      (replace (if operation c =? IPC_SEND_OPERATION
                then Done tt
                else IPC_BUG (negb (operation c =? IPC_RECEIVE_OPERATION)))
         with (@Done unit tt)
         by (destruct Hop as [-> | ->]; cbn [Z.eqb Pos.eqb negb];
             rewrite ?IPC_BUG_false; reflexivity));
      cbn [obind]; rewrite Hd; reflexivity.
Qed.

(** X12.  When one of the 16 lines fires although the slot behind it is not
    in use as an interrupt-mode channel of that line's partner, a DEBUG build
    stops with BUG.  A production build does not look at the slot: it
    signals the completion of the line and acknowledges the interrupt as for
    an armed channel. *)
Theorem columbus_ipc_irq_handler_unarmed_line {P : Platform} (m : machine)
    (line : Z) (c : ipc_channel) (d : Z) :
  0 <= line < 16 ->
  slot_read (table_of (tables m) (line_table line)) (line_channel line)
  = Done c ->
  irq_done m !! Z.to_nat line = Some d ->
  ~ line_armed (tables m) line c ->
  columbus_ipc_irq_handler m line
  = if DEBUG then Bug
    else Done (mk_machine (io m) (tables m)
                 (<[Z.to_nat line := d + 1]> (irq_done m)) (shared_ram m)
                 (log m ++ [Iowrite32 (u32 (Z.shiftl 1 (line_channel line)))
                                      (line_ack line)])).
Proof.
  intros Hline Hc Hd Hbad.
  destruct DEBUG eqn:Hdebug.
  2:{ apply (columbus_ipc_irq_handler_runs m line c d); auto. }
  assert (Hbad' : ~ (used c = IPC_CHANNEL_USED
                     /\ mode c = IPC_COMMUNICATION_INT
                     /\ partner c = (if line <? IPC_IRQ_CHANNEL_NUM
                                     then IPC_PARTNER_RF_DSP
                                     else IPC_PARTNER_PLC_DSP)
                     /\ (operation c = IPC_SEND_OPERATION
                         \/ operation c = IPC_RECEIVE_OPERATION))).
  { intros H. apply Hbad. split; [exact Hc | exact H]. }
  clear Hbad.
  unfold columbus_ipc_irq_handler, IPC_IRQ_CHANNEL_NUM.
  replace (line <? 0) with false by lia.
  replace (line >=? 8 + 8) with false by lia.
  rewrite !IPC_BUG_false. cbn [obind].
  unfold line_table, line_channel, IPC_IRQ_CHANNEL_NUM in *.
  unfold IPC_BUG. rewrite Hdebug. cbn [andb].
  destruct (Z.ltb_spec line 8) as [Hrf | Hplc]; cbn [table_of] in Hc;
    rewrite Hc; cbn [obind];
    (match goal with
     | |- context [partner c =? ?p] =>
         destruct (Z.eqb_spec (partner c) p) as [Hp | Hp]
     end; cbn [negb obind]; [| reflexivity]);
    (destruct (Z.eqb_spec (used c) IPC_CHANNEL_USED) as [Hu | Hu];
     cbn [negb obind]; [| reflexivity]);
    (destruct (Z.eqb_spec (mode c) IPC_COMMUNICATION_INT) as [Hm | Hm];
     cbn [negb obind]; [| reflexivity]);
    (destruct (Z.eqb_spec (operation c) IPC_SEND_OPERATION) as [Hs | Hs];
     [exfalso; apply Hbad'; auto |]);
    (destruct (Z.eqb_spec (operation c) IPC_RECEIVE_OPERATION) as [Hr | Hr];
     [exfalso; apply Hbad'; auto |]);
    reflexivity.
Qed.

Lemma columbus_ipc_irq_handler_unarmed_line_witness :
  @columbus_ipc_irq_handler bench idle_machine 13
  = Done (mk_machine (mk_sram_regs 0 0) initial_tables
            (<[13%nat := 1]> (repeat 0 16)) (fun _ => 0)
            [Iowrite32 32 PLCTOA7IPCACK]).
Proof.
  apply (@columbus_ipc_irq_handler_unarmed_line bench idle_machine 13
           zero_channel 0).
  - lia.
  - reflexivity.
  - reflexivity.
  - intros (_ & Hused & _). discriminate.
Defined.

(** ** Waiting for the partner *)

(** X13.  In interrupt mode [columbus_ipc_receive_message] re-initialises the
    completion of its line before it enables the interrupt.  A completion
    signalled before the call is therefore lost: unless the interrupt fires
    again during the wait, the caller stays blocked, whatever the counter
    was.  When it does fire on the armed channel, the wait ends with the
    counter back at zero, having enabled the interrupt, acknowledged it in
    the handler and disabled it again. *)
Theorem receive_wait_drops_earlier_completion {P : Platform} (m : machine)
    (c : ipc_channel) (channel_num : Z) (env : receive_input) :
  let line := channel_num
              + (if partner c =? IPC_PARTNER_PLC_DSP
                 then IPC_IRQ_CHANNEL_NUM else 0) in
  mode c = IPC_COMMUNICATION_INT ->
  0 <= line < 16 -> length (irq_done m) = 16%nat ->
  (irq_arrives env = false -> receive_wait m c channel_num env = Blocked)
  /\ (irq_arrives env = true ->
      forall c', line_armed (tables m) line c' ->
      receive_wait m c channel_num env
      = Done (mk_machine (io m) (tables m)
                (<[Z.to_nat line := 0]> (irq_done m)) (shared_ram m)
                (log m ++ [Enable_irq line;
                           Iowrite32 (u32 (Z.shiftl 1 (line_channel line)))
                                     (line_ack line);
                           Disable_irq line]))).
Proof.
  intros line Hmode Hline Hlen.
  assert (Hwait : forall arrives,
    irq_arrives env = arrives ->
    receive_wait m c channel_num env =
    (let m := with_irq_done m (<[Z.to_nat line := 0]> (irq_done m)) in
     let m := emit m (Enable_irq line) in
     m <- (if arrives then columbus_ipc_irq_handler m line else Done m) ;;;
     m <- wait_for_completion m line ;;;
     Done (emit m (Disable_irq line)))).
  { intros arrives Harr. unfold receive_wait. rewrite Hmode, Harr.
    cbn [Z.eqb]. unfold line in *. clear line.
    destruct (partner c =? IPC_PARTNER_PLC_DSP);
      change (0 + IPC_IRQ_CHANNEL_NUM) with IPC_IRQ_CHANNEL_NUM;
      unfold IPC_IRQ_CHANNEL_NUM in *;
      match goal with
      | |- context [(?a <? 0) || (?b <=? ?a)] =>
          replace ((a <? 0) || (b <=? a)) with false by lia
      end; reflexivity. }
  assert (Hzero : (<[Z.to_nat line := 0]> (irq_done m)) !! Z.to_nat line
                  = Some 0).
  { apply list_lookup_insert_eq. lia. }
  split.
  - intros Harr. rewrite (Hwait false Harr). cbv zeta. cbn [obind].
    unfold wait_for_completion.
    replace (line <? 0) with false by lia.
    cbn [emit with_irq_done irq_done]. rewrite Hzero. reflexivity.
  - intros Harr c' Harmed. rewrite (Hwait true Harr). cbv zeta.
    pose proof Harmed as (Hc' & _).
    rewrite (columbus_ipc_irq_handler_runs _ line c' 0);
      [| exact Hline | exact Hc' | exact Hzero | right; exact Harmed].
    cbn [obind]. unfold wait_for_completion.
    replace (line <? 0) with false by lia.
    cbn [emit with_irq_done irq_done io tables shared_ram log].
    rewrite list_lookup_insert_eq by (rewrite length_insert; lia).
    change (0 + 1) with 1. change (1 =? 0) with false. change (1 - 1) with 0.
    cbn [obind emit with_irq_done irq_done io tables shared_ram log].
    rewrite !list_insert_insert_eq. unfold emit, with_irq_done.
    cbn [irq_done io tables shared_ram log].
    rewrite <- !app_assoc. reflexivity.
Qed.

Lemma receive_wait_drops_earlier_completion_witness :
  @receive_wait bench_debug
    (with_irq_done
       (machine_with rf_table 2 IPC_PARTNER_RF_DSP IPC_RECEIVE_OPERATION
                     IPC_COMMUNICATION_INT)
       (<[2%nat := 1]> (repeat 0 16)))
    (stamped IPC_PARTNER_RF_DSP IPC_RECEIVE_OPERATION IPC_COMMUNICATION_INT)
    2 (mk_receive_input false [] 1 0 0 0 true)
  = Blocked.
Proof.
  apply (@receive_wait_drops_earlier_completion bench_debug
           (with_irq_done
              (machine_with rf_table 2 IPC_PARTNER_RF_DSP
                            IPC_RECEIVE_OPERATION IPC_COMMUNICATION_INT)
              (<[2%nat := 1]> (repeat 0 16)))
           (stamped IPC_PARTNER_RF_DSP IPC_RECEIVE_OPERATION
                    IPC_COMMUNICATION_INT)
           2 (mk_receive_input false [] 1 0 0 0 true)).
  - reflexivity.
  - vm_compute. split; congruence.
  - reflexivity.
  - reflexivity.
Defined.

Lemma land_channel_bit (a n : Z) :
  0 <= n ->
  (Z.land a (Z.shiftl 1 n) =? 0) = negb (Z.testbit a n).
Proof.
  intros Hn. rewrite Z.shiftl_1_l.
  destruct (Z.testbit a n) eqn:Hbit; cbn [negb].
  - apply Z.eqb_neq. intros Hz.
    assert (Hb : Z.testbit (Z.land a (2 ^ n)) n = true)
      by (rewrite Z.land_spec, Hbit, Z.pow2_bits_true by lia; reflexivity).
    rewrite Hz, Z.bits_0 in Hb. discriminate.
  - apply Z.eqb_eq. apply Z.bits_inj'. intros k Hk.
    rewrite Z.land_spec, Z.bits_0, Z.pow2_bits_eqb by lia.
    destruct (Z.eqb_spec n k) as [-> | _];
      [rewrite Hbit; reflexivity | apply andb_false_r].
Qed.

Lemma testbit_u32_low (v n : Z) :
  0 <= n < 32 -> Z.testbit (u32 v) n = Z.testbit v n.
Proof. intros Hn. unfold u32. apply Z.mod_pow2_bits_low. lia. Qed.

(** X14.  The poll loop of [columbus_ipc_receive_message] reads the status
    register at least once and leaves at the first read in which the bit of
    its own channel is set; the other bits of the register play no part.
    It consumes [S n] reads exactly when bit [channel_num] is set in read [n]
    and clear in all earlier ones, and stays blocked when no read has the
    bit. *)
Theorem receive_poll_loop_tests_channel_bit (sts_reads : list Z)
    (channel_num : Z) :
  0 <= channel_num < 16 ->
  receive_poll_loop sts_reads channel_num <> Done O
  /\ (forall n,
        receive_poll_loop sts_reads channel_num = Done (S n)
        <-> (exists v, nth_error sts_reads n = Some v
                       /\ Z.testbit v channel_num = true)
            /\ forall k v, (k < n)%nat -> nth_error sts_reads k = Some v ->
                           Z.testbit v channel_num = false)
  /\ ((forall v, In v sts_reads -> Z.testbit v channel_num = false) ->
      receive_poll_loop sts_reads channel_num = Blocked).
Proof.
  intros Hn.
  assert (Hstep : forall v rest,
    receive_poll_loop (v :: rest) channel_num
    = if Z.testbit v channel_num then Done 1%nat
      else (n <- receive_poll_loop rest channel_num ;;; Done (S n))).
  { intros v rest. cbn [receive_poll_loop].
    rewrite land_channel_bit, testbit_u32_low by lia.
    destruct (Z.testbit v channel_num); reflexivity. }
  split; [| split].
  - destruct sts_reads as [| v rest]; [discriminate |].
    rewrite Hstep. destruct (Z.testbit v channel_num); [discriminate |].
    destruct (receive_poll_loop rest channel_num); discriminate.
  - induction sts_reads as [| v0 rest IH]; intros n.
    + cbn [receive_poll_loop]. split; [discriminate |].
      intros ((v & Hv & _) & _). destruct n; discriminate.
    + rewrite Hstep. destruct (Z.testbit v0 channel_num) eqn:Hbit.
      * split.
        -- intros [= <-]. split; [exists v0; auto |]. intros k v Hk. lia.
        -- intros (_ & Hbefore). destruct n as [| n]; [reflexivity |].
           specialize (Hbefore O v0 ltac:(lia) eq_refl). congruence.
      * destruct n as [| n].
        -- split.
           ++ destruct (receive_poll_loop rest channel_num) as [k | | |]
                eqn:Hrun; cbn [obind]; try discriminate.
              intros [= ->]. exfalso.
              destruct rest as [| v1 rest']; [discriminate |].
              rewrite Hstep in Hrun.
              destruct (Z.testbit v1 channel_num); [discriminate |].
              destruct (receive_poll_loop rest' channel_num); discriminate.
           ++ intros ((v & [= <-] & Hset) & _). congruence.
        -- specialize (IH n). split.
           ++ destruct (receive_poll_loop rest channel_num) as [k | | |]
                eqn:Hrun; cbn [obind]; try discriminate.
              intros [= ->]. destruct (proj1 IH eq_refl) as (Hex & Hbefore).
              split; [exact Hex |].
              intros [| k] v Hk Hv; [injection Hv as <-; exact Hbit |].
              apply (Hbefore k v); [lia | exact Hv].
           ++ intros (Hex & Hbefore).
              rewrite (proj2 IH); [reflexivity |].
              split; [exact Hex |].
              intros k v Hk Hv. apply (Hbefore (S k) v); [lia | exact Hv].
  - induction sts_reads as [| v0 rest IH]; intros Hnone; [reflexivity |].
    rewrite Hstep, (Hnone v0) by (now left).
    rewrite IH; [reflexivity |]. intros v Hv. apply Hnone. now right.
Qed.

Lemma receive_poll_loop_tests_channel_bit_witness :
  receive_poll_loop [5; 13; 2] 1 = Done 3%nat.
Proof.
  destruct (receive_poll_loop_tests_channel_bit [5; 13; 2] 1 ltac:(lia))
    as (_ & Hexit & _).
  apply Hexit. split.
  - exists 2. split; reflexivity.
  - intros k v Hk Hv.
    destruct k as [| [| k]]; [| | lia]; injection Hv as <-; reflexivity.
Defined.

(** ** A message that gets through *)

Lemma ipc_sram_alloc_at_will_granted {P : Platform}
    (Hlocal : ctrl_local) (Hgrants : ctrl_grants) (Hmap : sram_mapped)
    (io : sram_regs) (size s : Z) :
  0 < size <= 32768 ->
  lowest_free_run io s (size2npages size) ->
  exists io1,
    ipc_sram_alloc io NULL size
    = Done (sram + s * COLUMBUS_IPC_PAGE_SIZE, io1)
    /\ (forall j, s <= j < s + size2npages size -> owner io1 j = ownership_a7)
    /\ (forall q, 0 <= q < 32 -> q < s \/ s + size2npages size <= q ->
                  owner io1 q = owner io q).
Proof.
  intros Hs Hlow. pose proof (size2npages_range size Hs) as Hn.
  rewrite ipc_sram_alloc_at_will by exact Hs.
  pose proof (lowest_free_run_found io _ (-1) s Hn Hlow) as Hfind.
  pose proof Hlow as ((Hs0 & Hs1 & Hfree) & _).
  unfold SHARED_RAM_PAGE_NUM in Hs1.
  destruct (grab_loop_granted Hlocal Hgrants (Z.to_nat (size2npages size))
              io s 0) as (io1 & Hgrab & Hin & Hout); try lia.
  { intros j Hj. apply page_is_owner; [lia |]. apply Hfree. lia. }
  exists io1.
  rewrite (try_to_grab_sram_pages_at io (-1) _ s) by (right; auto).
  rewrite Hgrab. cbn [obind].
  rewrite Z2Nat.id, Z.add_0_l, Z.eqb_refl by lia. cbn [obind].
  destruct (Z.eqb_spec s (-1)) as [| _]; [lia |]. cbn [negb].
  rewrite page_addr_u32 by (try exact Hmap; lia).
  split; [reflexivity |]. split.
  - intros j Hj. apply Hin. lia.
  - intros q Hq Hside. apply Hout; lia.
Qed.

Lemma ipc_sram_free_run {P : Platform}
    (Hlocal : ctrl_local) (Hrel : ctrl_releases) (Hmap : sram_mapped)
    (io : sram_regs) (size s : Z) :
  0 < size <= 32768 -> 0 <= s -> s + size2npages size <= 32 ->
  (forall j, s <= j < s + size2npages size -> owner io j = ownership_a7) ->
  exists io2,
    ipc_sram_free io (sram + s * COLUMBUS_IPC_PAGE_SIZE) size = Done io2
    /\ (forall j, s <= j < s + size2npages size -> owner io2 j = ownership_free)
    /\ (forall q, 0 <= q < 32 -> q < s \/ s + size2npages size <= q ->
                  owner io2 q = owner io q).
Proof.
  intros Hs Hs0 Hs1 Hown. pose proof (size2npages_range size Hs) as Hn.
  rewrite ipc_sram_free_page_run by (try assumption; lia).
  unfold free_sram_pages.
  destruct (release_loop_spec Hlocal Hrel (Z.to_nat (size2npages size)) io s 0)
    as (io2 & Hfree & Hfin & Hfout); try lia.
  { intros j Hj. apply Hown. lia. }
  exists io2. split; [exact Hfree |]. split.
  - intros j Hj. apply Hfin. lia.
  - intros q Hq Hside. apply Hfout; lia.
Qed.

Lemma page_of_page_address {P : Platform} (Hmap : sram_mapped) (p : Z) :
  0 <= p < 32 ->
  pagenum2pageaddr p = sram + p * COLUMBUS_IPC_PAGE_SIZE
  /\ pageaddr2pagenum (sram + p * COLUMBUS_IPC_PAGE_SIZE) = Done p.
Proof.
  intros Hp. pose proof Hmap as (Hm0 & Hm1 & Hm2).
  unfold COLUMBUS_IPC_SRAM_SIZE, COLUMBUS_IPC_PAGE_SIZE in *.
  assert (Hu : u32 (sram + p * 1024) = sram + p * 1024)
    by (unfold u32; apply Z.mod_small; lia).
  split.
  - unfold pagenum2pageaddr, COLUMBUS_IPC_PAGE_SIZE.
    destruct (Z.eqb_spec p (-1)) as [| _]; [lia | exact Hu].
  - unfold pageaddr2pagenum, COLUMBUS_IPC_SRAM_SIZE, COLUMBUS_IPC_PAGE_SIZE.
    rewrite Hu, Z.rem_mod_nonneg by lia.
    rewrite Z.mod_add, Hm2 by lia.
    replace (sram + p * 1024 <? sram) with false by lia.
    replace (sram + p * 1024 >=? sram + 32768) with false by lia.
    cbn [negb Z.eqb]. rewrite !IPC_BUG_false. cbn [obind].
    replace (sram + p * 1024 - sram) with (p * 1024) by lia.
    rewrite Z.quot_mul by lia. reflexivity.
Qed.

Lemma log_iowrite32 (m : machine) (v : Z) (r : reg) :
  log (iowrite32 m v r) = log m ++ [Iowrite32 (u32 v) r].
Proof. reflexivity. Qed.

Lemma log_with_io (m : machine) (r : sram_regs) : log (with_io m r) = log m.
Proof. reflexivity. Qed.

Lemma log_with_shared_ram (m : machine) (f : Z -> Z) :
  log (with_shared_ram m f) = log m.
Proof. reflexivity. Qed.

Lemma to_int_small (z : Z) : 0 <= z < 2 ^ 31 -> to_int z = z.
Proof.
  intros Hz. unfold to_int, u32. rewrite Z.mod_small by lia.
  now replace (z <? 2 ^ 31) with true by lia.
Qed.

Lemma channel_bit_nonzero (n : Z) : 0 <= n < 32 -> u32 (Z.shiftl 1 n) <> 0.
Proof.
  intros Hn. rewrite Z.shiftl_1_l. unfold u32.
  assert (0 < 2 ^ n < 2 ^ 32).
  { split; [apply Z.pow_pos_nonneg; lia | apply Z.pow_lt_mono_r; lia]. }
  rewrite Z.mod_small by lia. lia.
Qed.

Lemma handle_live_slot {P : Platform} (t : channel_tables)
    (h : channel_handle) :
  handle_live t h -> 0 <= h_slot h < 16.
Proof.
  intros (c0 & Hc0 & _ & _ & _ & _ & Hmode & Hlt).
  pose proof (deref_slot_nonneg _ _ _ Hc0).
  unfold slots_for, IPC_IRQ_CHANNEL_NUM, A7_RF_IPC_CHANNEL_NUM in Hlt.
  destruct (mode c0 =? IPC_COMMUNICATION_INT); lia.
Qed.

(** Up to the wait for the partner, and what the call leaves behind once
    the wait is over. *)
Lemma columbus_ipc_send_message_run {P : Platform}
    (Hlocal : ctrl_local) (Hgrants : ctrl_grants) (Hrel : ctrl_releases)
    (Hmap : sram_mapped)
    (m : machine) (channel : channel_handle) (c : ipc_channel)
    (message : list Z) (len s : Z) (flag_reads : list Z) :
  handle_live (tables m) channel ->
  deref (tables m) channel = Done c ->
  0 < len <= 32768 -> len <= Z.of_nat (length message) ->
  lowest_free_run (io m) s (size2npages len) ->
  let rf := partner c =? IPC_PARTNER_RF_DSP in
  let base := sram + s * COLUMBUS_IPC_PAGE_SIZE in
  exists m',
    columbus_ipc_send_message m channel message len (-1) flag_reads
    = (send_wait_loop flag_reads (u32 (Z.shiftl 1 (h_slot channel))) ;;;
       Done (len, m'))
    /\ ownership_vector (io m') = ownership_vector (io m)
    /\ tables m' = tables m /\ irq_done m' = irq_done m
    /\ log m'
       = log m ++
         [Iowrite32 (u32 IPC_DATA_READ)
                    (if rf then A7TORFIPCCOMM else A7TOPLCIPCCOMM);
          Iowrite32 (u32 (sram_phy + s * COLUMBUS_IPC_PAGE_SIZE))
                    (if rf then A7TORFIPCADDR else A7TOPLCIPCADDR);
          Iowrite32 (u32 len)
                    (if rf then A7TORFIPCDATA0 else A7TOPLCIPCDATA0);
          Iowrite32 (u32 (Z.lor s (Z.shiftl IPC_END_MSG 16)))
                    (if rf then A7TORFIPCDATA1 else A7TOPLCIPCDATA1);
          Iowrite32 (u32 (Z.shiftl 1 (h_slot channel)))
                    (if rf then A7TORFIPCSET else A7TOPLCIPCSET);
          Iowrite32 (u32 (Z.shiftl 1 (h_slot channel)))
                    (if rf then RFTOA7IPCACK else PLCTOA7IPCACK)]
    /\ (forall a, base <= a < base + len ->
                  shared_ram m' a = nth (Z.to_nat (a - base)) message 0)
    /\ (forall a, a < base \/ base + len <= a ->
                  shared_ram m' a = shared_ram m a).
Proof.
  intros Hlive Hc Hlen Hmsg Hlow rf base.
  pose proof (size2npages_range len Hlen) as Hn.
  pose proof Hlow as ((Hs0 & Hs1 & _) & _).
  unfold SHARED_RAM_PAGE_NUM in Hs1.
  assert (Hslot : 0 <= h_slot channel < 16).
  { destruct Hlive as (c0 & Hc0 & _ & _ & _ & _ & Hmode & Hlt).
    pose proof (deref_slot_nonneg _ _ _ Hc0).
    unfold slots_for, IPC_IRQ_CHANNEL_NUM, A7_RF_IPC_CHANNEL_NUM in Hlt.
    destruct (mode c0 =? IPC_COMMUNICATION_INT); lia. }
  destruct (ipc_sram_alloc_at_will_granted Hlocal Hgrants Hmap (io m) len s
              Hlen Hlow) as (io1 & Halloc & Hin & Hout).
  destruct (ipc_sram_free_run Hlocal Hrel Hmap io1 len s Hlen)
    as (io2 & Hfree & Hfin & Hfout); try lia; try exact Hin.
  destruct (page_of_page_address Hmap s ltac:(lia)) as (Haddr & Hpage).
  assert (Hbase : (base =? NULL) = false).
  { destruct Hmap as (Hm0 & _). unfold base, NULL, COLUMBUS_IPC_PAGE_SIZE.
    lia. }
  unfold columbus_ipc_send_message.
  rewrite (channel2num_live _ _ Hlive), Hc. cbn [obind].
  replace (len =? 0) with false by lia.
  change (pagenum2pageaddr (-1)) with NULL.
  rewrite to_int_small by lia.
  rewrite Halloc. cbn [obind]. fold base. rewrite Hbase.
  unfold base at 1. rewrite Hpage. cbn [obind].
  replace (Z.of_nat (length message) <? len) with false by lia.
  cbn [obind]. fold rf.
  unfold notify_partner.
  cbn [tables iowrite32 emit with_shared_ram with_io].
  rewrite (channel2num_live _ _ Hlive), Hc. cbn [obind]. fold rf.
  rewrite Haddr.
  assert (Hvec : ownership_vector io2 = ownership_vector (io m)).
  { apply ownership_vector_ext. intros q Hq.
    destruct (Z.lt_ge_cases q s) as [Hlt | Hge].
    - rewrite Hfout by lia. apply Hout; lia.
    - destruct (Z.lt_ge_cases q (s + size2npages len)) as [Hin' | Hout'].
      + rewrite Hfin by lia. symmetry.
        destruct Hlow as ((_ & _ & Hfree0) & _).
        apply page_is_owner; [lia |]. apply Hfree0. lia.
      + rewrite Hfout by lia. apply Hout; lia. }
  assert (Hcopy : forall a,
            memcpy_in (memset (shared_ram m) base 0 len) base message len a
            = if (base <=? a) && (a <? base + len)
              then nth (Z.to_nat (a - base)) message 0
              else shared_ram m a).
  { intros a. unfold memcpy_in, memset.
    destruct ((base <=? a) && (a <? base + len)); reflexivity. }
  clearbody rf.
  destruct rf; cbn [obind snd];
    match goal with
    | |- context [ipc_sram_free (io ?M) _ _] => change (io M) with io1
    end;
    rewrite Hfree; cbn [obind];
    (eexists; split; [reflexivity |]);
    (split; [exact Hvec |]); (split; [reflexivity |]);
    (split; [reflexivity |]);
    (split;
     [repeat (rewrite log_iowrite32 || rewrite log_with_io
              || rewrite log_with_shared_ram);
      rewrite <- !app_assoc; reflexivity |]);
    match goal with
    | |- context [shared_ram ?M _] =>
        change (shared_ram M)
          with (memcpy_in (memset (shared_ram m) base 0 len) base message len)
    end;
    (split; intros a Ha; rewrite Hcopy;
     [replace ((base <=? a) && (a <? base + len)) with true by lia
     |replace ((base <=? a) && (a <? base + len)) with false by lia];
     reflexivity).
Qed.


(** X15.  A send that gets through.  On a live handle, with a message of
    [len] bytes, 0 < [len] <= 32768, no page pinned, a run of free pages long
    enough, a controller that grants and releases, and the flag register
    reading zero at some read: the call returns [len]; the payload was
    zeroed-then-copied to the lowest such run; the four header registers of
    the partner were written (command, physical address of the run, length,
    page index with the end marker), the partner was notified and, after the
    first zero read of the flag register, acknowledged; the pages of the run
    are free again, with the payload still in them. *)
Theorem columbus_ipc_send_message_delivers {P : Platform}
    (Hlocal : ctrl_local) (Hgrants : ctrl_grants) (Hrel : ctrl_releases)
    (Hmap : sram_mapped)
    (m : machine) (channel : channel_handle) (c : ipc_channel)
    (message : list Z) (len s : Z) (flag_reads : list Z) (k : nat) :
  handle_live (tables m) channel ->
  deref (tables m) channel = Done c ->
  0 < len <= 32768 -> len <= Z.of_nat (length message) ->
  lowest_free_run (io m) s (size2npages len) ->
  (exists v, nth_error flag_reads k = Some v /\ u32 v = 0) ->
  (forall j v, (j < k)%nat -> nth_error flag_reads j = Some v -> u32 v <> 0) ->
  let rf := partner c =? IPC_PARTNER_RF_DSP in
  let base := sram + s * COLUMBUS_IPC_PAGE_SIZE in
  exists m',
    columbus_ipc_send_message m channel message len (-1) flag_reads
    = Done (len, m')
    /\ ownership_vector (io m') = ownership_vector (io m)
    /\ tables m' = tables m /\ irq_done m' = irq_done m
    /\ log m'
       = log m ++
         [Iowrite32 (u32 IPC_DATA_READ)
                    (if rf then A7TORFIPCCOMM else A7TOPLCIPCCOMM);
          Iowrite32 (u32 (sram_phy + s * COLUMBUS_IPC_PAGE_SIZE))
                    (if rf then A7TORFIPCADDR else A7TOPLCIPCADDR);
          Iowrite32 (u32 len)
                    (if rf then A7TORFIPCDATA0 else A7TOPLCIPCDATA0);
          Iowrite32 (u32 (Z.lor s (Z.shiftl IPC_END_MSG 16)))
                    (if rf then A7TORFIPCDATA1 else A7TOPLCIPCDATA1);
          Iowrite32 (u32 (Z.shiftl 1 (h_slot channel)))
                    (if rf then A7TORFIPCSET else A7TOPLCIPCSET);
          Iowrite32 (u32 (Z.shiftl 1 (h_slot channel)))
                    (if rf then RFTOA7IPCACK else PLCTOA7IPCACK)]
    /\ (forall a, base <= a < base + len ->
                  shared_ram m' a = nth (Z.to_nat (a - base)) message 0)
    /\ (forall a, a < base \/ base + len <= a ->
                  shared_ram m' a = shared_ram m a).
Proof.
  intros Hlive Hc Hlen Hmsg Hlow Hzero Hbefore rf base.
  destruct (columbus_ipc_send_message_run Hlocal Hgrants Hrel Hmap m channel c
              message len s flag_reads Hlive Hc Hlen Hmsg Hlow)
    as (m' & Hsend & Hrest).
  assert (Hslot : 0 <= h_slot channel < 16)
    by (exact (handle_live_slot _ _ Hlive)).
  assert (Hwait : send_wait_loop flag_reads (u32 (Z.shiftl 1 (h_slot channel)))
                  = Done (S k)).
  { apply send_wait_loop_exit; [apply channel_bit_nonzero; lia |].
    split; assumption. }
  exists m'. rewrite Hsend, Hwait. split; [reflexivity | exact Hrest].
Qed.

Lemma columbus_ipc_send_message_delivers_witness :
  exists m',
    @columbus_ipc_send_message bench_debug
      (machine_with rf_table 3 IPC_PARTNER_RF_DSP IPC_SEND_OPERATION
                    IPC_COMMUNICATION_POLL)
      (mk_handle rf_table 3) [10; 20; 30; 40] 4 (-1) [8; 0]
    = Done (4, m')
    /\ log m' = [Iowrite32 1 A7TORFIPCCOMM;
                 Iowrite32 0x40200000 A7TORFIPCADDR;
                 Iowrite32 4 A7TORFIPCDATA0;
                 Iowrite32 0xFFFF0000 A7TORFIPCDATA1;
                 Iowrite32 8 A7TORFIPCSET;
                 Iowrite32 8 RFTOA7IPCACK].
Proof.
  destruct (@columbus_ipc_send_message_delivers bench_debug
              (bench_ctrl_local _ _ _ _ _ _) (bench_ctrl_grants _ _ _ _ _ _)
              (bench_ctrl_releases _ _ _ _ _ _) (bench_sram_mapped _ _ _ _ _ _)
              (machine_with rf_table 3 IPC_PARTNER_RF_DSP IPC_SEND_OPERATION
                            IPC_COMMUNICATION_POLL)
              (mk_handle rf_table 3)
              (stamped IPC_PARTNER_RF_DSP IPC_SEND_OPERATION
                       IPC_COMMUNICATION_POLL)
              [10; 20; 30; 40] 4 0 [8; 0] 1%nat)
    as (m' & Hsend & _ & _ & _ & Hlog & _).
  - apply (machine_with_live 3); [lia | now left | now right].
  - reflexivity.
  - lia.
  - cbn. lia.
  - split.
    + split; [lia |]. split; [vm_compute; congruence |].
      intros j Hj. change (size2npages 4) with 1 in Hj.
      assert (j = 0) as -> by lia. reflexivity.
    + intros s' (Hs' & _). exact Hs'.
  - exists 0. split; reflexivity.
  - intros j v Hj Hv. destruct j as [| j]; [| lia].
    injection Hv as <-. vm_compute. discriminate.
  - exists m'. split; [exact Hsend | exact Hlog].
Defined.

Lemma send_wait_loop_blocked (flag_reads : list Z) :
  forall ipc_flag,
    ipc_flag <> 0 ->
    (forall v, In v flag_reads -> u32 v <> 0) ->
    send_wait_loop flag_reads ipc_flag = Blocked.
Proof.
  induction flag_reads as [| v0 rest IH]; intros ipc_flag Hflag Hall;
    cbn [send_wait_loop]; replace (ipc_flag =? 0) with false by lia;
    [reflexivity |].
  rewrite IH; [reflexivity | apply Hall; now left |].
  intros v Hv. apply Hall. now right.
Qed.

(** X16.  The same send when the partner never lets the whole flag register
    read zero: the call does not return.  It has taken its pages and written
    the header by then. *)
Theorem columbus_ipc_send_message_never_acknowledged {P : Platform}
    (Hlocal : ctrl_local) (Hgrants : ctrl_grants) (Hrel : ctrl_releases)
    (Hmap : sram_mapped)
    (m : machine) (channel : channel_handle) (c : ipc_channel)
    (message : list Z) (len s : Z) (flag_reads : list Z) :
  handle_live (tables m) channel ->
  deref (tables m) channel = Done c ->
  0 < len <= 32768 -> len <= Z.of_nat (length message) ->
  lowest_free_run (io m) s (size2npages len) ->
  (forall v, In v flag_reads -> u32 v <> 0) ->
  columbus_ipc_send_message m channel message len (-1) flag_reads = Blocked.
Proof.
  intros Hlive Hc Hlen Hmsg Hlow Hbusy.
  destruct (columbus_ipc_send_message_run Hlocal Hgrants Hrel Hmap m channel c
              message len s flag_reads Hlive Hc Hlen Hmsg Hlow)
    as (m' & Hsend & _).
  rewrite Hsend.
  rewrite send_wait_loop_blocked; [reflexivity | | exact Hbusy].
  apply channel_bit_nonzero.
  pose proof (handle_live_slot _ _ Hlive). lia.
Qed.

Lemma columbus_ipc_send_message_never_acknowledged_witness :
  @columbus_ipc_send_message bench_debug
    (machine_with rf_table 3 IPC_PARTNER_RF_DSP IPC_SEND_OPERATION
                  IPC_COMMUNICATION_POLL)
    (mk_handle rf_table 3) [10; 20; 30; 40] 4 (-1) [8; 16; 1]
  = Blocked.
Proof.
  apply (@columbus_ipc_send_message_never_acknowledged bench_debug
           (bench_ctrl_local _ _ _ _ _ _) (bench_ctrl_grants _ _ _ _ _ _)
           (bench_ctrl_releases _ _ _ _ _ _) (bench_sram_mapped _ _ _ _ _ _)
           (machine_with rf_table 3 IPC_PARTNER_RF_DSP IPC_SEND_OPERATION
                         IPC_COMMUNICATION_POLL)
           (mk_handle rf_table 3)
           (stamped IPC_PARTNER_RF_DSP IPC_SEND_OPERATION
                    IPC_COMMUNICATION_POLL)
           [10; 20; 30; 40] 4 0 [8; 16; 1]).
  - apply (machine_with_live 3); [lia | now left | now right].
  - reflexivity.
  - lia.
  - cbn. lia.
  - split.
    + split; [lia |]. split; [vm_compute; congruence |].
      intros j Hj. change (size2npages 4) with 1 in Hj.
      assert (j = 0) as -> by lia. reflexivity.
    + intros s' (Hs' & _). exact Hs'.
  - intros v [<- | [<- | [<- | []]]]; vm_compute; discriminate.
Defined.

(** ** No room for the message *)

Lemma with_io_same (m : machine) : with_io m (io m) = m.
Proof. destruct m; reflexivity. Qed.

(** X17.  [columbus_ipc_send_message] with no page pinned returns -ENOSPC
    and leaves the machine as it was -- no page taken, no register written,
    shared RAM untouched -- when the message is longer than the 32K window,
    and when the window has no run of free pages long enough. *)
Theorem columbus_ipc_send_message_no_space {P : Platform}
    (m : machine) (channel : channel_handle)
    (message : list Z) (len : Z) (flag_reads : list Z) :
  handle_live (tables m) channel ->
  0 < len < 2 ^ 32 ->
  32768 < len \/ (forall s, ~ free_run (io m) s (size2npages len)) ->
  columbus_ipc_send_message m channel message len (-1) flag_reads
  = Done (- ENOSPC, m).
Proof.
  intros Hlive Hlen Hfull.
  assert (Halloc : ipc_sram_alloc (io m) NULL (to_int len)
                   = Done (NULL, io m)).
  { destruct (Z.le_gt_cases len 32768) as [Hfit | Hbig].
    - destruct Hfull as [Hbig | Hnone]; [lia |].
      rewrite to_int_small by lia.
      rewrite ipc_sram_alloc_at_will by lia.
      destruct (find_consecutive_free_sram_pages_spec (io m) (size2npages len)
                  (-1) (size2npages_range len ltac:(lia)))
        as [(s & _ & Hrun & _) | (Hfind & _)].
      + exfalso. exact (Hnone s Hrun).
      + rewrite (try_to_grab_sram_pages_none _ _ _ Hfind). reflexivity.
    - apply ipc_sram_alloc_rejects.
      unfold to_int, u32. rewrite Z.mod_small by lia.
      destruct (Z.ltb_spec len (2 ^ 31)); [right; left; lia | left; lia]. }
  unfold columbus_ipc_send_message.
  rewrite (channel2num_live _ _ Hlive). cbn [obind].
  destruct Hlive as (c & -> & _). cbn [obind].
  replace (len =? 0) with false by lia.
  change (pagenum2pageaddr (-1)) with NULL.
  rewrite Halloc. cbn [obind]. rewrite Z.eqb_refl, with_io_same.
  reflexivity.
Qed.

Lemma columbus_ipc_send_message_no_space_witness :
  @columbus_ipc_send_message bench_debug
    (machine_with rf_table 3 IPC_PARTNER_RF_DSP IPC_SEND_OPERATION
                  IPC_COMMUNICATION_POLL)
    (mk_handle rf_table 3) [] 40000 (-1) []
  = Done (- ENOSPC,
          machine_with rf_table 3 IPC_PARTNER_RF_DSP IPC_SEND_OPERATION
                       IPC_COMMUNICATION_POLL).
Proof.
  apply (@columbus_ipc_send_message_no_space bench_debug).
  - apply (machine_with_live 3); [lia | now left | now right].
  - lia.
  - left. lia.
Defined.

(** ** The inbound header *)

(** X18.  The address a partner puts into the header is in that partner's
    view of the window.  [is_valid_address] answers 1 for the page-aligned
    addresses of the view and 0 outside the view; for an address it accepts,
    [address_from_a7_view] followed by [phy2vir] gives the A7's virtual
    address at the same offset into the window. *)
Theorem inbound_address_translation {P : Platform}
    (Hmap : sram_mapped) (Hphys : phys_mapped)
    (t : channel_tables) (channel : channel_handle) (c : ipc_channel)
    (address : Z) :
  deref t channel = Done c ->
  0 <= address < 2 ^ 32 ->
  let view := if partner c =? IPC_PARTNER_RF_DSP
              then COLUMBUS_SRAM_RF_VIEW else COLUMBUS_SRAM_PLC_VIEW in
  (view <= address < view + COLUMBUS_IPC_SRAM_SIZE ->
   address mod COLUMBUS_IPC_PAGE_SIZE = 0 ->
   is_valid_address t channel address = Done 1
   /\ (a <- address_from_a7_view t channel address ;;; phy2vir a)
      = Done (sram + (address - view)))
  /\ (address < view \/ view + COLUMBUS_IPC_SRAM_SIZE <= address ->
      is_valid_address t channel address = Done 0).
Proof.
  intros Hc Haddr view.
  destruct Hmap as (Hm0 & Hm1 & _). destruct Hphys as (Hp0 & Hp1).
  unfold is_valid_address, address_from_a7_view, phy2vir. rewrite Hc.
  cbn [obind].
  unfold COLUMBUS_IPC_SRAM_SIZE, COLUMBUS_IPC_PAGE_SIZE in *.
  subst view.
  split.
  - intros Hin Hal.
    destruct (partner c =? IPC_PARTNER_RF_DSP);
      match goal with
      | |- context [(?a >=? ?lo) && (?a <? ?hi)] =>
          replace ((a >=? lo) && (a <? hi)) with true by lia
      end;
      rewrite Z.rem_mod_nonneg, Hal by lia; cbn [Z.eqb negb];
      rewrite IPC_BUG_false; cbn [obind];
      (split; [reflexivity |]);
      match goal with
      | |- context [u32 (address - ?v)] =>
          assert (Hoff : u32 (address - v) = address - v)
            by (unfold u32; apply Z.mod_small; lia);
          rewrite Hoff;
          assert (Hpa : u32 (sram_phy + (address - v))
                        = sram_phy + (address - v))
            by (unfold u32; apply Z.mod_small; lia);
          rewrite Hpa
      end;
      match goal with
      | |- context [(?a <? ?lo) || (?a >=? ?hi)] =>
          replace ((a <? lo) || (a >=? hi)) with false by lia
      end;
      rewrite IPC_BUG_false; cbn [obind]; f_equal;
      unfold u32; rewrite Z.mod_small by lia; lia.
  - intros Hout.
    destruct (partner c =? IPC_PARTNER_RF_DSP);
      match goal with
      | |- context [(?a >=? ?lo) && (?a <? ?hi)] =>
          replace ((a >=? lo) && (a <? hi)) with false by lia
      end; reflexivity.
Qed.

Lemma inbound_address_translation_witness :
  (a <- @address_from_a7_view bench_debug
          (tables (machine_with rf_table 1 IPC_PARTNER_RF_DSP
                                IPC_RECEIVE_OPERATION IPC_COMMUNICATION_POLL))
          (mk_handle rf_table 1) (COLUMBUS_SRAM_RF_VIEW + 0x400) ;;;
   @phy2vir bench_debug a)
  = Done (0xC8800000 + 0x400).
Proof.
  destruct (@inbound_address_translation bench_debug
              (bench_sram_mapped _ _ _ _ _ _)
              ltac:(split; vm_compute; congruence)
              (tables (machine_with rf_table 1 IPC_PARTNER_RF_DSP
                                    IPC_RECEIVE_OPERATION
                                    IPC_COMMUNICATION_POLL))
              (mk_handle rf_table 1)
              (stamped IPC_PARTNER_RF_DSP IPC_RECEIVE_OPERATION
                       IPC_COMMUNICATION_POLL)
              (COLUMBUS_SRAM_RF_VIEW + 0x400) eq_refl
              ltac:(vm_compute; split; congruence))
    as (Hview & _).
  destruct Hview as (_ & Htrans).
  - vm_compute. split; congruence.
  - reflexivity.
  - exact Htrans.
Defined.

(** ** Receiving without a message *)

(** X19.  Two returns of [columbus_ipc_receive_message] that hand the caller
    no buffer.  When the command register does not read DataReady, the call
    still stores the length word of the header into [*len] and returns it,
    and [*message] gets the value of a pointer that was never assigned.
    When the command is DataReady but [kmalloc] fails, the call returns
    -ENOMEM and assigns neither [*message] nor [*len].  In both cases the
    machine is left as it was when the wait ended. *)
Theorem columbus_ipc_receive_message_without_buffer {P : Platform}
    (m m1 : machine) (channel : channel_handle) (c : ipc_channel)
    (channel_num : Z) (env : receive_input) :
  channel2num (tables m) channel = Done channel_num ->
  deref (tables m) channel = Done c ->
  receive_wait (acked m c channel_num) c channel_num env = Done m1 ->
  (u32 (in_command env) <> u32 IPC_DATA_READ ->
   columbus_ipc_receive_message m channel env
   = Done (mk_received (to_int (u32 (in_data0 env)))
             (Some (Indeterminate, u32 (in_data0 env))), m1))
  /\ (u32 (in_command env) = u32 IPC_DATA_READ ->
      DEBUG = false \/ (header_ok c env /\ phys_mapped) ->
      kmalloc_ok env = false ->
      columbus_ipc_receive_message m channel env
      = Done (mk_received (- ENOMEM) None, m1)).
Proof.
  intros Hnum Hc Hwait.
  destruct (receive_wait_keeps _ _ _ _ _ Hwait) as (Ht1 & _ & _).
  destruct (acked_keeps m c channel_num) as (Ht0 & _).
  rewrite Ht0 in Ht1.
  assert (Hrun :
    columbus_ipc_receive_message m channel env = receive_retrieve m1 channel env).
  { unfold columbus_ipc_receive_message. rewrite Hnum, Hc. cbn [obind].
    fold (acked m c channel_num). rewrite Hwait. reflexivity. }
  rewrite Hrun. unfold receive_retrieve. split.
  - intros Hcmd.
    destruct (Z.eqb_spec (u32 (in_command env)) (u32 IPC_DATA_READ));
      [contradiction | reflexivity].
  - intros Hcmd Hok Hmem. rewrite Hcmd, Z.eqb_refl.
    unfold is_valid_address, address_from_a7_view, phy2vir.
    rewrite Ht1, Hc. cbn [obind]. rewrite Hmem. cbn [negb].
    destruct Hok as [Hprod | ((Hwin & Hal & Hlen) & (Hp0 & Hp1))].
    + destruct (partner c =? IPC_PARTNER_RF_DSP);
        repeat match goal with
               | |- context [if ?b then _ else _] =>
                   match b with
                   | (_ >=? _) && (_ <? _) => destruct b
                   end
               end;
        cbn [obind]; rewrite ?(IPC_BUG_nodebug _ Hprod); cbn [obind];
        rewrite ?(IPC_BUG_nodebug _ Hprod); reflexivity.
    + unfold COLUMBUS_IPC_SRAM_SIZE, COLUMBUS_IPC_PAGE_SIZE in *.
      assert (Hoff : forall view,
                 view <= u32 (in_address env) < view + 32768 ->
                 sram_phy <= u32 (sram_phy + u32 (u32 (in_address env) - view))
                 < sram_phy + 32768).
      { intros view Hv.
        assert (Hin : u32 (u32 (in_address env) - view)
                      = u32 (in_address env) - view)
          by (apply Z.mod_small; lia).
        rewrite Hin.
        assert (Hout : u32 (sram_phy + (u32 (in_address env) - view))
                       = sram_phy + (u32 (in_address env) - view))
          by (apply Z.mod_small; lia).
        rewrite Hout. lia. }
      destruct (partner c =? IPC_PARTNER_RF_DSP);
        specialize (Hoff _ Hwin);
        match goal with
        | |- context [(?a >=? ?lo) && (?a <? ?hi)] =>
            replace ((a >=? lo) && (a <? hi)) with true by lia
        end;
        rewrite Z.rem_mod_nonneg
          by (pose proof (u32_range (in_address env)); lia);
        rewrite Hal; cbn [Z.eqb negb]; rewrite IPC_BUG_false;
        cbn [obind Z.eqb];
        rewrite IPC_BUG_false; cbn [obind];
        match goal with
        | |- context [(?a <? ?lo) || (?a >=? ?hi)] =>
            replace ((a <? lo) || (a >=? hi)) with false by lia
        end;
        rewrite IPC_BUG_false; cbn [obind];
        replace (u32 (in_data0 env) >? 32768) with false by lia;
        rewrite IPC_BUG_false; reflexivity.
Qed.

Lemma columbus_ipc_receive_message_without_buffer_witness :
  @columbus_ipc_receive_message bench_debug sample_receiver
    (mk_handle rf_table 1) (mk_receive_input false [0; 2] 7 0 3 0 true)
  = Done (mk_received 3 (Some (Indeterminate, 3)),
          @acked sample_receiver
            (stamped IPC_PARTNER_RF_DSP IPC_RECEIVE_OPERATION
                     IPC_COMMUNICATION_POLL) 1).
Proof.
  destruct (@columbus_ipc_receive_message_without_buffer bench_debug
              sample_receiver
              (acked sample_receiver
                 (stamped IPC_PARTNER_RF_DSP IPC_RECEIVE_OPERATION
                          IPC_COMMUNICATION_POLL) 1)
              (mk_handle rf_table 1)
              (stamped IPC_PARTNER_RF_DSP IPC_RECEIVE_OPERATION
                       IPC_COMMUNICATION_POLL)
              1 (mk_receive_input false [0; 2] 7 0 3 0 true))
    as (Hother & _).
  - reflexivity.
  - reflexivity.
  - reflexivity.
  - apply Hother. vm_compute. discriminate.
Defined.

(** ** The message file *)

Lemma with_tables_same (m : machine) : with_tables m (tables m) = m.
Proof. destruct m; reflexivity. Qed.

Lemma notify_partner_keeps {P : Platform} (m m' : machine)
    (channel : channel_handle) (r : Z) :
  notify_partner m channel = Done (r, m') -> tables m' = tables m.
Proof.
  unfold notify_partner.
  destruct (channel2num _ _); cbn [obind]; try discriminate.
  destruct (deref _ _) as [c | | |]; cbn [obind]; try discriminate.
  destruct (partner c =? _); intros [= _ <-]; reflexivity.
Qed.

(** Sending changes no channel slot. *)
Lemma columbus_ipc_send_message_keeps_tables {P : Platform} (m m' : machine)
    (channel : channel_handle) (message : list Z) (len page_num : Z)
    (flag_reads : list Z) (r : Z) :
  columbus_ipc_send_message m channel message len page_num flag_reads
  = Done (r, m') ->
  tables m' = tables m.
Proof.
  unfold columbus_ipc_send_message.
  destruct (channel2num _ _); cbn [obind]; try discriminate.
  destruct (deref _ _) as [c | | |]; cbn [obind]; try discriminate.
  destruct (len =? 0); [intros [= _ <-]; reflexivity |].
  destruct (ipc_sram_alloc _ _ _) as [[sram_addr regs] | | |]; cbn [obind];
    try discriminate.
  destruct (sram_addr =? NULL); [intros [= _ <-]; reflexivity |].
  destruct (pageaddr2pagenum sram_addr); cbn [obind]; try discriminate.
  destruct (Z.of_nat (length message) <? len); cbn [obind]; try discriminate.
  match goal with
  | |- obind (notify_partner ?M _) _ = _ -> _ =>
      destruct (notify_partner M channel) as [[z m3] | | |] eqn:Hnotify
  end; cbn [obind snd]; try discriminate.
  apply notify_partner_keeps in Hnotify.
  destruct (send_wait_loop _ _); cbn [obind]; try discriminate.
  destruct (ipc_sram_free _ _ _); cbn [obind]; try discriminate.
  intros [= _ <-]. exact Hnotify.
Qed.

Lemma receive_retrieve_keeps {P : Platform} (m m' : machine)
    (channel : channel_handle) (env : receive_input) (r : received) :
  receive_retrieve m channel env = Done (r, m') -> m' = m.
Proof.
  unfold receive_retrieve.
  destruct (_ =? _); [| intros [= _ <-]; reflexivity].
  destruct (is_valid_address _ _ _); cbn [obind]; try discriminate.
  destruct (IPC_BUG _); cbn [obind]; try discriminate.
  destruct (address_from_a7_view _ _ _); cbn [obind]; try discriminate.
  destruct (phy2vir _); cbn [obind]; try discriminate.
  destruct (IPC_BUG _); cbn [obind]; try discriminate.
  destruct (negb _); [intros [= _ <-]; reflexivity |].
  match goal with
  | |- obind ?r _ = _ -> _ => destruct r
  end; cbn [obind]; try discriminate.
  intros [= _ <-]. reflexivity.
Qed.

(** Receiving changes no channel slot. *)
Lemma columbus_ipc_receive_message_keeps_tables {P : Platform}
    (m m' : machine) (channel : channel_handle) (env : receive_input)
    (r : received) :
  columbus_ipc_receive_message m channel env = Done (r, m') ->
  tables m' = tables m.
Proof.
  unfold columbus_ipc_receive_message.
  destruct (channel2num _ _) as [n | | |]; cbn [obind]; try discriminate.
  destruct (deref _ _) as [c | | |]; cbn [obind]; try discriminate.
  fold (acked m c n).
  destruct (receive_wait _ _ _ _) as [m1 | | |] eqn:Hwait; cbn [obind];
    try discriminate.
  intros Hret. apply receive_retrieve_keeps in Hret. subst m'.
  destruct (receive_wait_keeps _ _ _ _ _ Hwait) as (Ht & _).
  rewrite Ht. apply acked_keeps.
Qed.

(** After a well-formed acquisition the handle can be put back, which
    leaves its slot unused and the other slots as before the
    acquisition. *)
Lemma columbus_ipc_get_channel_then_put {P : Platform}
    (t t1 : channel_tables) (p o md appointed_channel : Z)
    (h : channel_handle) :
  tables_wf t ->
  p = IPC_PARTNER_RF_DSP \/ p = IPC_PARTNER_PLC_DSP ->
  o = IPC_SEND_OPERATION \/ o = IPC_RECEIVE_OPERATION ->
  md = IPC_COMMUNICATION_INT \/ md = IPC_COMMUNICATION_POLL ->
  appointed_channel = COLUMBUS_IPC_INVALID
  \/ 0 <= appointed_channel < slots_for md ->
  columbus_ipc_get_channel t p o md appointed_channel = Done (Some h, t1) ->
  exists t2,
    columbus_ipc_put_channel t1 h = Done t2
    /\ (exists c, deref t2 h = Done c /\ used c = IPC_CHANNEL_UNUSED)
    /\ (forall h', h' <> h -> deref t2 h' = deref t h').
Proof.
  intros Hwf Hpartner Hop Hmode Happ Hget.
  destruct (columbus_ipc_get_channel_spec t p o md appointed_channel
              Hwf Hpartner Hop Hmode Happ)
    as [(i & Hget' & Hi & Hunused & _) | (Hnone & _)];
    [| rewrite Hnone in Hget; discriminate].
  rewrite Hget' in Hget. injection Hget as <- <-.
  set (which := table_for p) in *.
  set (tbl := table_of t which) in *.
  pose proof Hunused as (_ & c0 & Hc0 & _).
  assert (Hlt : (Z.to_nat i < length tbl)%nat)
    by (eapply lookup_lt_Some; eauto).
  set (cleared := clear_ipc_channel (stamped p o md)).
  exists (set_table t which (<[Z.to_nat i := cleared]> tbl)).
  split; [| split].
  - rewrite (columbus_ipc_put_channel_stamped _ _ p o md); try assumption.
    + cbn [h_table h_slot].
      rewrite table_of_set_table, set_table_set_table, list_insert_insert_eq.
      reflexivity.
    + unfold deref. cbn [h_table h_slot]. rewrite table_of_set_table.
      apply slot_read_Done; [lia |]. now apply list_lookup_insert_eq.
  - exists cleared. split; [| reflexivity].
    unfold deref. cbn [h_table h_slot]. rewrite table_of_set_table.
    apply slot_read_Done; [lia |]. now apply list_lookup_insert_eq.
  - intros h' Hne. apply deref_set_table_ne; [lia | exact Hne].
Qed.

Section MessageFile.
Context {P : Platform}.
Variable m : machine.
Variable s : sysfs_state.
Hypothesis Hwf : tables_wf (tables m).
Hypothesis Hpartner :
  current_partner s = IPC_PARTNER_RF_DSP
  \/ current_partner s = IPC_PARTNER_PLC_DSP.
Hypothesis Hoperation :
  current_operation s = IPC_SEND_OPERATION
  \/ current_operation s = IPC_RECEIVE_OPERATION.
Hypothesis Hmode :
  current_mode s = IPC_COMMUNICATION_INT
  \/ current_mode s = IPC_COMMUNICATION_POLL.
Hypothesis Hchannel :
  current_channel s = COLUMBUS_IPC_INVALID
  \/ 0 <= current_channel s < slots_for (current_mode s).

(** X20.  A write to the message file, with the four attributes set to
    values of their enumerations.  If no channel can be had -- the chosen
    slot is in use, or none of the mode's slots is unused -- the write
    returns -EINVAL and changes nothing.  Otherwise it returns whatever
    [columbus_ipc_send_message] returns on the channel acquired, -ENOSPC
    included, and puts the channel back before it returns: the slot is
    unused again and all other slots are untouched. *)
Theorem columbus_ipc_message_write_puts_channel_back
    (src : list Z) (src_size : Z) (flag_reads : list Z) :
  (columbus_ipc_get_channel (tables m) (current_partner s)
     (current_operation s) (current_mode s) (current_channel s)
   = Done (None, tables m)
   /\ columbus_ipc_message_write m s src src_size flag_reads
      = Done (- EINVAL, m))
  \/ (exists h t1,
        columbus_ipc_get_channel (tables m) (current_partner s)
          (current_operation s) (current_mode s) (current_channel s)
        = Done (Some h, t1)
        /\ forall r m2,
             columbus_ipc_send_message (with_tables m t1) h src src_size
               (current_page s) flag_reads = Done (r, m2) ->
             exists t2,
               columbus_ipc_message_write m s src src_size flag_reads
               = Done (r, with_tables m2 t2)
               /\ (exists c, deref t2 h = Done c
                             /\ used c = IPC_CHANNEL_UNUSED)
               /\ (forall h', h' <> h ->
                              deref t2 h' = deref (tables m) h')).
Proof.
  unfold columbus_ipc_message_write.
  destruct (columbus_ipc_get_channel_spec (tables m) (current_partner s)
              (current_operation s) (current_mode s) (current_channel s)
              Hwf Hpartner Hoperation Hmode Hchannel)
    as [(i & Hget & _) | (Hnone & _)].
  - right. eexists _, _. split; [exact Hget |].
    intros r m2 Hsend. rewrite Hget. cbn [obind]. rewrite Hsend. cbn [obind].
    destruct (columbus_ipc_get_channel_then_put _ _ _ _ _ _ _ Hwf Hpartner
                Hoperation Hmode Hchannel Hget) as (t2 & Hput & Hclear & Hframe).
    exists t2.
    rewrite (columbus_ipc_send_message_keeps_tables _ _ _ _ _ _ _ _ Hsend).
    cbn [tables with_tables]. rewrite Hput. cbn [obind].
    split; [reflexivity |]. split; assumption.
  - left. split; [exact Hnone |]. rewrite Hnone. cbn [obind].
    now rewrite with_tables_same.
Qed.

(** X21.  A read of the message file, with the four attributes set to
    values of their enumerations.  At a non-zero offset it returns 0 and
    does nothing.  If no channel can be had it returns -EINVAL and changes
    nothing.  Otherwise it ignores the return value of
    [columbus_ipc_receive_message]: when that call handed back no buffer
    (-ENOMEM, or a command other than DataReady) the read goes on to use
    the unassigned pointer or length; when it handed back a buffer that fits
    the reader's, the read returns the length with the bytes of that buffer
    -- written or not -- and puts the channel back; a buffer that does not
    fit is BUG under DEBUG and otherwise copied past the end of the
    reader's buffer. *)
Theorem columbus_ipc_message_read_ignores_receive_result
    (src_off src_size : Z) (env : receive_input) :
  (src_off <> 0 ->
   columbus_ipc_message_read m s src_off src_size env = Done (0, None, m))
  /\ (src_off = 0 ->
      (columbus_ipc_get_channel (tables m) (current_partner s)
         (current_operation s) (current_mode s) (current_channel s)
       = Done (None, tables m)
       /\ columbus_ipc_message_read m s src_off src_size env
          = Done (- EINVAL, None, m))
      \/ (exists h t1,
            columbus_ipc_get_channel (tables m) (current_partner s)
              (current_operation s) (current_mode s) (current_channel s)
            = Done (Some h, t1)
            /\ forall r m2,
                 columbus_ipc_receive_message (with_tables m t1) h env
                 = Done (r, m2) ->
                 match out r with
                 | Some (Buffer cells, len) =>
                     (len <= src_size ->
                      exists t2,
                        columbus_ipc_message_read m s src_off src_size env
                        = Done (to_int len, Some cells, with_tables m2 t2)
                        /\ (exists c, deref t2 h = Done c
                                      /\ used c = IPC_CHANNEL_UNUSED)
                        /\ (forall h', h' <> h ->
                                       deref t2 h' = deref (tables m) h'))
                     /\ (src_size < len ->
                         columbus_ipc_message_read m s src_off src_size env
                         = if DEBUG then Bug else Stray)
                 | _ =>
                     columbus_ipc_message_read m s src_off src_size env = Stray
                 end)).
Proof.
  unfold columbus_ipc_message_read. split.
  - intros Hoff. destruct (Z.eqb_spec src_off 0); [contradiction |].
    reflexivity.
  - intros ->. cbn [Z.eqb negb].
    destruct (columbus_ipc_get_channel_spec (tables m) (current_partner s)
                (current_operation s) (current_mode s) (current_channel s)
                Hwf Hpartner Hoperation Hmode Hchannel)
      as [(i & Hget & _) | (Hnone & _)].
    + right. eexists _, _. split; [exact Hget |].
      intros r m2 Hrecv. rewrite Hget. cbn [obind]. rewrite Hrecv.
      cbn [obind].
      destruct (out r) as [[[cells |] len] |]; try reflexivity.
      split.
      * intros Hfit.
        destruct (columbus_ipc_get_channel_then_put _ _ _ _ _ _ _ Hwf Hpartner
                    Hoperation Hmode Hchannel Hget)
          as (t2 & Hput & Hclear & Hframe).
        exists t2. replace (len >? src_size) with false by lia.
        rewrite IPC_BUG_false. cbn [obind].
        rewrite (columbus_ipc_receive_message_keeps_tables _ _ _ _ _ Hrecv).
        cbn [tables with_tables]. rewrite Hput. cbn [obind].
        split; [reflexivity |]. split; assumption.
      * intros Hbig. replace (len >? src_size) with true by lia.
        unfold IPC_BUG. rewrite andb_true_r.
        destruct DEBUG; reflexivity.
    + left. split; [exact Hnone |]. rewrite Hnone. cbn [obind].
      now rewrite with_tables_same.
Qed.

End MessageFile.

Lemma columbus_ipc_message_write_puts_channel_back_witness :
  (exists m2 t2,
     @columbus_ipc_message_write bench_debug idle_machine
       (mk_sysfs_state IPC_PARTNER_RF_DSP IPC_SEND_OPERATION
                       IPC_COMMUNICATION_POLL COLUMBUS_IPC_INVALID (-1))
       [10; 20; 30; 40] 4 [8; 0]
     = Done (4, with_tables m2 t2)
     /\ log m2 = [Iowrite32 1 A7TORFIPCCOMM;
                  Iowrite32 0x40200000 A7TORFIPCADDR;
                  Iowrite32 4 A7TORFIPCDATA0;
                  Iowrite32 0xFFFF0000 A7TORFIPCDATA1;
                  Iowrite32 1 A7TORFIPCSET;
                  Iowrite32 1 RFTOA7IPCACK]
     /\ exists c, deref t2 (mk_handle rf_table 0) = Done c
                  /\ used c = IPC_CHANNEL_UNUSED)
  /\ @columbus_ipc_message_write bench_debug
       (machine_with rf_table 3 IPC_PARTNER_RF_DSP IPC_SEND_OPERATION
                     IPC_COMMUNICATION_POLL)
       (mk_sysfs_state IPC_PARTNER_RF_DSP IPC_SEND_OPERATION
                       IPC_COMMUNICATION_POLL 3 (-1))
       [10; 20; 30; 40] 4 [0]
     = Done (- EINVAL,
             machine_with rf_table 3 IPC_PARTNER_RF_DSP IPC_SEND_OPERATION
                          IPC_COMMUNICATION_POLL).
Proof.
  split.
  - destruct (@columbus_ipc_message_write_puts_channel_back bench_debug
                idle_machine
                (mk_sysfs_state IPC_PARTNER_RF_DSP IPC_SEND_OPERATION
                                IPC_COMMUNICATION_POLL COLUMBUS_IPC_INVALID
                                (-1))
                initial_tables_wf ltac:(now left) ltac:(now left)
                ltac:(now right) ltac:(now left)
                [10; 20; 30; 40] 4 [8; 0])
      as [(Hnone & _) | (h & t1 & Hget & Hsend)].
    + exfalso. revert Hnone. vm_compute. discriminate.
    + assert (Hget0 :
        @columbus_ipc_get_channel bench_debug (tables idle_machine)
          IPC_PARTNER_RF_DSP IPC_SEND_OPERATION IPC_COMMUNICATION_POLL
          COLUMBUS_IPC_INVALID
        = Done (Some (mk_handle rf_table 0),
                tables (machine_with rf_table 0 IPC_PARTNER_RF_DSP
                                     IPC_SEND_OPERATION
                                     IPC_COMMUNICATION_POLL)))
        by (vm_compute; reflexivity).
      cbn [current_partner current_operation current_mode current_channel]
        in Hget.
      rewrite Hget0 in Hget. injection Hget as <- <-.
      destruct (@columbus_ipc_send_message_run bench_debug
                  (bench_ctrl_local _ _ _ _ _ _)
                  (bench_ctrl_grants _ _ _ _ _ _)
                  (bench_ctrl_releases _ _ _ _ _ _)
                  (bench_sram_mapped _ _ _ _ _ _)
                  (machine_with rf_table 0 IPC_PARTNER_RF_DSP
                                IPC_SEND_OPERATION IPC_COMMUNICATION_POLL)
                  (mk_handle rf_table 0)
                  (stamped IPC_PARTNER_RF_DSP IPC_SEND_OPERATION
                           IPC_COMMUNICATION_POLL)
                  [10; 20; 30; 40] 4 0 [8; 0])
        as (m2 & Hrun & _ & _ & _ & Hlog & _).
      * apply (machine_with_live 0); [lia | now left | now right].
      * reflexivity.
      * lia.
      * cbn. lia.
      * split.
        -- split; [lia |]. split; [vm_compute; congruence |].
           intros j Hj. change (size2npages 4) with 1 in Hj.
           assert (j = 0) as -> by lia. reflexivity.
        -- intros s' (Hs' & _). exact Hs'.
      * destruct (Hsend 4 m2 Hrun) as (t2 & Hwrite & Hclear & _).
        exists m2, t2. split; [exact Hwrite |].
        split; [exact Hlog | exact Hclear].
  - destruct (@columbus_ipc_message_write_puts_channel_back bench_debug
                (machine_with rf_table 3 IPC_PARTNER_RF_DSP IPC_SEND_OPERATION
                              IPC_COMMUNICATION_POLL)
                (mk_sysfs_state IPC_PARTNER_RF_DSP IPC_SEND_OPERATION
                                IPC_COMMUNICATION_POLL 3 (-1))
                ltac:(split; reflexivity) ltac:(now left) ltac:(now left)
                ltac:(now right) ltac:(right; vm_compute; split; congruence)
                [10; 20; 30; 40] 4 [0])
      as [(_ & Hwrite) | (h & t1 & Hget & _)].
    + exact Hwrite.
    + exfalso. revert Hget. vm_compute. discriminate.
Defined.

Lemma columbus_ipc_message_read_ignores_receive_result_witness :
  (exists t2,
     @columbus_ipc_message_read bench_debug
       (with_shared_ram idle_machine (fun a => a mod 251))
       (mk_sysfs_state IPC_PARTNER_RF_DSP IPC_RECEIVE_OPERATION
                       IPC_COMMUNICATION_POLL 1 (-1))
       0 4096 (sample_input 0xFFFF0001)
     = Done (3,
             Some [Some ((0xC8800000 + 0x400) mod 251);
                   Some ((0xC8800000 + 0x401) mod 251);
                   Some ((0xC8800000 + 0x402) mod 251)],
             with_tables
               (@acked sample_receiver
                  (stamped IPC_PARTNER_RF_DSP IPC_RECEIVE_OPERATION
                           IPC_COMMUNICATION_POLL) 1) t2)
     /\ exists c, deref t2 (mk_handle rf_table 1) = Done c
                  /\ used c = IPC_CHANNEL_UNUSED)
  /\ @columbus_ipc_message_read bench_debug
       (with_shared_ram idle_machine (fun a => a mod 251))
       (mk_sysfs_state IPC_PARTNER_RF_DSP IPC_RECEIVE_OPERATION
                       IPC_COMMUNICATION_POLL 1 (-1))
       0 2 (sample_input 0xFFFF0001)
     = Bug
  /\ @columbus_ipc_message_read bench_debug
       (with_shared_ram idle_machine (fun a => a mod 251))
       (mk_sysfs_state IPC_PARTNER_RF_DSP IPC_RECEIVE_OPERATION
                       IPC_COMMUNICATION_POLL 1 (-1))
       0 4096
       (mk_receive_input false [0; 2] 1 (COLUMBUS_SRAM_RF_VIEW + 0x400) 3
                         0xFFFF0001 false)
     = Stray
  /\ @columbus_ipc_message_read bench_debug
       (machine_with rf_table 3 IPC_PARTNER_RF_DSP IPC_RECEIVE_OPERATION
                     IPC_COMMUNICATION_POLL)
       (mk_sysfs_state IPC_PARTNER_RF_DSP IPC_RECEIVE_OPERATION
                       IPC_COMMUNICATION_POLL 3 (-1))
       0 4096 (sample_input 0)
     = Done (- EINVAL, None,
             machine_with rf_table 3 IPC_PARTNER_RF_DSP IPC_RECEIVE_OPERATION
                          IPC_COMMUNICATION_POLL).
Proof.
  assert (Hget0 :
    @columbus_ipc_get_channel bench_debug initial_tables
      IPC_PARTNER_RF_DSP IPC_RECEIVE_OPERATION IPC_COMMUNICATION_POLL 1
    = Done (Some (mk_handle rf_table 1), tables sample_receiver))
    by (vm_compute; reflexivity).
  assert (Hbranch : forall src_size env,
    exists h t1,
      @columbus_ipc_get_channel bench_debug initial_tables
        IPC_PARTNER_RF_DSP IPC_RECEIVE_OPERATION IPC_COMMUNICATION_POLL 1
      = Done (Some h, t1)
      /\ forall r m2,
           @columbus_ipc_receive_message bench_debug
             (with_tables (with_shared_ram idle_machine (fun a => a mod 251))
                          t1) h env
           = Done (r, m2) ->
           match out r with
           | Some (Buffer cells, len) =>
               (len <= src_size ->
                exists t2,
                  @columbus_ipc_message_read bench_debug
                    (with_shared_ram idle_machine (fun a => a mod 251))
                    (mk_sysfs_state IPC_PARTNER_RF_DSP IPC_RECEIVE_OPERATION
                                    IPC_COMMUNICATION_POLL 1 (-1))
                    0 src_size env
                  = Done (to_int len, Some cells, with_tables m2 t2)
                  /\ (exists c, deref t2 h = Done c
                                /\ used c = IPC_CHANNEL_UNUSED)
                  /\ (forall h', h' <> h ->
                                 deref t2 h' = deref initial_tables h'))
               /\ (src_size < len ->
                   @columbus_ipc_message_read bench_debug
                     (with_shared_ram idle_machine (fun a => a mod 251))
                     (mk_sysfs_state IPC_PARTNER_RF_DSP IPC_RECEIVE_OPERATION
                                     IPC_COMMUNICATION_POLL 1 (-1))
                     0 src_size env
                   = if @DEBUG bench_debug then Bug else Stray)
           | _ =>
               @columbus_ipc_message_read bench_debug
                 (with_shared_ram idle_machine (fun a => a mod 251))
                 (mk_sysfs_state IPC_PARTNER_RF_DSP IPC_RECEIVE_OPERATION
                                 IPC_COMMUNICATION_POLL 1 (-1))
                 0 src_size env = Stray
           end).
  { intros src_size env.
    destruct (@columbus_ipc_message_read_ignores_receive_result bench_debug
                (with_shared_ram idle_machine (fun a => a mod 251))
                (mk_sysfs_state IPC_PARTNER_RF_DSP IPC_RECEIVE_OPERATION
                                IPC_COMMUNICATION_POLL 1 (-1))
                initial_tables_wf ltac:(now left) ltac:(now right)
                ltac:(now right) ltac:(right; vm_compute; split; congruence)
                0 src_size env)
      as (_ & Hread).
    destruct (Hread eq_refl) as [(Hnone & _) | Hsome].
    - exfalso. revert Hnone. vm_compute. discriminate.
    - exact Hsome. }
  split; [| split; [| split]].
  - destruct (Hbranch 4096 (sample_input 0xFFFF0001))
      as (h & t1 & Hget & Hrecv).
    rewrite Hget0 in Hget. injection Hget as <- <-.
    specialize (Hrecv
      (mk_received 3
         (Some (Buffer [Some ((0xC8800000 + 0x400) mod 251);
                        Some ((0xC8800000 + 0x401) mod 251);
                        Some ((0xC8800000 + 0x402) mod 251)], 3)))
      (@acked sample_receiver
         (stamped IPC_PARTNER_RF_DSP IPC_RECEIVE_OPERATION
                  IPC_COMMUNICATION_POLL) 1)
      eq_refl).
    cbn [out] in Hrecv. destruct Hrecv as (Hfit & _).
    destruct (Hfit ltac:(lia)) as (t2 & Hread & Hclear & _).
    exists t2. split; [exact Hread | exact Hclear].
  - destruct (Hbranch 2 (sample_input 0xFFFF0001))
      as (h & t1 & Hget & Hrecv).
    rewrite Hget0 in Hget. injection Hget as <- <-.
    specialize (Hrecv
      (mk_received 3
         (Some (Buffer [Some ((0xC8800000 + 0x400) mod 251);
                        Some ((0xC8800000 + 0x401) mod 251);
                        Some ((0xC8800000 + 0x402) mod 251)], 3)))
      (@acked sample_receiver
         (stamped IPC_PARTNER_RF_DSP IPC_RECEIVE_OPERATION
                  IPC_COMMUNICATION_POLL) 1)
      eq_refl).
    cbn [out] in Hrecv. destruct Hrecv as (_ & Hbig).
    exact (Hbig ltac:(lia)).
  - destruct (Hbranch 4096
                (mk_receive_input false [0; 2] 1
                   (COLUMBUS_SRAM_RF_VIEW + 0x400) 3 0xFFFF0001 false))
      as (h & t1 & Hget & Hrecv).
    rewrite Hget0 in Hget. injection Hget as <- <-.
    exact (Hrecv (mk_received (- ENOMEM) None)
             (@acked sample_receiver
                (stamped IPC_PARTNER_RF_DSP IPC_RECEIVE_OPERATION
                         IPC_COMMUNICATION_POLL) 1)
             eq_refl).
  - destruct (@columbus_ipc_message_read_ignores_receive_result bench_debug
                (machine_with rf_table 3 IPC_PARTNER_RF_DSP
                              IPC_RECEIVE_OPERATION IPC_COMMUNICATION_POLL)
                (mk_sysfs_state IPC_PARTNER_RF_DSP IPC_RECEIVE_OPERATION
                                IPC_COMMUNICATION_POLL 3 (-1))
                ltac:(split; reflexivity) ltac:(now left) ltac:(now right)
                ltac:(now right) ltac:(right; vm_compute; split; congruence)
                0 4096 (sample_input 0))
      as (_ & Hread).
    destruct (Hread eq_refl) as [(_ & Hnone) | (h & t1 & Hget & _)].
    + exact Hnone.
    + exfalso. revert Hget. vm_compute. discriminate.
Defined.

(** ** The attribute files *)

Lemma after_writes_app (s : sysfs_state) (ws : list attr_write)
    (w : attr_write) (len : Z) :
  after_writes s (ws ++ [w]) len
  = snd (do_attr_write (after_writes s ws len) w len).
Proof. unfold after_writes. now rewrite fold_left_app. Qed.

Lemma after_writes_invariant (ws : list attr_write) (len : Z) :
  let s := after_writes sysfs_initial ws len in
  (current_partner s = -1 \/ current_partner s = 0 \/ current_partner s = 1)
  /\ (current_operation s = -1 \/ current_operation s = 0
      \/ current_operation s = 1)
  /\ (current_mode s = -1 \/ current_mode s = 0 \/ current_mode s = 1)
  /\ (current_channel s = -1
      \/ (current_mode s <> -1 /\ current_channel s < 16)).
Proof.
  cbv zeta. induction ws as [| w ws IH] using rev_ind.
  - cbn. auto.
  - rewrite after_writes_app.
    destruct IH as (Hp & Ho & Hm & Hc).
    set (s := after_writes sysfs_initial ws len) in *.
    destruct w as [[v |] | [v |] | [v |] | [v |] | [v |]];
      cbn [do_attr_write columbus_ipc_partner_write
           columbus_ipc_operation_write columbus_ipc_mode_write
           columbus_ipc_channel_write page_store];
      unfold IPC_PARTNER_RF_DSP, IPC_PARTNER_PLC_DSP, IPC_SEND_OPERATION,
        IPC_RECEIVE_OPERATION, IPC_COMMUNICATION_INT,
        IPC_COMMUNICATION_POLL, COLUMBUS_IPC_INVALID,
        A7_RF_IPC_CHANNEL_NUM, IPC_IRQ_CHANNEL_NUM;
      try (cbn [snd]; tauto).
    + destruct (Z.eqb_spec v 0), (Z.eqb_spec v 1);
        cbn [negb andb snd current_partner current_operation current_mode
             current_channel]; try tauto; lia.
    + destruct (Z.eqb_spec v 0), (Z.eqb_spec v 1);
        cbn [negb andb snd current_partner current_operation current_mode
             current_channel]; try tauto; lia.
    + destruct (Z.eqb_spec v 0), (Z.eqb_spec v 1);
        cbn [negb andb snd current_partner current_operation current_mode
             current_channel]; try tauto;
        (split; [tauto |]; split; [tauto |]; split; [lia |]);
        (destruct Hc as [Hc | (_ & Hc)]; [now left | right; lia]).
    + destruct (Z.eqb_spec (current_mode s) (-1)); [cbn [snd]; tauto |].
      destruct (Z.eqb_spec (current_mode s) 1),
               (Z.geb_spec v 16), (Z.eqb_spec (current_mode s) 0),
               (Z.geb_spec v 8);
        cbn [negb andb snd current_partner current_operation current_mode
             current_channel]; try tauto;
        (split; [tauto |]; split; [tauto |]; split; [tauto |]);
        right; lia.
Qed.

(** X22.  Whatever is written to the five attribute files, in any order,
    starting from the static initializers: partner, operation and mode each
    hold -1 or a value of their enumeration, and the channel holds -1 or a
    value below 16 that was accepted while a mode was set.  Every write
    returns either -EINVAL or the number of bytes written, and one that does
    not return the number of bytes changes none of the attributes. *)
Theorem sysfs_attributes_stay_valid (ws : list attr_write) (len : Z) :
  let s := after_writes sysfs_initial ws len in
  (current_partner s = COLUMBUS_IPC_INVALID
   \/ current_partner s = IPC_PARTNER_RF_DSP
   \/ current_partner s = IPC_PARTNER_PLC_DSP)
  /\ (current_operation s = COLUMBUS_IPC_INVALID
      \/ current_operation s = IPC_SEND_OPERATION
      \/ current_operation s = IPC_RECEIVE_OPERATION)
  /\ (current_mode s = COLUMBUS_IPC_INVALID
      \/ current_mode s = IPC_COMMUNICATION_INT
      \/ current_mode s = IPC_COMMUNICATION_POLL)
  /\ (current_channel s = COLUMBUS_IPC_INVALID
      \/ (current_mode s <> COLUMBUS_IPC_INVALID
          /\ current_channel s < A7_RF_IPC_CHANNEL_NUM))
  /\ (forall w, fst (do_attr_write s w len) = - EINVAL
                \/ fst (do_attr_write s w len) = to_int len)
  /\ (forall w, fst (do_attr_write s w len) <> to_int len ->
                snd (do_attr_write s w len) = s).
Proof.
  intros s.
  destruct (after_writes_invariant ws len) as (Hp & Ho & Hm & Hc).
  fold s in Hp, Ho, Hm, Hc.
  unfold COLUMBUS_IPC_INVALID, IPC_PARTNER_RF_DSP, IPC_PARTNER_PLC_DSP,
    IPC_SEND_OPERATION, IPC_RECEIVE_OPERATION, IPC_COMMUNICATION_INT,
    IPC_COMMUNICATION_POLL, A7_RF_IPC_CHANNEL_NUM.
  split; [exact Hp |]. split; [exact Ho |]. split; [exact Hm |].
  split; [exact Hc |].
  split.
  - intros [[v |] | [v |] | [v |] | [v |] | [v |]];
      cbn [do_attr_write columbus_ipc_partner_write
           columbus_ipc_operation_write columbus_ipc_mode_write
           columbus_ipc_channel_write page_store];
      repeat match goal with
             | |- context [if ?b then _ else _] => destruct b
             end; cbn [fst]; auto.
  - intros [[v |] | [v |] | [v |] | [v |] | [v |]];
      cbn [do_attr_write columbus_ipc_partner_write
           columbus_ipc_operation_write columbus_ipc_mode_write
           columbus_ipc_channel_write page_store];
      repeat match goal with
             | |- context [if ?b then _ else _] => destruct b
             end; cbn [fst snd]; intros Hret; try reflexivity;
      contradiction.
Qed.

Lemma sysfs_attributes_stay_valid_witness :
  snd (do_attr_write
         (after_writes sysfs_initial
            [write_partner (Some 1); write_mode (Some 7); write_page None] 2)
         (write_channel (Some 3)) 2)
  = after_writes sysfs_initial
      [write_partner (Some 1); write_mode (Some 7); write_page None] 2.
Proof.
  destruct (sysfs_attributes_stay_valid
              [write_partner (Some 1); write_mode (Some 7); write_page None] 2)
    as (_ & _ & _ & _ & _ & Hkeep).
  apply Hkeep. vm_compute. discriminate.
Defined.

(** X23.  The show functions of partner, operation and mode assert that
    their attribute is in range.  After any sequence of writes to the
    attribute files, starting from the static initializers, these
    assertions hold: in either build each show function returns the decimal
    text of its attribute and the length of that text. *)
Theorem sysfs_show_functions_never_fire {P : Platform} (ws : list attr_write)
    (len : Z) :
  let s := after_writes sysfs_initial ws len in
  columbus_ipc_partner_read s
  = Done (strlen (sprintf_d (current_partner s)),
          sprintf_d (current_partner s))
  /\ columbus_ipc_operation_read s
     = Done (strlen (sprintf_d (current_operation s)),
             sprintf_d (current_operation s))
  /\ columbus_ipc_mode_read s
     = Done (strlen (sprintf_d (current_mode s)),
             sprintf_d (current_mode s)).
Proof.
  intros s.
  destruct (after_writes_invariant ws len) as (Hp & Ho & Hm & _).
  fold s in Hp, Ho, Hm.
  split; [| split].
  - unfold columbus_ipc_partner_read, IPC_PARTNER_RF_DSP,
      IPC_PARTNER_PLC_DSP, COLUMBUS_IPC_INVALID.
    destruct Hp as [-> | [-> | ->]]; cbn [Z.eqb Pos.eqb orb negb];
      rewrite ?IPC_BUG_false; reflexivity.
  - unfold columbus_ipc_operation_read, IPC_SEND_OPERATION,
      IPC_RECEIVE_OPERATION, COLUMBUS_IPC_INVALID.
    destruct Ho as [-> | [-> | ->]]; cbn [Z.eqb Pos.eqb orb negb];
      rewrite ?IPC_BUG_false; reflexivity.
  - unfold columbus_ipc_mode_read, IPC_COMMUNICATION_INT,
      IPC_COMMUNICATION_POLL, COLUMBUS_IPC_INVALID.
    destruct Hm as [-> | [-> | ->]]; cbn [Z.eqb Pos.eqb orb negb];
      rewrite ?IPC_BUG_false; reflexivity.
Qed.

(** X24.  [columbus_ipc_channel_write] has no lower bound.  With a mode
    set, any negative channel number is accepted and stored.  For a number
    below -1 the show function of the channel is then BUG under DEBUG and
    prints the number otherwise, and an attempt to acquire a channel with
    these attributes -- the first step of a read or write of the message
    file -- is BUG under DEBUG and indexes the table before its first slot
    otherwise. *)
Theorem columbus_ipc_channel_write_no_lower_bound {P : Platform}
    (s : sysfs_state) (channel len : Z) :
  current_mode s = IPC_COMMUNICATION_INT
  \/ current_mode s = IPC_COMMUNICATION_POLL ->
  channel < 0 ->
  let s' := snd (columbus_ipc_channel_write s (Some channel) len) in
  columbus_ipc_channel_write s (Some channel) len
  = (to_int len,
     mk_sysfs_state (current_partner s) (current_operation s)
                    (current_mode s) channel (current_page s))
  /\ (channel < -1 ->
      columbus_ipc_channel_read s'
      = (if DEBUG then Bug
         else Done (strlen (sprintf_d channel), sprintf_d channel))
      /\ forall t,
           current_partner s = IPC_PARTNER_RF_DSP
           \/ current_partner s = IPC_PARTNER_PLC_DSP ->
           current_operation s = IPC_SEND_OPERATION
           \/ current_operation s = IPC_RECEIVE_OPERATION ->
           columbus_ipc_get_channel t (current_partner s')
             (current_operation s') (current_mode s') (current_channel s')
           = if DEBUG then Bug else Stray).
Proof.
  intros Hmode Hneg s'.
  assert (Hwrite : columbus_ipc_channel_write s (Some channel) len
                   = (to_int len,
                      mk_sysfs_state (current_partner s) (current_operation s)
                                     (current_mode s) channel (current_page s))).
  { unfold columbus_ipc_channel_write, COLUMBUS_IPC_INVALID,
      IPC_COMMUNICATION_INT, IPC_COMMUNICATION_POLL, A7_RF_IPC_CHANNEL_NUM,
      IPC_IRQ_CHANNEL_NUM in *.
    replace (channel >=? 16) with false by lia.
    replace (channel >=? 8) with false by lia.
    rewrite !andb_false_r.
    destruct Hmode as [-> | ->]; reflexivity. }
  split; [exact Hwrite |].
  intros Hlow. subst s'. rewrite Hwrite. cbn [snd]. split.
  - unfold columbus_ipc_channel_read, A7_RF_IPC_CHANNEL_NUM,
      COLUMBUS_IPC_INVALID. cbn [current_channel].
    replace (channel >=? 0) with false by lia. cbn [andb].
    replace (channel =? -1) with false by lia. cbn [negb].
    unfold IPC_BUG. rewrite andb_true_r. destruct DEBUG; reflexivity.
  - intros t Hpartner Hop.
    cbn [current_partner current_operation current_mode current_channel].
    unfold columbus_ipc_get_channel, get_channels, get_max_channel,
      get_free_channel.
    replace (negb (current_partner s =? IPC_PARTNER_RF_DSP)
             && negb (current_partner s =? IPC_PARTNER_PLC_DSP)) with false
      by (destruct Hpartner as [-> | ->]; reflexivity).
    replace (negb (current_operation s =? IPC_SEND_OPERATION)
             && negb (current_operation s =? IPC_RECEIVE_OPERATION)) with false
      by (destruct Hop as [-> | ->]; reflexivity).
    replace (negb (current_mode s =? IPC_COMMUNICATION_INT)
             && negb (current_mode s =? IPC_COMMUNICATION_POLL)) with false
      by (destruct Hmode as [-> | ->]; reflexivity).
    rewrite !IPC_BUG_false. cbn [obind].
    assert (Htable : (if current_partner s =? IPC_PARTNER_RF_DSP
                      then Done rf_table
                      else IPC_BUG (negb (current_partner s
                                          =? IPC_PARTNER_PLC_DSP))
                           ;;; Done plc_table)
                     = Done (table_for (current_partner s))).
    { unfold table_for.
      destruct Hpartner as [-> | ->]; cbn [Z.eqb Pos.eqb negb];
        rewrite ?IPC_BUG_false; reflexivity. }
    assert (Hmax : (if current_mode s =? IPC_COMMUNICATION_INT
                    then Done IPC_IRQ_CHANNEL_NUM
                    else IPC_BUG (negb (current_mode s
                                        =? IPC_COMMUNICATION_POLL))
                         ;;; Done A7_RF_IPC_CHANNEL_NUM)
                   = Done (slots_for (current_mode s))).
    { unfold slots_for.
      destruct Hmode as [-> | ->]; cbn [Z.eqb Pos.eqb negb];
        rewrite ?IPC_BUG_false; reflexivity. }
    rewrite Htable, Hmax. cbn [obind].
    assert (Hslots : 0 < slots_for (current_mode s) <= 16).
    { unfold slots_for, IPC_IRQ_CHANNEL_NUM, A7_RF_IPC_CHANNEL_NUM.
      destruct (current_mode s =? IPC_COMMUNICATION_INT); lia. }
    unfold COLUMBUS_IPC_INVALID, A7_RF_IPC_CHANNEL_NUM.
    replace (slots_for (current_mode s) >? 16) with false by lia.
    replace (channel =? -1) with false by lia.
    replace (channel >=? slots_for (current_mode s)) with false by lia.
    cbn [negb andb]. rewrite !IPC_BUG_false. cbn [obind].
    replace (channel <? -1) with true by lia.
    unfold IPC_BUG. rewrite andb_true_r.
    destruct DEBUG; [reflexivity |]. cbn [obind].
    unfold slot_read. replace (channel <? 0) with true by lia.
    reflexivity.
Qed.

Lemma columbus_ipc_channel_write_no_lower_bound_witness :
  columbus_ipc_channel_write
    (mk_sysfs_state IPC_PARTNER_RF_DSP IPC_SEND_OPERATION
                    IPC_COMMUNICATION_POLL (-1) (-1)) (Some (-5)) 2
  = (2, mk_sysfs_state IPC_PARTNER_RF_DSP IPC_SEND_OPERATION
                       IPC_COMMUNICATION_POLL (-5) (-1))
  /\ @columbus_ipc_get_channel bench_debug initial_tables IPC_PARTNER_RF_DSP
       IPC_SEND_OPERATION IPC_COMMUNICATION_POLL (-5) = Bug.
Proof.
  destruct (@columbus_ipc_channel_write_no_lower_bound bench_debug
              (mk_sysfs_state IPC_PARTNER_RF_DSP IPC_SEND_OPERATION
                              IPC_COMMUNICATION_POLL (-1) (-1)) (-5) 2
              ltac:(now right) ltac:(lia)) as (Hwrite & Hlow).
  split; [exact Hwrite |].
  destruct (Hlow ltac:(lia)) as (_ & Hget).
  exact (Hget initial_tables ltac:(now left) ltac:(now left)).
Defined.

(** X25.  The channel attribute is checked against the mode of the moment
    only.  Set the mode to poll, the channel to one of 8-15, the mode to
    interrupt: all three writes are accepted and leave an interrupt-mode
    request for a slot that has no interrupt line.  Acquiring a channel
    with these attributes is BUG under DEBUG; a production build hands out
    the slot, if it is unused, stamped as an interrupt-mode channel. *)
Theorem columbus_ipc_channel_outlives_mode_change {P : Platform}
    (s : sysfs_state) (channel len : Z) (t : channel_tables) :
  IPC_IRQ_CHANNEL_NUM <= channel < A7_RF_IPC_CHANNEL_NUM ->
  current_partner s = IPC_PARTNER_RF_DSP
  \/ current_partner s = IPC_PARTNER_PLC_DSP ->
  current_operation s = IPC_SEND_OPERATION
  \/ current_operation s = IPC_RECEIVE_OPERATION ->
  tables_wf t ->
  let ws := [write_mode (Some IPC_COMMUNICATION_POLL);
             write_channel (Some channel);
             write_mode (Some IPC_COMMUNICATION_INT)] in
  let s' := after_writes s ws len in
  s' = mk_sysfs_state (current_partner s) (current_operation s)
                      IPC_COMMUNICATION_INT channel (current_page s)
  /\ columbus_ipc_get_channel t (current_partner s') (current_operation s')
       (current_mode s') (current_channel s')
     = if DEBUG then Bug
       else match table_of t (table_for (current_partner s))
                  !! Z.to_nat channel with
            | Some c =>
                if used c =? IPC_CHANNEL_UNUSED
                then Done (Some (mk_handle (table_for (current_partner s))
                                           channel),
                           set_table t (table_for (current_partner s))
                             (<[Z.to_nat channel
                                := stamped (current_partner s)
                                           (current_operation s)
                                           IPC_COMMUNICATION_INT]>
                                (table_of t (table_for (current_partner s)))))
                else Done (None, t)
            | None => Stray
            end.
Proof.
  intros Hch Hpartner Hop Hwf ws s'.
  unfold IPC_IRQ_CHANNEL_NUM, A7_RF_IPC_CHANNEL_NUM in Hch.
  assert (Hs' : s' = mk_sysfs_state (current_partner s) (current_operation s)
                       IPC_COMMUNICATION_INT channel (current_page s)).
  { subst s' ws. unfold after_writes. cbn [fold_left do_attr_write].
    unfold columbus_ipc_mode_write, columbus_ipc_channel_write.
    cbn [Z.eqb Pos.eqb negb andb snd current_mode current_partner
         current_operation current_channel current_page
         IPC_COMMUNICATION_POLL IPC_COMMUNICATION_INT COLUMBUS_IPC_INVALID].
    unfold A7_RF_IPC_CHANNEL_NUM.
    replace (channel >=? 16) with false by lia.
    cbn [snd current_mode current_partner current_operation current_channel
         current_page Z.eqb negb andb].
    reflexivity. }
  split; [exact Hs' |]. rewrite Hs'.
  cbn [current_partner current_operation current_mode current_channel].
  unfold columbus_ipc_get_channel, get_channels, get_max_channel,
    get_free_channel.
  replace (negb (current_partner s =? IPC_PARTNER_RF_DSP)
           && negb (current_partner s =? IPC_PARTNER_PLC_DSP)) with false
    by (destruct Hpartner as [-> | ->]; reflexivity).
  replace (negb (current_operation s =? IPC_SEND_OPERATION)
           && negb (current_operation s =? IPC_RECEIVE_OPERATION)) with false
    by (destruct Hop as [-> | ->]; reflexivity).
  cbn [IPC_COMMUNICATION_INT IPC_COMMUNICATION_POLL Z.eqb negb andb].
  rewrite !IPC_BUG_false. cbn [obind].
  assert (Htable : (if current_partner s =? IPC_PARTNER_RF_DSP
                    then Done rf_table
                    else IPC_BUG (negb (current_partner s =? IPC_PARTNER_PLC_DSP))
                         ;;; Done plc_table)
                   = Done (table_for (current_partner s))).
  { unfold table_for.
    destruct Hpartner as [-> | ->]; cbn [Z.eqb Pos.eqb negb];
      rewrite ?IPC_BUG_false; reflexivity. }
  rewrite Htable. cbn [obind].
  unfold IPC_IRQ_CHANNEL_NUM, A7_RF_IPC_CHANNEL_NUM, COLUMBUS_IPC_INVALID.
  change (8 >? 16) with false. rewrite IPC_BUG_false. cbn [obind].
  replace (channel =? -1) with false by lia.
  replace (channel >=? 8) with true by lia. cbn [negb andb].
  unfold IPC_BUG at 1. rewrite andb_true_r.
  destruct DEBUG eqn:Hdebug; [reflexivity |]. cbn [obind].
  rewrite IPC_BUG_nodebug by exact Hdebug. cbn [obind].
  unfold slot_read at 1. replace (channel <? 0) with false by lia.
  destruct (table_of t (table_for (current_partner s)) !! Z.to_nat channel)
    as [c |] eqn:Hc; [| reflexivity].
  cbn [obind].
  destruct (used c =? IPC_CHANNEL_UNUSED); cbn [obind].
  - rewrite (slot_read_Done _ channel (set_used c IPC_CHANNEL_USED))
      by (try apply list_lookup_insert_eq; try lia;
          eapply lookup_lt_Some; eauto).
    cbn [obind]. rewrite list_insert_insert_eq. reflexivity.
  - now rewrite set_table_same.
Qed.

Lemma columbus_ipc_channel_outlives_mode_change_witness :
  @columbus_ipc_get_channel bench initial_tables IPC_PARTNER_RF_DSP
    IPC_SEND_OPERATION IPC_COMMUNICATION_INT 12
  = Done (Some (mk_handle rf_table 12),
          set_table initial_tables rf_table
            (<[12%nat := stamped IPC_PARTNER_RF_DSP IPC_SEND_OPERATION
                                 IPC_COMMUNICATION_INT]>
               (table_of initial_tables rf_table))).
Proof.
  destruct (@columbus_ipc_channel_outlives_mode_change bench
              (mk_sysfs_state IPC_PARTNER_RF_DSP IPC_SEND_OPERATION
                              COLUMBUS_IPC_INVALID COLUMBUS_IPC_INVALID
                              COLUMBUS_IPC_INVALID)
              12 2 initial_tables)
    as (_ & Hget).
  - vm_compute. split; congruence.
  - now left.
  - now left.
  - exact initial_tables_wf.
  - exact Hget.
Defined.

(** ** Handles after they were put back *)

(** X26.  A handle used after it was put back.  [channel2num] -- the first
    step of sending, receiving, notifying and acknowledging -- is BUG under
    DEBUG, because the cleared slot names no partner.  A production build
    takes the cleared slot for a PLC slot: for a handle into the PLC table
    it still answers the slot number; for a handle into the RF table it
    subtracts the base of the PLC table from a pointer into the RF table. *)
Theorem channel2num_after_put {P : Platform} (t t1 : channel_tables)
    (h : channel_handle) :
  columbus_ipc_put_channel t h = Done t1 ->
  channel2num t1 h
  = if DEBUG then Bug
    else match h_table h with
         | rf_table => Stray
         | plc_table => Done (h_slot h)
         end.
Proof.
  intros Hput.
  destruct (columbus_ipc_put_channel_Done t t1 h Hput) as (c & Hc & _ & Hc1).
  unfold channel2num. rewrite Hc1. cbn [obind].
  unfold get_channels, get_max_channel.
  cbn [clear_ipc_channel partner operation mode COLUMBUS_IPC_INVALID
       IPC_PARTNER_RF_DSP IPC_PARTNER_PLC_DSP IPC_COMMUNICATION_INT
       IPC_COMMUNICATION_POLL Z.eqb negb].
  unfold IPC_BUG at 1. rewrite andb_true_r.
  destruct DEBUG eqn:Hdebug; [reflexivity |]. cbn [obind].
  destruct (h_table h); cbn [channel_table_eqb negb]; [reflexivity |].
  rewrite !IPC_BUG_nodebug by exact Hdebug. cbn [obind].
  rewrite !IPC_BUG_nodebug by exact Hdebug. reflexivity.
Qed.

Lemma channel2num_after_put_witness :
  exists t1,
    @columbus_ipc_put_channel bench
      (tables (machine_with plc_table 5 IPC_PARTNER_PLC_DSP
                            IPC_RECEIVE_OPERATION IPC_COMMUNICATION_INT))
      (mk_handle plc_table 5) = Done t1
    /\ @channel2num bench t1 (mk_handle plc_table 5) = Done 5.
Proof.
  eexists. split.
  - vm_compute. reflexivity.
  - apply (@channel2num_after_put bench
             (tables (machine_with plc_table 5 IPC_PARTNER_PLC_DSP
                                   IPC_RECEIVE_OPERATION
                                   IPC_COMMUNICATION_INT))).
    vm_compute. reflexivity.
Defined.

(** ** Ringing the partner *)

(** X27.  On a live handle [notify_partner] and [ack_partner] return 0 and
    do one thing each: they write the bit of the handle's slot, and no
    other bit, to the set register, respectively the acknowledge register,
    of the handle's partner. *)
Theorem notify_and_ack_partner_write_channel_bit {P : Platform} (m : machine)
    (channel : channel_handle) (c : ipc_channel) :
  handle_live (tables m) channel ->
  deref (tables m) channel = Done c ->
  let rf := partner c =? IPC_PARTNER_RF_DSP in
  notify_partner m channel
  = Done (0, emit m (Iowrite32 (2 ^ h_slot channel)
                               (if rf then A7TORFIPCSET else A7TOPLCIPCSET)))
  /\ ack_partner m channel
     = Done (0, emit m (Iowrite32 (2 ^ h_slot channel)
                                  (if rf then RFTOA7IPCACK
                                   else PLCTOA7IPCACK))).
Proof.
  intros Hlive Hc rf.
  pose proof (handle_live_slot _ _ Hlive) as Hslot.
  assert (Hbit : u32 (Z.shiftl 1 (h_slot channel)) = 2 ^ h_slot channel).
  { rewrite Z.shiftl_1_l. unfold u32. apply Z.mod_small.
    split; [apply Z.pow_nonneg; lia | apply Z.pow_lt_mono_r; lia]. }
  unfold notify_partner, ack_partner.
  rewrite (channel2num_live _ _ Hlive), Hc. cbn [obind]. fold rf.
  unfold iowrite32. rewrite Hbit.
  destruct rf; split; reflexivity.
Qed.

Lemma notify_and_ack_partner_write_channel_bit_witness :
  @notify_partner bench_debug
    (machine_with rf_table 3 IPC_PARTNER_RF_DSP IPC_SEND_OPERATION
                  IPC_COMMUNICATION_POLL) (mk_handle rf_table 3)
  = Done (0, emit (machine_with rf_table 3 IPC_PARTNER_RF_DSP
                                IPC_SEND_OPERATION IPC_COMMUNICATION_POLL)
                  (Iowrite32 8 A7TORFIPCSET)).
Proof.
  destruct (@notify_and_ack_partner_write_channel_bit bench_debug
              (machine_with rf_table 3 IPC_PARTNER_RF_DSP IPC_SEND_OPERATION
                            IPC_COMMUNICATION_POLL)
              (mk_handle rf_table 3)
              (stamped IPC_PARTNER_RF_DSP IPC_SEND_OPERATION
                       IPC_COMMUNICATION_POLL))
    as (Hnotify & _).
  - apply (machine_with_live 3); [lia | now left | now right].
  - reflexivity.
  - exact Hnotify.
Defined.

(** ** The driver's unit tests *)

(** X28.  [unittest_channel_operation], the driver's own test of the
    channel functions, started with no RF slot in use: every assertion of
    the test holds, whatever the unused RF slots and the PLC table contain,
    and the test ends with all 16 RF slots cleared and the PLC table
    untouched. *)
Theorem unittest_channel_operation_holds {P : Platform}
    (rf plc : list ipc_channel) :
  DEBUG = true ->
  length rf = 16%nat ->
  Forall (fun c => used c = IPC_CHANNEL_UNUSED) rf ->
  unittest_channel_operation (mk_tables rf plc)
  = Done (mk_tables (repeat (clear_ipc_channel zero_channel) 16) plc).
Proof.
  intros Hdebug Hlen Hunused.
  destruct P as [dbg key rd em base phy ctrl]. cbn in Hdebug. subst dbg.
  do 17 (destruct rf as [| [? ? ? ? ? ?] rf]; try discriminate Hlen).
  repeat match goal with
         | H : Forall _ (_ :: _) |- _ =>
             apply Forall_cons_1 in H; destruct H as [?H H]
         end.
  cbn [used] in *. subst.
  vm_compute. reflexivity.
Qed.

Lemma unittest_channel_operation_holds_witness :
  @unittest_channel_operation bench_debug initial_tables
  = Done (mk_tables (repeat (clear_ipc_channel zero_channel) 16)
                    (repeat zero_channel 16)).
Proof.
  apply (@unittest_channel_operation_holds bench_debug
           (repeat zero_channel 16) (repeat zero_channel 16)).
  - reflexivity.
  - reflexivity.
  - repeat constructor.
Defined.

(** X29.  [unittest_sram_operation], the driver's own test of the page
    allocator, run on the bench board with all pages free and a controller
    that grants free pages and honours releases: every assertion of the
    test holds, whatever the uninitialized [start_page] holds at the start,
    and the test ends with all pages free.  The scenarios it walks through
    (pages 2, 6, 11, 17, 24 taken; runs of 2 to 7, 14, 15 and 32 pages; fixed
    and free allocation of 1000, 2000 and 7000 bytes) are those of the
    source. *)
Theorem unittest_sram_operation_holds (start_page : Z) :
  @unittest_check_sram_free bench_debug (mk_sram_regs 0 0)
  = Done (mk_sram_regs 0 0)
  /\ @unittest_sram_operation bench_debug (mk_sram_regs 0 0) start_page
     = Done (mk_sram_regs 0 0)
  /\ @unittest_sram_operation bench_debug (occupied [5]) start_page = Bug.
Proof.
  repeat split; vm_compute; reflexivity.
Qed.
